(** * Messaging client of xmtp-js: topic derivation, envelope codec,
      send / stream / list, keystore bootstrap.

    Shallow embedding of [packages/messaging/src/Client.ts] and of the
    keystore provider interface.  Collaborators that live outside the client
    (key bundles, the envelope codec, the relay and the store) are taken
    through the [Externals] class; the JavaScript objects whose identity
    matters (observer callbacks, the options object of [listMessages], the
    stream promise) live in an explicit [World]. *)

From Stdlib Require Import ZArith List Lia.
From Stdlib Require Import Strings.Byte.
From stdpp Require Import gmap strings list fin_maps.

Set Default Proof Using "Type".

(** [Uint8Array] *)
Abbreviation bytes := (list byte).

(** ** Results of synchronous and asynchronous code *)

(** The failures the layer distinguishes.  [MissingRecipient] is
    [new Error('missing recipient')]; the others name the collaborator whose
    failure travels through the client unchanged. *)
Inductive Error : Type :=
  | MissingRecipient
  | MalformedEnvelope
  | EncryptionError
  | DecryptionError
  | TransportError
  | KeystoreProviderUnavailableError.

(** Outcome of a synchronous call: a value or a [throw]. *)
Inductive Completion (A : Type) : Type :=
  | Returned (a : A)
  | Thrown (e : Error).
Arguments Returned {A} a.
Arguments Thrown {A} e.

(** State of a promise. *)
Inductive Promise (A : Type) : Type :=
  | Pending
  | Fulfilled (a : A)
  | Rejected (e : Error).
Arguments Pending {A}.
Arguments Fulfilled {A} a.
Arguments Rejected {A} e.

(** An [async] function turns the completion of its body into the state of
    the promise it returns. *)
Definition async {A} (c : Completion A) : Promise A :=
  match c with
  | Returned a => Fulfilled a
  | Thrown e => Rejected e
  end.

(** ** Topic deriver *)

Module Topic.

(** [const buildContentTopic = (name: string) => `/xmtp/0/${name}/proto`] *)
Definition buildContentTopic (name : string) : string :=
  "/xmtp/0/" +:+ name +:+ "/proto".

End Topic.

(** ** Wire framing of the envelope codec *)

Module Wire.

(** Modelled from the spec: the byte layout of the envelope codec
    ([Message.toBytes] and [Message.fromBytes] of [./message/Message], which
    is not among the sources).  The spec asks for a deterministic
    serialization of the header fields and the ciphertext and for a decoder
    that fails on bytes that do not parse; the layout taken here is a
    sequence of fields, each a tag byte, the length of its content as a
    base-128 varint, and the content. *)
Definition byteOfN (n : N) : byte := default x00 (Byte.of_N n).

(** Modelled from the spec: the length prefix of the codec's layout, a
    base-128 varint, least significant group first; the high bit of a byte
    says that another byte follows.  [fuel] bounds the number of groups. *)
Fixpoint encodeVarintFuel (fuel : nat) (n : N) : bytes :=
  match fuel with
  | O => [byteOfN n]
  | S fuel =>
      if (n <? 128)%N then [byteOfN n]
      else byteOfN (128 + n mod 128) :: encodeVarintFuel fuel (n / 128)
  end.

Definition encodeVarint (n : N) : bytes :=
  encodeVarintFuel (N.to_nat (N.size n)) n.

(** Modelled from the spec: the reader of the length prefix; it takes a
    varint off the front of the input. *)
Fixpoint decodeVarint (bs : bytes) : option (N * bytes) :=
  match bs with
  | [] => None
  | b :: rest =>
      let v := Byte.to_N b in
      if (v <? 128)%N then Some (v, rest)
      else
        match decodeVarint rest with
        | Some (hi, rest) => Some (v - 128 + 128 * hi, rest)%N
        | None => None
        end
  end.

(** A field: its tag and its content. *)
Definition Field : Type := byte * bytes.

Definition encodeField (f : Field) : bytes :=
  f.1 :: encodeVarint (N.of_nat (length f.2)) ++ f.2.

Definition encodeFields (fs : list Field) : bytes :=
  concat (map encodeField fs).

(** Modelled from the spec: the reader of the codec's layout; it splits the
    input into fields and fails when a length is cut short or runs past the
    end of the input. *)
Fixpoint decodeFieldsFuel (fuel : nat) (bs : bytes) : option (list Field) :=
  match bs with
  | [] => Some []
  | tag :: rest =>
      match fuel with
      | O => None
      | S fuel =>
          match decodeVarint rest with
          | None => None
          | Some (n, rest) =>
              let n := N.to_nat n in
              if length rest <? n then None
              else
                match decodeFieldsFuel fuel (drop n rest) with
                | None => None
                | Some fs => Some ((tag, take n rest) :: fs)
                end
          end
      end
  end.

Definition decodeFields (bs : bytes) : option (list Field) :=
  decodeFieldsFuel (length bs) bs.

(** An optional member is written as one field or as none. *)
Definition optField (tag : byte) (o : option bytes) : list Field :=
  match o with
  | Some b => [(tag, b)]
  | None => []
  end.

(** Takes the field at the front when it carries [tag]. *)
Definition popField (tag : byte) (fs : list Field) : option bytes * list Field :=
  match fs with
  | (tag', b) :: rest =>
      if Byte.eqb tag' tag then (Some b, rest) else (None, fs)
  | [] => (None, [])
  end.

(** Decodes the content of an optional member. *)
Definition optDecode {A} (dec : bytes -> option A) (o : option bytes)
    : option (option A) :=
  match o with
  | None => Some None
  | Some b => Some <$> dec b
  end.

End Wire.

(** ** Data model *)

(** Key material is opaque to the client ([./crypto] is a collaborator). *)
Record PublicKey : Type := { publicKeyBytes : bytes }.
Record PrivateKey : Type := { privateKeyBytes : bytes }.
Record Ciphertext : Type := { ciphertextBytes : bytes }.

Module KeyBundle.
Record t : Type := { identityKey : option PublicKey; preKey : option PublicKey }.

(** Modelled from the spec: the wire form of a key bundle inside an
    envelope header (the codec is not among the sources): the identity key
    under tag 1, the pre-key under tag 2. *)
Definition toBytes (kb : t) : bytes :=
  Wire.encodeFields
    (Wire.optField x01 (publicKeyBytes <$> identityKey kb)
     ++ Wire.optField x02 (publicKeyBytes <$> preKey kb)).

(** Modelled from the spec: the reader of a key bundle's wire form. *)
Definition ofFields (fs : list Wire.Field) : option t :=
  let '(ik, fs) := Wire.popField x01 fs in
  let '(pk, fs) := Wire.popField x02 fs in
  match fs with
  | [] => Some {| identityKey := Build_PublicKey <$> ik;
                  preKey := Build_PublicKey <$> pk |}
  | _ :: _ => None
  end.

Definition fromBytes (bs : bytes) : option t :=
  Wire.decodeFields bs ≫= ofFields.
End KeyBundle.

Module PrivateKeyBundle.
Record t : Type := { identityKey : option PrivateKey; preKey : option PrivateKey }.
End PrivateKeyBundle.

Module Message.
Record Header : Type :=
  { sender : option KeyBundle.t; recipient : option KeyBundle.t }.

(** [decrypted] is the plaintext attached locally after decryption. *)
Record t : Type :=
  { header : option Header;
    ciphertext : option Ciphertext;
    decrypted : option string }.

(** [msg.decrypted = s] *)
Definition setDecrypted (s : string) (m : t) : t :=
  {| header := header m; ciphertext := ciphertext m; decrypted := Some s |}.

(** The envelope without its local plaintext. *)
Definition strip (m : t) : t :=
  {| header := header m; ciphertext := ciphertext m; decrypted := None |}.

(** Modelled from the spec: the wire form of the header (the codec is not
    among the sources): the sender's bundle under tag 1, the recipient's
    under tag 2. *)
Definition headerToBytes (h : Header) : bytes :=
  Wire.encodeFields
    (Wire.optField x01 (KeyBundle.toBytes <$> sender h)
     ++ Wire.optField x02 (KeyBundle.toBytes <$> recipient h)).

Definition headerOfFields (fs : list Wire.Field) : option Header :=
  let '(s, fs) := Wire.popField x01 fs in
  let '(r, fs) := Wire.popField x02 fs in
  match fs with
  | [] =>
      s ← Wire.optDecode KeyBundle.fromBytes s;
      r ← Wire.optDecode KeyBundle.fromBytes r;
      Some {| sender := s; recipient := r |}
  | _ :: _ => None
  end.

Definition headerFromBytes (bs : bytes) : option Header :=
  Wire.decodeFields bs ≫= headerOfFields.

(** Modelled from the spec: [encode(envelope) -> bytes] of the envelope
    codec ([Message.toBytes], not among the sources), "deterministic
    serialization of header fields and ciphertext into a transport
    payload": the header under tag 1, the ciphertext under tag 2, and
    nothing for the local plaintext. *)
Definition toBytes (m : t) : bytes :=
  Wire.encodeFields
    (Wire.optField x01 (headerToBytes <$> header m)
     ++ Wire.optField x02 (ciphertextBytes <$> ciphertext m)).

(** Modelled from the spec: the reader of the envelope's wire form; it reads
    back what [toBytes] wrote, and a member that was not written is absent
    from the result. *)
Definition ofFields (fs : list Wire.Field) : option t :=
  let '(h, fs) := Wire.popField x01 fs in
  let '(c, fs) := Wire.popField x02 fs in
  match fs with
  | [] =>
      h ← Wire.optDecode headerFromBytes h;
      Some {| header := h; ciphertext := Build_Ciphertext <$> c;
              decrypted := None |}
  | _ :: _ => None
  end.

Definition parse (bs : bytes) : option t :=
  Wire.decodeFields bs ≫= ofFields.

(** The "expected header/ciphertext shape": a header with the sender's and
    the recipient's bundle, and a ciphertext. *)
Definition wellFormed (m : t) : bool :=
  match header m, ciphertext m with
  | Some h, Some _ => bool_decide (is_Some (sender h) ∧ is_Some (recipient h))
  | _, _ => false
  end.

(** Modelled from the spec: [decode(bytes) -> envelope] of the envelope
    codec ([Message.fromBytes], not among the sources), "the inverse; fails
    with a MalformedEnvelopeError when the byte sequence does not parse
    into the expected header/ciphertext shape (e.g., missing sender or
    recipient bundle)". *)
Definition fromBytes (bs : bytes) : Completion t :=
  match parse bs with
  | Some m => if wellFormed m then Returned m else Thrown MalformedEnvelope
  | None => Thrown MalformedEnvelope
  end.
End Message.

(** js-waku's [WakuMessage]: every field may be undefined.  Times are
    milliseconds since the epoch, the time value of a [Date]. *)
Record WakuMessage : Type :=
  { payload : option bytes;
    contentTopic : option string;
    timestamp : option Z }.

Inductive PageDirection : Type := BACKWARD | FORWARD.

(** The arguments of [waku.store.queryHistory]. *)
Record HistoryQuery : Type :=
  { contentTopics : list string;
    q_pageSize : option Z;
    q_pageDirection : option PageDirection;
    q_startTime : option Z;
    q_endTime : option Z }.

(** [type ListMessagesOptions = { pageSize?, startTime?, endTime? }] *)
Record ListMessagesOptions : Type :=
  { pageSize : option Z;
    startTime : option Z;
    endTime : option Z }.

(** ** Collaborators *)

Class Externals : Type :=
  { (** [PrivateKey.getPublicKey()] *)
    getPublicKey : PrivateKey -> PublicKey;
    (** [PublicKey.getEthereumAddress()] *)
    getEthereumAddress : PublicKey -> string;
    (** [PrivateKeyBundle.getKeyBundle()] *)
    getKeyBundle : PrivateKeyBundle.t -> KeyBundle.t;
    (** [PrivateKeyBundle.encrypt(plain, recipient)], [None] when it fails *)
    encrypt : PrivateKeyBundle.t -> bytes -> KeyBundle.t -> option Ciphertext;
    (** [PrivateKeyBundle.decrypt(ciphertext, sender)], [None] when it fails *)
    decrypt : PrivateKeyBundle.t -> Ciphertext -> KeyBundle.t -> option bytes;
    (** [Message.fromBytes(bytes)], [None] when it throws *)
    Message_fromBytes : bytes -> option Message.t;
    (** [msg.toBytes()] *)
    Message_toBytes : Message.t -> bytes;
    (** [new TextEncoder().encode(s)] and [new TextDecoder().decode(b)] *)
    TextEncoder_encode : string -> bytes;
    TextDecoder_decode : bytes -> string;
    (** whether the relay accepts a message handed to [relay.send] *)
    relay_accepts : WakuMessage -> bool;
    (** what the store answers to a history query, [None] when it fails;
        an entry of the answer may itself be undefined *)
    store_answers : HistoryQuery -> option (list (option WakuMessage)) }.

(** ** The world the client runs in *)

(** Code of the two function objects the client creates. *)
Inductive Closure : Type :=
  (** the observer of [streamMessages], lines 134-146: it captures
      [recipient] and the [resolve] of the stream promise *)
  | StreamObserver (recipient : PrivateKeyBundle.t) (resolve : nat)
  (** [() => ({})], line 151 *)
  | EmptyFn.

(** A function object: its identity and its code.  Two evaluations of the
    same function expression give objects of different identity. *)
Record Fn : Type := { fn_id : nat; fn_body : Closure }.

(** What the client asked of the transport, in order. *)
Inductive TransportCall : Type :=
  | RelaySend (m : WakuMessage)
  | AddObserver (f : nat) (topics : list string)
  | DeleteObserver (f : nat) (topics : list string)
  | QueryHistory (q : HistoryQuery).

Record World : Type :=
  { (** [Date.now()] *)
    clock : Z;
    (** [waku.relay.observers]: per content topic, a [Set] of callbacks in
        insertion order *)
    observers : gmap string (list Fn);
    (** identity of the next function object *)
    next_fn : nat;
    (** the stream promises, by creation index *)
    promises : list (Promise (list Message.t));
    (** rejections of observer calls, which nobody awaits *)
    unhandled : list Error;
    (** the options objects, by reference *)
    heap : list ListMessagesOptions;
    (** the calls made on the transport *)
    calls : list TransportCall }.

Definition set_observers (f : gmap string (list Fn) -> gmap string (list Fn))
    (w : World) : World :=
  {| clock := clock w; observers := f (observers w); next_fn := next_fn w;
     promises := promises w; unhandled := unhandled w; heap := heap w;
     calls := calls w |}.

Definition set_next_fn (n : nat) (w : World) : World :=
  {| clock := clock w; observers := observers w; next_fn := n;
     promises := promises w; unhandled := unhandled w; heap := heap w;
     calls := calls w |}.

Definition set_promises
    (f : list (Promise (list Message.t)) -> list (Promise (list Message.t)))
    (w : World) : World :=
  {| clock := clock w; observers := observers w; next_fn := next_fn w;
     promises := f (promises w); unhandled := unhandled w; heap := heap w;
     calls := calls w |}.

Definition add_unhandled (e : Error) (w : World) : World :=
  {| clock := clock w; observers := observers w; next_fn := next_fn w;
     promises := promises w; unhandled := unhandled w ++ [e]; heap := heap w;
     calls := calls w |}.

Definition set_heap (f : list ListMessagesOptions -> list ListMessagesOptions)
    (w : World) : World :=
  {| clock := clock w; observers := observers w; next_fn := next_fn w;
     promises := promises w; unhandled := unhandled w; heap := f (heap w);
     calls := calls w |}.

Definition log_call (c : TransportCall) (w : World) : World :=
  {| clock := clock w; observers := observers w; next_fn := next_fn w;
     promises := promises w; unhandled := unhandled w; heap := heap w;
     calls := calls w ++ [c] |}.

(** Evaluating a function expression allocates a function object. *)
Definition new_fn (c : Closure) (w : World) : Fn * World :=
  ({| fn_id := next_fn w; fn_body := c |}, set_next_fn (S (next_fn w)) w).

(** [new Promise(...)]: a pending promise and its index. *)
Definition new_promise (w : World) : nat * World :=
  (length (promises w), set_promises (fun ps => ps ++ [Pending]) w).

(** [resolve(v)]: settles a pending promise, does nothing otherwise. *)
Definition settle {A} (v : A) (p : Promise A) : Promise A :=
  match p with
  | Pending => Fulfilled v
  | _ => p
  end.

Definition resolve (p : nat) (v : list Message.t) (w : World) : World :=
  set_promises (alter (settle v) p) w.

(** ** The relay's observer registry (js-waku [WakuRelay])

    [observers] maps a content topic to the [Set] of callbacks registered for
    it; the key [""] holds the callbacks registered for every topic.  A [Set]
    compares function objects by identity. *)

Definition same_fn (f g : Fn) : bool := Nat.eqb (fn_id f) (fn_id g).

(** [Set.prototype.add] *)
Definition set_add (f : Fn) (s : list Fn) : list Fn :=
  if existsb (same_fn f) s then s else s ++ [f].

(** [Set.prototype.delete] *)
Definition set_delete (f : Fn) (s : list Fn) : list Fn :=
  List.filter (fun g => negb (same_fn f g)) s.

(** [if (!this.observers[t]) this.observers[t] = new Set();
     this.observers[t].add(callback)] *)
Definition observers_add (f : Fn) (obs : gmap string (list Fn)) (t : string)
    : gmap string (list Fn) :=
  <[t := set_add f (default [] (obs !! t))]> obs.

(** [if (this.observers[t]) this.observers[t].delete(callback)] *)
Definition observers_delete (f : Fn) (obs : gmap string (list Fn)) (t : string)
    : gmap string (list Fn) :=
  match obs !! t with
  | Some s => <[t := set_delete f s]> obs
  | None => obs
  end.

(** With no content topic the callback goes under the key [""]. *)
Definition registry_keys (topics : list string) : list string :=
  match topics with
  | [] => [""]
  | _ => topics
  end.

(** [relay.addObserver(callback, contentTopics)] *)
Definition relay_addObserver (f : Fn) (topics : list string) (w : World) : World :=
  set_observers (fun obs => foldl (observers_add f) obs (registry_keys topics))
    (log_call (AddObserver (fn_id f) topics) w).

(** [relay.deleteObserver(callback, contentTopics)] *)
Definition relay_deleteObserver (f : Fn) (topics : list string) (w : World) : World :=
  set_observers (fun obs => foldl (observers_delete f) obs (registry_keys topics))
    (log_call (DeleteObserver (fn_id f) topics) w).

(** ** The client *)

Section Client.
Context `{Externals}.

(** Lines 136-143 and 202-209, the same statements in the observer of
    [streamMessages] and in the mapper of [listMessages]:
    [[
      const msg = Message.fromBytes(payload);
      if (msg.ciphertext && msg.header?.sender) {
        const bytes = await recipient.decrypt(msg.ciphertext, msg.header.sender);
        msg.decrypted = new TextDecoder().decode(bytes);
      }
    ]] *)
Definition openEnvelope (recipient : PrivateKeyBundle.t) (pl : bytes)
    : Completion Message.t :=
  match Message_fromBytes pl with
  | None => Thrown MalformedEnvelope
  | Some msg =>
      match Message.ciphertext msg, Message.header msg ≫= Message.sender with
      | Some c, Some s =>
          match decrypt recipient c s with
          | None => Thrown DecryptionError
          | Some plain =>
              Returned (Message.setDecrypted (TextDecoder_decode plain) msg)
          end
      | _, _ => Returned msg
      end
  end.

(** Calling a function object on a relay message and letting the call
    finish.  The observer is [async]: what its body throws rejects a promise
    that the relay drops.  [call] takes the call to its end, what follows the
    [await] of [decrypt] included: it is a call that nothing overtakes, as
    when deliveries are spaced apart.  [beginCall] and [resumeCall] below are
    its two halves, for the turns in which something comes in between. *)
Definition call (f : Fn) (wakuMsg : WakuMessage) (w : World) : World :=
  match fn_body f with
  | EmptyFn => w
  | StreamObserver recipient p =>
      match payload wakuMsg with
      | None => w
      | Some pl =>
          match openEnvelope recipient pl with
          | Thrown e => add_unhandled e w
          | Returned msg => resolve p [msg] w
          end
      end
  end.

Definition call_all (fs : list Fn) (wakuMsg : WakuMessage) (w : World) : World :=
  foldl (fun w f => call f wakuMsg w) w fs.

(** The relay hands a message received from the network to the callbacks
    under [""], then to those under its content topic when it has one
    (an empty topic is falsy).  Every call is taken to its end: this is a
    delivery that nothing overtakes; [relay_dispatch] below is the handing
    over alone. *)
Definition relay_deliver (w : World) (wakuMsg : WakuMessage) : World :=
  let w := call_all (default [] (observers w !! "")) wakuMsg w in
  match contentTopic wakuMsg with
  | Some t =>
      if decide (t = "") then w
      else call_all (default [] (observers w !! t)) wakuMsg w
  | None => w
  end.

(** [relay.send(wakuMsg)] *)
Definition relay_send (wakuMsg : WakuMessage) (w : World) : Promise unit * World :=
  let w := log_call (RelaySend wakuMsg) w in
  if relay_accepts wakuMsg then (Fulfilled tt, w) else (Rejected TransportError, w).

(** [store.queryHistory(topics, options)] *)
Definition store_queryHistory (q : HistoryQuery) (w : World)
    : Promise (list (option WakuMessage)) * World :=
  let w := log_call (QueryHistory q) w in
  match store_answers q with
  | Some ms => (Fulfilled ms, w)
  | None => (Rejected TransportError, w)
  end.

(** [async sendMessage(sender, recipient, msgString)], lines 79-113. *)
Definition sendMessage (sender : PrivateKeyBundle.t) (recipient : KeyBundle.t)
    (msgString : string) (w : World) : Promise unit * World :=
  match KeyBundle.identityKey recipient with
  | None => (Rejected MissingRecipient, w)
  | Some identityKey =>
      let contentTopic := Topic.buildContentTopic (getEthereumAddress identityKey) in
      let msgBytes := TextEncoder_encode msgString in
      match encrypt sender msgBytes recipient with
      | None => (Rejected EncryptionError, w)
      | Some ciphertext =>
          let msg :=
            {| Message.header :=
                 Some {| Message.sender := Some (getKeyBundle sender);
                         Message.recipient := Some recipient |};
               Message.ciphertext := Some ciphertext;
               Message.decrypted := None |} in
          let msg := Message.setDecrypted msgString msg in
          let timestamp := clock w in
          let wakuMsg :=
            {| payload := Some (Message_toBytes msg);
               contentTopic := Some contentTopic;
               timestamp := Some timestamp |} in
          relay_send wakuMsg w
      end
  end.

(** The cancellation handle of line 150:
    [() => this.waku.relay.deleteObserver(() => ({}), [contentTopic])].
    Each call evaluates the function expression [() => ({})] anew. *)
Definition close (contentTopic : string) (w : World) : Completion unit * World :=
  let '(f, w) := new_fn EmptyFn w in
  (Returned tt, relay_deleteObserver f [contentTopic] w).

(** What [streamMessages] returns: the index of the stream promise and the
    cancellation handle. *)
Record Stream : Type :=
  { stream : nat;
    stream_close : World -> Completion unit * World }.

(** [streamMessages(recipient)], lines 115-153.  Not [async]: the guard
    throws to the caller. *)
Definition streamMessages (recipient : PrivateKeyBundle.t) (w : World)
    : Completion Stream * World :=
  match PrivateKeyBundle.identityKey recipient with
  | None => (Thrown MissingRecipient, w)
  | Some identityKey =>
      let contentTopic :=
        Topic.buildContentTopic (getEthereumAddress (getPublicKey identityKey)) in
      let '(p, w) := new_promise w in
      let '(observer, w) := new_fn (StreamObserver recipient p) w in
      let w := relay_addObserver observer [contentTopic] w in
      (Returned {| stream := p; stream_close := close contentTopic |}, w)
  end.

(** [Promise.all]: the list of the values when every promise is fulfilled,
    the reason of a rejected one otherwise (the first in index order here;
    JavaScript takes the first to settle). *)
Fixpoint Promise_all {A} (ps : list (Promise A)) : Promise (list A) :=
  match ps with
  | [] => Fulfilled []
  | p :: ps =>
      match p, Promise_all ps with
      | Rejected e, _ => Rejected e
      | _, Rejected e => Rejected e
      | Fulfilled a, Fulfilled l => Fulfilled (a :: l)
      | _, _ => Pending
      end
  end.

(** [1000 * 60 * 60 * 24 * 7], the milliseconds of seven days. *)
Definition sevenDays : Z := 1000 * 60 * 60 * 24 * 7.

(** [new Date(new Date(t).toUTCString())]: the UTC string of a date
    ("Mon, 02 Nov 2026 11:47:03 GMT") carries whole seconds, so the date read
    back from it is [t] rounded down to a second. *)
Definition Date_ofUTCString (t : Z) : Z := 1000 * (t / 1000).

(** [!n] for an optional number: undefined and [0] are falsy. *)
Definition falsyNumber (n : option Z) : bool :=
  match n with
  | None => true
  | Some n => Z.eqb n 0
  end.

(** [!d] for an optional [Date]: only undefined is falsy. *)
Definition falsyDate (d : option Z) : bool :=
  match d with
  | None => true
  | Some _ => false
  end.

(** [{}] *)
Definition emptyOptions : ListMessagesOptions :=
  {| pageSize := None; startTime := None; endTime := None |}.

(** [opts = {}] allocates an object. *)
Definition new_options (w : World) : nat * World :=
  (length (heap w), set_heap (fun h => h ++ [emptyOptions]) w).

(** Reading the object a reference points to. *)
Definition deref (o : nat) (w : World) : ListMessagesOptions :=
  default emptyOptions (heap w !! o).

(** [opts.startTime = v], [opts.endTime = v], [opts.pageSize = v] *)
Definition write_startTime (o : nat) (v : Z) (w : World) : World :=
  set_heap (alter (fun x =>
    {| pageSize := pageSize x; startTime := Some v; endTime := endTime x |}) o) w.

Definition write_endTime (o : nat) (v : Z) (w : World) : World :=
  set_heap (alter (fun x =>
    {| pageSize := pageSize x; startTime := startTime x; endTime := Some v |}) o) w.

Definition write_pageSize (o : nat) (v : Z) (w : World) : World :=
  set_heap (alter (fun x =>
    {| pageSize := Some v; startTime := startTime x; endTime := endTime x |}) o) w.

(** Lines 159-173: the defaults are assigned to the fields of [opts]. *)
Definition applyDefaults (opts : nat) (w : World) : World :=
  let w :=
    if falsyDate (startTime (deref opts w))
    then write_startTime opts (clock w - sevenDays) w else w in
  let w :=
    if falsyDate (endTime (deref opts w))
    then write_endTime opts (Date_ofUTCString (clock w)) w else w in
  if falsyNumber (pageSize (deref opts w))
  then write_pageSize opts 10 w else w.

(** [if (!opts) { opts = {} }], lines 159-161. *)
Definition ensureOptions (opts : option nat) (w : World) : nat * World :=
  match opts with
  | Some o => (o, w)
  | None => new_options w
  end.

(** The query of lines 189-196. *)
Definition historyQuery (contentTopic : string) (o : ListMessagesOptions)
    : HistoryQuery :=
  {| contentTopics := [contentTopic];
     q_pageSize := pageSize o;
     q_pageDirection := Some FORWARD;
     q_startTime := startTime o;
     q_endTime := endTime o |}.

(** [wakuMsgs.filter(wakuMsg => wakuMsg?.payload)], read at [.payload]. *)
Definition payloads (wakuMsgs : list (option WakuMessage)) : list bytes :=
  omap (fun wakuMsg => wakuMsg ≫= payload) wakuMsgs.

(** [async listMessages(recipient, opts?)], lines 155-213.  [opts] is a
    reference to the caller's object, or undefined. *)
Definition listMessages (recipient : PrivateKeyBundle.t) (opts : option nat)
    (w : World) : Promise (list Message.t) * World :=
  let '(opts, w) := ensureOptions opts w in
  let w := applyDefaults opts w in
  match PrivateKeyBundle.identityKey recipient with
  | None => (Rejected MissingRecipient, w)
  | Some identityKey =>
      let contentTopic :=
        Topic.buildContentTopic (getEthereumAddress (getPublicKey identityKey)) in
      match store_queryHistory (historyQuery contentTopic (deref opts w)) w with
      | (Fulfilled wakuMsgs, w) =>
          (Promise_all
             (map (fun pl => async (openEnvelope recipient pl)) (payloads wakuMsgs)),
           w)
      | (Rejected e, w) => (Rejected e, w)
      | (Pending, w) => (Pending, w)
      end
  end.

End Client.

(** What a stream has yielded: the value of its promise once fulfilled. *)
Definition yielded (p : nat) (w : World) : list Message.t :=
  match promises w !! p with
  | Some (Fulfilled l) => l
  | _ => []
  end.

(** A relay message published on a content topic. *)
Definition published (t : string) (pl : bytes) : WakuMessage :=
  {| payload := Some pl; contentTopic := Some t; timestamp := None |}.

(** ** The statements of the specification, in its own words *)

Module Spec.
Section Spec.
Context `{Externals}.

(** "deriveTopic: no failure modes other than rejecting an empty
    identifier". *)
Definition deriveTopic (addressIdentifier : string) : option string :=
  if decide (addressIdentifier = "") then None
  else Some ("/xmtp/0/" +:+ addressIdentifier +:+ "/proto").

(** "For each delivered payload, decode the envelope; if it carries both
    ciphertext and a sender header, decrypt and attach the plaintext before
    yielding it.  Envelopes failing to decode or lacking ciphertext/sender
    are silently dropped", and the stream goes on with the next payload. *)
Definition streamElement (recipient : PrivateKeyBundle.t) (wakuMsg : WakuMessage)
    : option Message.t :=
  pl ← payload wakuMsg;
  msg ← Message_fromBytes pl;
  c ← Message.ciphertext msg;
  s ← Message.header msg ≫= Message.sender;
  plain ← decrypt recipient c s;
  Some (Message.setDecrypted (TextDecoder_decode plain) msg).

Definition stream (recipient : PrivateKeyBundle.t) (delivered : list WakuMessage)
    : list Message.t :=
  omap (streamElement recipient) delivered.

End Spec.
End Spec.

(** ** Keystore provider *)

Module Keystore.

(** [Signer] and [IApiClient] are opaque to the provider contract. *)
Record Signer : Type := { signerAddress : string }.
Record ApiClient : Type := { apiUrl : string }.

(** [KeystoreProviderOptions], [src/unnamed/part_000] lines 6-10, with the
    [preCreateIdentityNotifier] of [PreEventCallbackOptions]; a callback is
    known by its identity. *)
Record KeystoreProviderOptions : Type :=
  { env : string;
    persistConversations : bool;
    privateKeyOverride : option bytes;
    preCreateIdentityNotifier : option nat }.

(** The opaque result of a bootstrap, bound to the identity it serves. *)
Record Keystore : Type := { keystoreIdentity : Signer }.

(** What a bootstrap attempt does that its caller can observe. *)
Inductive Event : Type :=
  | Notified (callback : nat)
  | IdentityCreated (wallet : Signer).

(** [interface KeystoreProvider], [src/unnamed/part_000] lines 16-22. *)
Class KeystoreProvider (P : Type) : Type :=
  { newKeystore :
      P -> KeystoreProviderOptions -> ApiClient -> option Signer ->
      list Event -> Promise Keystore * list Event }.

(** [new KeyGeneratorKeystoreProvider()] *)
Inductive KeyGeneratorKeystoreProvider : Type := KeyGenerator.

(** Modelled from the spec: [KeyGeneratorKeystoreProvider.newKeystore] (the
    class is not among the sources, only its interface and its tests are).
    "If no wallet is supplied, fail with KeystoreProviderUnavailableError.
    If options.preCreateIdentityNotifier is supplied, it is invoked exactly
    once before identity material is created/authorized; it is not invoked on
    the unavailable path.  On success, returns a fully initialized Keystore
    bound to the resolved identity." *)
Definition generate (opts : KeystoreProviderOptions) (apiClient : ApiClient)
    (wallet : option Signer) (log : list Event) : Promise Keystore * list Event :=
  match wallet with
  | None => (Rejected KeystoreProviderUnavailableError, log)
  | Some wallet =>
      let log :=
        match preCreateIdentityNotifier opts with
        | Some callback => log ++ [Notified callback]
        | None => log
        end in
      let log := log ++ [IdentityCreated wallet] in
      (Fulfilled {| keystoreIdentity := wallet |}, log)
  end.

#[export] Instance keyGenerator : KeystoreProvider KeyGeneratorKeystoreProvider :=
  {| newKeystore := fun _ => generate |}.

(** How often a callback was invoked. *)
Definition invocations (callback : nat) (log : list Event) : nat :=
  length (List.filter
    (fun e => match e with
              | Notified c => Nat.eqb c callback
              | IdentityCreated _ => false
              end) log).

End Keystore.

(** [new Client(waku)] on a relay without observers, at time [now]. *)
Definition newClient (now : Z) : World :=
  {| clock := now; observers := ∅; next_fn := 0; promises := [];
     unhandled := []; heap := []; calls := [] |}.

(** ** A concrete setting for examples *)

Module Demo.

(** Toy collaborators: the address of a key is its bytes read as text,
    encryption is the identity, decryption fails on an empty ciphertext, and
    the codec is the wire writer and reader of [Message]; the reader accepts
    an envelope with absent members, which the guards of lines 137 and 203
    provide for. *)
Definition publicOf (k : PrivateKey) : PublicKey :=
  {| publicKeyBytes := privateKeyBytes k |}.

Definition bundleOf (b : PrivateKeyBundle.t) : KeyBundle.t :=
  {| KeyBundle.identityKey := publicOf <$> PrivateKeyBundle.identityKey b;
     KeyBundle.preKey := publicOf <$> PrivateKeyBundle.preKey b |}.

Definition open (c : Ciphertext) : option bytes :=
  match ciphertextBytes c with
  | [] => None
  | b :: bs => Some (b :: bs)
  end.

Definition aliceKey : PrivateKey :=
  {| privateKeyBytes := String.list_byte_of_string "0xA11CE" |}.
Definition bobKey : PrivateKey :=
  {| privateKeyBytes := String.list_byte_of_string "0xB0B" |}.

Definition alice : PrivateKeyBundle.t :=
  {| PrivateKeyBundle.identityKey := Some aliceKey;
     PrivateKeyBundle.preKey := None |}.

Definition bob : PrivateKeyBundle.t :=
  {| PrivateKeyBundle.identityKey := Some bobKey;
     PrivateKeyBundle.preKey := None |}.

(** A bundle without an identity key. *)
Definition nobody : PrivateKeyBundle.t :=
  {| PrivateKeyBundle.identityKey := None; PrivateKeyBundle.preKey := None |}.

Definition aliceTopic : string := "/xmtp/0/0xA11CE/proto".
Definition bobTopic : string := "/xmtp/0/0xB0B/proto".

(** An envelope from bob to alice with ciphertext [c], as the wire has it. *)
Definition envelope (c : option string) : Message.t :=
  {| Message.header :=
       Some {| Message.sender := Some (bundleOf bob);
               Message.recipient := Some (bundleOf alice) |};
     Message.ciphertext := (fun s => Build_Ciphertext (String.list_byte_of_string s)) <$> c;
     Message.decrypted := None |}.

Definition hello : WakuMessage :=
  published aliceTopic (Message.toBytes (envelope (Some "hello"))).
Definition again : WakuMessage :=
  published aliceTopic (Message.toBytes (envelope (Some "again"))).
(** an envelope without ciphertext *)
Definition bare : WakuMessage :=
  published aliceTopic (Message.toBytes (envelope None)).
(** a payload that does not parse: a field announcing more bytes than follow *)
Definition garbled : WakuMessage :=
  published aliceTopic [x01; x05; x00].
(** an envelope whose ciphertext does not decrypt *)
Definition sealed : WakuMessage :=
  published bobTopic (Message.toBytes (envelope (Some ""))).

(** The store keeps two messages for alice and, for bob, one that decrypts
    and one that does not. *)
Definition history (q : HistoryQuery) : option (list (option WakuMessage)) :=
  if decide (contentTopics q = [aliceTopic]) then Some [Some hello; None; Some again]
  else if decide (contentTopics q = [bobTopic])
       then Some [Some (published bobTopic (Message.toBytes (envelope (Some "hi"))));
                  Some sealed]
       else Some [].

#[export] Instance externals : Externals :=
  {| getPublicKey := publicOf;
     getEthereumAddress := fun k => String.string_of_list_byte (publicKeyBytes k);
     getKeyBundle := bundleOf;
     encrypt := fun _ plain _ => Some {| ciphertextBytes := plain |};
     decrypt := fun _ c _ => open c;
     Message_fromBytes := Message.parse;
     Message_toBytes := Message.toBytes;
     TextEncoder_encode := String.list_byte_of_string;
     TextDecoder_decode := String.string_of_list_byte;
     relay_accepts := fun _ => true;
     store_answers := history |}.

(** A client that has just been created, at 2022-11-02T11:47:03.500Z. *)
Definition world0 : World := newClient 1667389623500.

(** The same client, whose caller holds an options object with a page size
    and no time window. *)
Definition callerOptions : ListMessagesOptions :=
  {| pageSize := Some 25%Z; startTime := None; endTime := None |}.

Definition world1 : World := set_heap (fun _ => [callerOptions]) world0.

(** The query [listMessages] makes for bob at [world0] with no options. *)
Definition bobQuery : HistoryQuery :=
  {| contentTopics := [bobTopic];
     q_pageSize := Some 10%Z;
     q_pageDirection := Some FORWARD;
     q_startTime := Some 1666784823500%Z;
     q_endTime := Some 1667389623000%Z |}.

End Demo.

(** ** Worlds the client can be in *)

(** Whether a function object settles the promise [p]. *)
Definition refers (p : nat) (f : Fn) : bool :=
  match fn_body f with
  | StreamObserver _ q => Nat.eqb q p
  | EmptyFn => false
  end.

(** A registered callback was allocated before [next_fn] and settles a
    promise that exists. *)
Definition allocated (w : World) (f : Fn) : Prop :=
  fn_id f < next_fn w
  /\ match fn_body f with
     | StreamObserver _ p => p < length (promises w)
     | EmptyFn => True
     end.

Definition wf (w : World) : Prop :=
  map_Forall (fun _ fs => Forall (allocated w) fs) (observers w).

(** The subscription of [streamMessages]: the observer that settles [p] is
    the last callback under the topic [t], and no other registered callback
    settles [p]. *)
Definition subscribed (recipient : PrivateKeyBundle.t) (t : string) (p : nat)
    (w : World) : Prop :=
  t <> ""
  /\ (exists fs f,
        observers w !! t = Some (fs ++ [f])
        /\ fn_body f = StreamObserver recipient p
        /\ Forall (fun g => refers p g = false) fs)
  /\ (forall t' gs,
        t' <> t -> observers w !! t' = Some gs ->
        Forall (fun g => refers p g = false) gs).

(** The fields of an options object once the defaults of lines 162-173 have
    been assigned at time [now]. *)
Definition withDefaults (now : Z) (x : ListMessagesOptions) : ListMessagesOptions :=
  {| pageSize := if falsyNumber (pageSize x) then Some 10%Z else pageSize x;
     startTime :=
       if falsyDate (startTime x) then Some (now - sevenDays)%Z else startTime x;
     endTime :=
       if falsyDate (endTime x) then Some (Date_ofUTCString now) else endTime x |}.

Section Observer.
Context `{Externals}.

(** What one delivery to the observer of a stream does to its promise. *)
Definition observe (recipient : PrivateKeyBundle.t) (wakuMsg : WakuMessage)
    (st : Promise (list Message.t)) : Promise (list Message.t) :=
  match payload wakuMsg with
  | None => st
  | Some pl =>
      match openEnvelope recipient pl with
      | Thrown _ => st
      | Returned msg => settle [msg] st
      end
  end.

(** The same for a delivery on any topic, seen from a subscription to [t]. *)
Definition observeOn (recipient : PrivateKeyBundle.t) (t : string)
    (st : Promise (list Message.t)) (wakuMsg : WakuMessage)
    : Promise (list Message.t) :=
  if decide (contentTopic wakuMsg = Some t) then observe recipient wakuMsg st
  else st.

(** The topic a party listens on. *)
Definition topicOf (k : PrivateKey) : string :=
  Topic.buildContentTopic (getEthereumAddress (getPublicKey k)).

End Observer.

(** ** Runs of a client *)

(** What can happen to a client: its caller calls it, uses a cancellation
    handle or makes an options object, the relay delivers a message, time
    passes. *)
Inductive Action : Type :=
  | DoSend (sender : PrivateKeyBundle.t) (recipient : KeyBundle.t) (msgString : string)
  | DoStream (recipient : PrivateKeyBundle.t)
  | DoClose (contentTopic : string)
  | DoList (recipient : PrivateKeyBundle.t) (opts : option nat)
  | NewOptions (x : ListMessagesOptions)
  | Deliver (wakuMsg : WakuMessage)
  | Tick (now : Z).

Section Runs.
Context `{Externals}.

(** One action, taken to its end: a delivery is one that nothing overtakes.
    [turn] below is the action as the event loop has it. *)
Definition run (w : World) (a : Action) : World :=
  match a with
  | DoSend sender recipient msgString => (sendMessage sender recipient msgString w).2
  | DoStream recipient => (streamMessages recipient w).2
  | DoClose contentTopic => (close contentTopic w).2
  | DoList recipient opts => (listMessages recipient opts w).2
  | NewOptions x => set_heap (fun h => h ++ [x]) w
  | Deliver wakuMsg => relay_deliver w wakuMsg
  | Tick now =>
      {| clock := now; observers := observers w; next_fn := next_fn w;
         promises := promises w; unhandled := unhandled w; heap := heap w;
         calls := calls w |}
  end.

End Runs.

(** ** A subscription in the middle of a run *)

(** The observer that settles [p] sits somewhere under the topic [t], and no
    other registered callback settles [p]. *)
Definition listens (recipient : PrivateKeyBundle.t) (t : string) (p : nat)
    (w : World) : Prop :=
  t <> ""
  /\ p < length (promises w)
  /\ (exists fs f gs,
        observers w !! t = Some (fs ++ f :: gs)
        /\ fn_body f = StreamObserver recipient p
        /\ Forall (fun g => refers p g = false) fs
        /\ Forall (fun g => refers p g = false) gs)
  /\ (forall t' gs,
        t' <> t -> observers w !! t' = Some gs ->
        Forall (fun g => refers p g = false) gs).

(** The messages the relay delivered in a run, in order. *)
Definition delivered (actions : list Action) : list WakuMessage :=
  omap (fun a => match a with Deliver m => Some m | _ => None end) actions.

(** How many callbacks the relay holds under a key. *)
Definition observerCount (t : string) (w : World) : nat :=
  length (default [] (observers w !! t)).

Section Opened.
Context `{Externals}.

(** The message the observer of a subscription to [t] resolves its promise
    with, when a delivery makes it do so. *)
Definition openedOn (recipient : PrivateKeyBundle.t) (t : string)
    (wakuMsg : WakuMessage) : option Message.t :=
  if decide (contentTopic wakuMsg = Some t) then
    match payload wakuMsg with
    | Some pl =>
        match openEnvelope recipient pl with
        | Returned msg => Some msg
        | Thrown _ => None
        end
    | None => None
    end
  else None.

(** The message [sendMessage] hands to the relay (lines 100-111). *)
Definition outgoing (sender : PrivateKeyBundle.t) (recipient : KeyBundle.t)
    (identityKey : PublicKey) (ciphertext : Ciphertext) (msgString : string)
    (now : Z) : WakuMessage :=
  {| payload :=
       Some (Message_toBytes
               {| Message.header :=
                    Some {| Message.sender := Some (getKeyBundle sender);
                            Message.recipient := Some recipient |};
                  Message.ciphertext := Some ciphertext;
                  Message.decrypted := Some msgString |});
     contentTopic := Some (Topic.buildContentTopic (getEthereumAddress identityKey));
     timestamp := Some now |}.

End Opened.

(** ** Creating and closing a client *)

Module Lifecycle.

(** [type CreateOptions = { bootstrapAddrs?, waitForPeersTimeoutMs? }] *)
Record CreateOptions : Type :=
  { bootstrapAddrs : option (list string);
    waitForPeersTimeoutMs : option Z }.

(** The [bootstrap] member of the options of [Waku.create]: a list of peers,
    or [getNodesFromHostedJson] bound to a path. *)
Inductive Bootstrap : Type :=
  | Peers (peers : list string)
  | GetPeers (path : list string).

(** The options of [Waku.create], lines 45-55. *)
Record WakuOptions : Type :=
  { pubsubEnabled : bool;
    pubsubEmitSelf : bool;
    bootstrap : Bootstrap }.

(** What [create] and [close] ask of their collaborators, in order. *)
Inductive HostCall : Type :=
  | WakuCreate (options : WakuOptions)
  | WaitForConnectedPeer (node : nat) (timeoutMs : Z)
  | WakuStop (node : nat)
  | Sleep (ms : Z).

(** The nodes made so far, each running or stopped, and the calls made. *)
Record Host : Type :=
  { nodes : list bool;
    hostCalls : list HostCall }.

(** Why [create] or [close] rejects: [Waku.create] rejected, the wait for a
    peer rejected ('timeout connecting to peers', or what
    [waitForConnectedPeer] threw), or [waku.stop] rejected. *)
Inductive Failure : Type :=
  | CreateFailed
  | PeerWaitFailed
  | StopFailed.

Inductive Settled (A : Type) : Type :=
  | Resolved (a : A)
  | Failed (e : Failure).
Arguments Resolved {A} a.
Arguments Failed {A} e.

(** The collaborators of [create]: js-waku, [promiseWithTimeout] of
    [./utils] and [sleep] of the test helpers are not among the sources;
    their outcomes are taken as they come. *)
Class Network : Type :=
  { (** whether [Waku.create(options)] resolves; it then holds a started node *)
    waku_creates : WakuOptions -> bool;
    (** whether [promiseWithTimeout(ms, () => waku.waitForConnectedPeer(), _)]
        resolves for the node *)
    peer_connects : nat -> Z -> bool;
    (** whether [waku.stop()] resolves for the node; it then is stopped *)
    waku_stops : nat -> bool }.

(** [class Client { waku: Waku }], lines 25-30: a client holds its node. *)
Record Client : Type := { waku : nat }.

Definition log_host (c : HostCall) (h : Host) : Host :=
  {| nodes := nodes h; hostCalls := hostCalls h ++ [c] |}.

(** The [bootstrap] of lines 33-44: [opts?.bootstrapAddrs ? ... : ...]; an
    array, empty or not, is truthy. *)
Definition bootstrapOf (opts : option CreateOptions) : Bootstrap :=
  match opts ≫= bootstrapAddrs with
  | Some addrs => Peers addrs
  | None => GetPeers ["fleets"; "wakuv2.test"; "waku-websocket"]
  end.

(** [opts?.waitForPeersTimeoutMs || 5000], line 60: undefined and [0] are
    falsy. *)
Definition timeoutOf (opts : option CreateOptions) : Z :=
  match opts ≫= waitForPeersTimeoutMs with
  | Some n => if Z.eqb n 0 then 5000%Z else n
  | None => 5000%Z
  end.

Section Lifecycle.
Context `{Network}.

(** [waku.stop()] *)
Definition stop (node : nat) (h : Host) : Settled unit * Host :=
  let h := log_host (WakuStop node) h in
  if waku_stops node
  then (Resolved tt, {| nodes := <[node := false]> (nodes h); hostCalls := hostCalls h |})
  else (Failed StopFailed, h).

(** [static async create(opts?)], lines 32-73. *)
Definition create (opts : option CreateOptions) (h : Host) : Settled Client * Host :=
  let options :=
    {| pubsubEnabled := true; pubsubEmitSelf := true; bootstrap := bootstrapOf opts |} in
  let h := log_host (WakuCreate options) h in
  if waku_creates options then
    let node := length (nodes h) in
    let h := {| nodes := nodes h ++ [true]; hostCalls := hostCalls h |} in
    let h := log_host (WaitForConnectedPeer node (timeoutOf opts)) h in
    if peer_connects node (timeoutOf opts) then
      let h := log_host (Sleep 5) h in
      (Resolved {| waku := node |}, h)
    else
      match stop node h with
      | (Resolved _, h) => (Failed PeerWaitFailed, h)
      | (Failed e, h) => (Failed e, h)
      end
  else (Failed CreateFailed, h).

(** [async close()], lines 75-77. *)
Definition close (c : Client) (h : Host) : Settled unit * Host :=
  stop (waku c) h.

(** What a caller does: it creates a client and keeps the one it gets, or
    closes a client and lets go of it. *)
Inductive Step : Type :=
  | Create (opts : option CreateOptions)
  | Close (c : Client).

Definition step (st : Host * list Client) (a : Step) : Host * list Client :=
  match a with
  | Create opts =>
      match create opts st.1 with
      | (Resolved c, h) => (h, st.2 ++ [c])
      | (Failed _, h) => (h, st.2)
      end
  | Close c =>
      ((close c st.1).2, List.filter (fun c' => negb (Nat.eqb (waku c') (waku c))) st.2)
  end.

End Lifecycle.

(** The nodes that run. *)
Definition running (h : Host) : list nat :=
  List.filter (fun n => default false (nodes h !! n)) (seq 0 (length (nodes h))).

(** A host on which nothing has been created. *)
Definition emptyHost : Host := {| nodes := []; hostCalls := [] |}.

(** A network for examples: nodes are always made and always stop, and a
    peer is found within a second or not at all. *)
Definition slowNetwork : Network :=
  {| waku_creates := fun _ => true;
     peer_connects := fun _ timeoutMs => Z.leb 1000 timeoutMs;
     waku_stops := fun _ => true |}.

(** A caller who creates a client, fails to create a second one for want of
    patience, creates a third and closes the first. *)
Definition session : list Step :=
  [Create None;
   Create (Some {| bootstrapAddrs := Some []; waitForPeersTimeoutMs := Some 10%Z |});
   Create (Some {| bootstrapAddrs := None; waitForPeersTimeoutMs := Some 0%Z |});
   Close {| waku := 0 |}].

End Lifecycle.

(** ** A store that has kept a sent message *)

Module Stored.

(** What bob's [sendMessage] to alice hands to the relay at [Demo.world0]. *)
Definition sent : WakuMessage :=
  outgoing (H := Demo.externals) Demo.bob (Demo.bundleOf Demo.alice)
    (Demo.publicOf Demo.aliceKey)
    {| ciphertextBytes := String.list_byte_of_string "hello" |}
    "hello" (clock Demo.world0).

(** The store answers a query on alice's topic with an undefined entry and
    that message. *)
Definition history (q : HistoryQuery) : option (list (option WakuMessage)) :=
  if decide (contentTopics q = [Demo.aliceTopic]) then Some [None; Some sent]
  else Some [].

(** The collaborators of [Demo] with this store. *)
#[export] Instance externals : Externals :=
  {| getPublicKey := Demo.publicOf;
     getEthereumAddress := fun k => String.string_of_list_byte (publicKeyBytes k);
     getKeyBundle := Demo.bundleOf;
     encrypt := fun _ plain _ => Some {| ciphertextBytes := plain |};
     decrypt := fun _ c _ => Demo.open c;
     Message_fromBytes := Message.parse;
     Message_toBytes := Message.toBytes;
     TextEncoder_encode := String.list_byte_of_string;
     TextDecoder_decode := String.string_of_list_byte;
     relay_accepts := fun _ => true;
     store_answers := history |}.

(** The collaborators of [Demo] with any store. *)
Definition externalsWith
    (store : HistoryQuery -> option (list (option WakuMessage))) : Externals :=
  {| getPublicKey := Demo.publicOf;
     getEthereumAddress := fun k => String.string_of_list_byte (publicKeyBytes k);
     getKeyBundle := Demo.bundleOf;
     encrypt := fun _ plain _ => Some {| ciphertextBytes := plain |};
     decrypt := fun _ c _ => Demo.open c;
     Message_fromBytes := Message.parse;
     Message_toBytes := Message.toBytes;
     TextEncoder_encode := String.list_byte_of_string;
     TextDecoder_decode := String.string_of_list_byte;
     relay_accepts := fun _ => true;
     store_answers := store |}.

(** A store that holds, for alice, a message and a payload that does not
    parse. *)
Definition garbledHistory (q : HistoryQuery) : option (list (option WakuMessage)) :=
  if decide (contentTopics q = [Demo.aliceTopic])
  then Some [Some Demo.hello; Some Demo.garbled]
  else Some [].

(** The query [listMessages] makes for alice at [Demo.world0] with no
    options. *)
Definition aliceQuery : HistoryQuery :=
  {| contentTopics := [Demo.aliceTopic];
     q_pageSize := Some 10%Z;
     q_pageDirection := Some FORWARD;
     q_startTime := Some 1666784823500%Z;
     q_endTime := Some 1667389623000%Z |}.

End Stored.

(** ** Observer calls in flight

    The observer of [streamMessages] is an [async] function, and the relay
    does not wait for the promise a call to it returns.  A call runs up to
    [await recipient.decrypt(msg.ciphertext, msg.header.sender)] (line 138)
    and is suspended there; what follows the [await] runs in a later turn of
    the event loop, once the decryption has settled, and other deliveries can
    come in between.  [call] above is the call together with that later
    turn; here the two are apart. *)

(** An observer call suspended at the [await] of line 138: the bundle, the
    decoded envelope, the arguments of [decrypt] and the promise its
    [resolve] settles. *)
Record Suspended : Type :=
  { sus_recipient : PrivateKeyBundle.t;
    sus_msg : Message.t;
    sus_ciphertext : Ciphertext;
    sus_sender : KeyBundle.t;
    sus_resolve : nat }.

Section InFlight.
Context `{Externals}.

(** Lines 135-145 up to the first [await]: what a call does before it
    returns to the relay.  A payload that does not decode throws inside the
    [async] function, which rejects the promise nobody holds; an envelope
    without ciphertext or sender meets no [await] and resolves the stream at
    once; any other is suspended. *)
Definition beginCall (f : Fn) (wakuMsg : WakuMessage) (st : World * list Suspended)
    : World * list Suspended :=
  match fn_body f with
  | EmptyFn => st
  | StreamObserver recipient p =>
      match payload wakuMsg with
      | None => st
      | Some pl =>
          match Message_fromBytes pl with
          | None => (add_unhandled MalformedEnvelope st.1, st.2)
          | Some msg =>
              match Message.ciphertext msg, Message.header msg ≫= Message.sender with
              | Some c, Some s =>
                  (st.1, st.2 ++ [{| sus_recipient := recipient; sus_msg := msg;
                                     sus_ciphertext := c; sus_sender := s;
                                     sus_resolve := p |}])
              | _, _ => (resolve p [msg] st.1, st.2)
              end
          end
      end
  end.

(** Lines 138-145 after the [await]: the decryption has settled. *)
Definition resumeCall (s : Suspended) (w : World) : World :=
  match decrypt (sus_recipient s) (sus_ciphertext s) (sus_sender s) with
  | None => add_unhandled DecryptionError w
  | Some plain =>
      resolve (sus_resolve s)
        [Message.setDecrypted (TextDecoder_decode plain) (sus_msg s)] w
  end.

Definition beginAll (fs : list Fn) (wakuMsg : WakuMessage) (st : World * list Suspended)
    : World * list Suspended :=
  foldl (fun st f => beginCall f wakuMsg st) st fs.

(** The relay hands a message to its callbacks, as [relay_deliver] does, and
    goes on without waiting for them. *)
Definition relay_dispatch (st : World * list Suspended) (wakuMsg : WakuMessage)
    : World * list Suspended :=
  let st := beginAll (default [] (observers st.1 !! "")) wakuMsg st in
  match contentTopic wakuMsg with
  | Some t =>
      if decide (t = "") then st
      else beginAll (default [] (observers st.1 !! t)) wakuMsg st
  | None => st
  end.

(** What a message makes its observers wait for: the decrypting of the
    ciphertext of its envelope from its sender, when its payload decodes to
    an envelope that has both. *)
Definition awaits (wakuMsg : WakuMessage) : option (Message.t * Ciphertext * KeyBundle.t) :=
  pl ← payload wakuMsg;
  msg ← Message_fromBytes pl;
  c ← Message.ciphertext msg;
  s ← Message.header msg ≫= Message.sender;
  Some (msg, c, s).

(** The suspended calls such a message leaves behind, one for each
    observer it is handed to. *)
Definition suspensions (msg : Message.t) (c : Ciphertext) (s : KeyBundle.t)
    (fs : list Fn) : list Suspended :=
  omap (fun f => match fn_body f with
                 | StreamObserver recipient p =>
                     Some {| sus_recipient := recipient; sus_msg := msg;
                             sus_ciphertext := c; sus_sender := s;
                             sus_resolve := p |}
                 | EmptyFn => None
                 end) fs.

(** A turn of the event loop: something of [Action] happens, a delivery
    going no further than the [await]s; the decryption the [i]-th suspended
    call waits for settles and the call goes on (decryptions settle in any
    order); or the host ends the process. *)
Inductive Turn : Type :=
  | Does (a : Action)
  | Settles (i : nat)
  | Ends.

Definition turn (st : World * list Suspended) (e : Turn) : World * list Suspended :=
  match e with
  | Does (Deliver wakuMsg) => relay_dispatch st wakuMsg
  | Does a => (run st.1 a, st.2)
  | Settles i =>
      match st.2 !! i with
      | Some s => (resumeCall s st.1, delete i st.2)
      | None => st
      end
  | Ends => st
  end.

(** The messages the relay handed over in a sequence of turns, in order. *)
Definition dispatched (es : list Turn) : list WakuMessage :=
  omap (fun e => match e with Does (Deliver m) => Some m | _ => None end) es.

End InFlight.

(** What the host does with a rejection that nothing handles, after Node's
    [--unhandled-rejections]: [Throw], Node's default, raises it as an
    uncaught exception, which ends the process once the turns queued with
    the rejection are over; [Warn], as a browser does, reports it and goes
    on. *)
Inductive UnhandledRejections : Type :=
  | Throw
  | Warn.

(** The client in its process: its world, the observer calls in flight, and
    whether the process has ended. *)
Record Process : Type :=
  { world : World;
    inFlight : list Suspended;
    exited : bool }.

Definition started (w : World) (sus : list Suspended) : Process :=
  {| world := w; inFlight := sus; exited := false |}.

Section Steps.
Context `{Externals}.

(** One turn in a process.  Nothing runs in a process that has ended, and
    the host ends a process under [Throw] only, when a rejection has gone
    unhandled. *)
Definition advance (mode : UnhandledRejections) (P : Process) (e : Turn) : Process :=
  if exited P then P
  else
    match e with
    | Ends =>
        match mode, unhandled (world P) with
        | Throw, _ :: _ =>
            {| world := world P; inFlight := inFlight P; exited := true |}
        | _, _ => P
        end
    | _ =>
        let st := turn (world P, inFlight P) e in
        {| world := st.1; inFlight := st.2; exited := false |}
    end.

(** The suspended calls refer to promises that exist. *)
Definition wf_calls (st : World * list Suspended) : Prop :=
  wf st.1 /\ Forall (fun s => sus_resolve s < length (promises st.1)) st.2.

(** A subscription among calls in flight: the observer that settles [p] is
    registered under [t]; the promise is pending or holds one message, which
    one of the messages [D] opens to; and every suspended call that will
    settle [p] comes from a message of [D] on the topic. *)
Definition tracks (recipient : PrivateKeyBundle.t) (t : string) (p : nat)
    (D : list WakuMessage) (st : World * list Suspended) : Prop :=
  listens recipient t p st.1
  /\ (promises st.1 !! p = Some Pending
      \/ exists msg,
           promises st.1 !! p = Some (Fulfilled [msg])
           /\ msg ∈ omap (openedOn recipient t) D)
  /\ Forall (fun s =>
       sus_resolve s = p ->
       sus_recipient s = recipient
       /\ exists wakuMsg,
            wakuMsg ∈ D
            /\ contentTopic wakuMsg = Some t
            /\ awaits wakuMsg = Some (sus_msg s, sus_ciphertext s, sus_sender s))
     st.2.

(** While the promise of a subscription is pending, every message of [D]
    that opens on its topic has a call in flight that waits for its
    decryption. *)
Definition owes (recipient : PrivateKeyBundle.t) (t : string) (p : nat)
    (D : list WakuMessage) (st : World * list Suspended) : Prop :=
  promises st.1 !! p = Some Pending ->
  forall wakuMsg msg,
    wakuMsg ∈ D ->
    openedOn recipient t wakuMsg = Some msg ->
    exists c,
      c ∈ st.2
      /\ sus_resolve c = p
      /\ sus_recipient c = recipient
      /\ awaits wakuMsg = Some (sus_msg c, sus_ciphertext c, sus_sender c).

(** An action that nothing overtakes: it happens and, when it is a
    delivery, the calls it suspended go on, oldest first, before the next
    turn. *)
Definition unhurried (mode : UnhandledRejections) (P : Process) (a : Action)
    : Process :=
  let P' := advance mode P (Does a) in
  foldl (advance mode) P'
    (replicate (length (inFlight P') - length (inFlight P))
       (Settles (length (inFlight P)))).

End Steps.

(** * Properties *)

(** ** The wire framing reads back what it wrote *)

Module WireFacts.
Import Wire.

Lemma byteOfN_to_N (n : N) : (n < 256)%N -> Byte.to_N (byteOfN n) = n.
Proof.
  intros Hn. unfold byteOfN.
  destruct (Byte.of_N n) as [b|] eqn:E; simpl.
  - by apply Byte.to_of_N in E.
  - apply Byte.of_N_None_iff in E. lia.
Qed.

Lemma decodeVarint_encodeVarintFuel (fuel : nat) (n : N) (rest : bytes) :
  (n < 2 ^ N.of_nat fuel)%N ->
  decodeVarint (encodeVarintFuel fuel n ++ rest) = Some (n, rest).
Proof.
  revert n. induction fuel as [|fuel IH]; intros n Hn.
  - assert (n = 0%N) as -> by (simpl in Hn; lia). reflexivity.
  - cbn [encodeVarintFuel].
    destruct (N.ltb_spec n 128) as [Hsmall|Hbig].
    + cbn [app decodeVarint]. rewrite byteOfN_to_N by lia.
      destruct (N.ltb_spec n 128); [done | lia].
    + pose proof (N.div_mod n 128 ltac:(lia)) as Hdm.
      pose proof (N.mod_lt n 128 ltac:(lia)) as Hm.
      rewrite Nat2N.inj_succ, N.pow_succ_r' in Hn.
      set (m := (n mod 128)%N) in *. set (d := (n / 128)%N) in *.
      set (P := (2 ^ N.of_nat fuel)%N) in *. clearbody m d P.
      cbn [app decodeVarint].
      rewrite byteOfN_to_N by lia.
      destruct (N.ltb_spec (128 + m) 128); [lia |].
      rewrite IH by lia. f_equal. f_equal. lia.
Qed.

Lemma decodeVarint_encodeVarint (n : N) (rest : bytes) :
  decodeVarint (encodeVarint n ++ rest) = Some (n, rest).
Proof.
  apply decodeVarint_encodeVarintFuel.
  rewrite N2Nat.id. apply N.size_gt.
Qed.

(** A varint is never empty, so every written field takes a byte or more. *)
Lemma encodeField_length (f : Field) : length f.2 < length (encodeField f).
Proof.
  unfold encodeField. rewrite length_cons, length_app. lia.
Qed.

Lemma decodeFieldsFuel_encodeFields (fs : list Field) (fuel : nat) :
  length (encodeFields fs) <= fuel ->
  decodeFieldsFuel fuel (encodeFields fs) = Some fs.
Proof.
  revert fuel. induction fs as [|[tag content] fs IH]; intros fuel Hfuel.
  - by destruct fuel.
  - unfold encodeFields in *. cbn [map concat] in *.
    unfold encodeField at 1. unfold encodeField at 1 in Hfuel.
    cbn [fst snd] in *. cbn [app] in *. rewrite length_cons in Hfuel.
    destruct fuel as [|fuel]; [lia |].
    cbn [decodeFieldsFuel].
    rewrite <- app_assoc, decodeVarint_encodeVarint, Nat2N.id.
    rewrite !length_app in Hfuel.
    destruct (Nat.ltb_spec (length (content ++ concat (map encodeField fs)))
                (length content)) as [Hlt|_].
    { rewrite length_app in Hlt. lia. }
    rewrite drop_app_length, take_app_length, IH; [done | lia].
Qed.

Lemma decodeFields_encodeFields (fs : list Field) :
  decodeFields (encodeFields fs) = Some fs.
Proof. by apply decodeFieldsFuel_encodeFields. Qed.

(** Two optional members under tags 1 and 2 are taken apart in order. *)
Lemma popField_two (a b : option bytes) :
  popField x01 (optField x01 a ++ optField x02 b) = (a, optField x02 b)
  /\ popField x02 (optField x02 b) = (b, []).
Proof. by destruct a, b. Qed.

End WireFacts.

(** ** Envelope codec *)

Module CodecFacts.
Import Wire WireFacts.

Lemma keyBundle_fromBytes_toBytes (kb : KeyBundle.t) :
  KeyBundle.fromBytes (KeyBundle.toBytes kb) = Some kb.
Proof.
  unfold KeyBundle.fromBytes, KeyBundle.toBytes.
  rewrite decodeFields_encodeFields. cbn [mbind option_bind].
  unfold KeyBundle.ofFields.
  destruct (popField_two (publicKeyBytes <$> KeyBundle.identityKey kb)
              (publicKeyBytes <$> KeyBundle.preKey kb)) as [-> ->].
  by destruct kb as [[[ik]|] [[pk]|]].
Qed.

Lemma optDecode_keyBundle (o : option KeyBundle.t) :
  optDecode KeyBundle.fromBytes (KeyBundle.toBytes <$> o) = Some o.
Proof.
  destruct o as [kb|]; [|done].
  cbn. by rewrite keyBundle_fromBytes_toBytes.
Qed.

Lemma header_fromBytes_toBytes (h : Message.Header) :
  Message.headerFromBytes (Message.headerToBytes h) = Some h.
Proof.
  unfold Message.headerFromBytes, Message.headerToBytes.
  rewrite decodeFields_encodeFields. cbn [mbind option_bind].
  unfold Message.headerOfFields.
  destruct (popField_two (KeyBundle.toBytes <$> Message.sender h)
              (KeyBundle.toBytes <$> Message.recipient h)) as [-> ->].
  rewrite !optDecode_keyBundle. by destruct h.
Qed.

(** The wire reader gives back the envelope without its plaintext. *)
Lemma parse_toBytes (m : Message.t) :
  Message.parse (Message.toBytes m) = Some (Message.strip m).
Proof.
  unfold Message.parse, Message.toBytes.
  rewrite decodeFields_encodeFields. cbn [mbind option_bind].
  unfold Message.ofFields.
  destruct (popField_two (Message.headerToBytes <$> Message.header m)
              (ciphertextBytes <$> Message.ciphertext m)) as [-> ->].
  destruct m as [[h|] [[c]|] d]; cbn; by rewrite ?header_fromBytes_toBytes.
Qed.

(** An envelope of the expected shape is decoded from its encoding. *)
Lemma fromBytes_toBytes (e : Message.t) :
  Message.wellFormed e = true ->
  Message.fromBytes (Message.toBytes e) = Returned (Message.strip e).
Proof.
  intros Hwf. unfold Message.fromBytes. rewrite parse_toBytes.
  change (Message.wellFormed (Message.strip e)) with (Message.wellFormed e).
  by rewrite Hwf.
Qed.

(** C6. Round trip of the envelope codec: an envelope of the expected shape
    (header with both bundles, ciphertext), once its local plaintext is
    stripped, is decoded from its encoding as itself; and the encoding of an
    envelope is that of the stripped envelope, so the plaintext is never on
    the wire. *)
Theorem envelope_round_trip (e : Message.t) :
  Message.wellFormed e = true ->
  Message.fromBytes (Message.toBytes (Message.strip e)) = Returned (Message.strip e)
  /\ Message.toBytes e = Message.toBytes (Message.strip e).
Proof.
  intros Hwf. split; [|done].
  change (Message.strip e) with (Message.strip (Message.strip e)) at 2.
  by apply fromBytes_toBytes.
Qed.

Lemma envelope_round_trip_witness :
  Message.wellFormed (Demo.envelope (Some "hello")) = true
  /\ Message.fromBytes (Message.toBytes (Message.strip (Demo.envelope (Some "hello"))))
     = Returned (Message.strip (Demo.envelope (Some "hello")))
  /\ Message.toBytes (Demo.envelope (Some "hello"))
     = Message.toBytes (Message.strip (Demo.envelope (Some "hello"))).
Proof.
  split; [reflexivity|].
  apply (envelope_round_trip (Demo.envelope (Some "hello"))). reflexivity.
Defined.

(** What [sendMessage] publishes under this codec: [decrypted] is set on the
    message before [toBytes] is called (line 107), and still the payload is
    the encoding of the envelope without it. *)
Lemma sendMessage_payload `{Externals} (sender : PrivateKeyBundle.t)
    (recipient : KeyBundle.t) (msgString : string) (w : World)
    (ik : PublicKey) (c : Ciphertext) :
  Message_toBytes = Message.toBytes ->
  KeyBundle.identityKey recipient = Some ik ->
  encrypt sender (TextEncoder_encode msgString) recipient = Some c ->
  let envelope :=
    {| Message.header :=
         Some {| Message.sender := Some (getKeyBundle sender);
                 Message.recipient := Some recipient |};
       Message.ciphertext := Some c;
       Message.decrypted := None |} in
  exists wakuMsg,
    calls (sendMessage sender recipient msgString w).2 = calls w ++ [RelaySend wakuMsg]
    /\ payload wakuMsg = Some (Message.toBytes envelope)
    /\ Message.fromBytes (Message.toBytes envelope) = Returned envelope.
Proof.
  intros Hcodec Hik Hc envelope. unfold sendMessage, relay_send.
  rewrite Hik, Hc, Hcodec. eexists. split; [by destruct (relay_accepts _)|].
  split; [done|]. by apply (fromBytes_toBytes envelope).
Qed.

End CodecFacts.

(** ** Topic deriver *)

Module TopicFacts.
Import Topic.

Lemma append_length (a b : string) :
  String.length (a +:+ b) = String.length a + String.length b.
Proof. induction a as [|c a IH]; simpl; [done | by f_equal]. Qed.

Lemma append_cancel_r (a b s : string) : a +:+ s = b +:+ s -> a = b.
Proof.
  revert b. induction a as [|c a IH]; intros [|c' b] Heq; simpl in Heq.
  - done.
  - apply (f_equal String.length) in Heq.
    rewrite ?append_length in Heq. simpl in Heq.
    rewrite ?append_length in Heq. lia.
  - apply (f_equal String.length) in Heq.
    rewrite ?append_length in Heq. simpl in Heq.
    rewrite ?append_length in Heq. lia.
  - injection Heq as -> Heq. f_equal. by apply IH.
Qed.

(** Distinct identifiers have distinct topics. *)
Lemma buildContentTopic_inj (a b : string) :
  buildContentTopic a = buildContentTopic b -> a = b.
Proof.
  unfold buildContentTopic. intros Heq.
  apply (inj (String.app "/xmtp/0/")) in Heq.
  by apply append_cancel_r in Heq.
Qed.

(** C7, as the specification states it, fails on the code: the empty
    identifier is not rejected, it has the topic "/xmtp/0//proto". *)
Lemma buildContentTopic_accepts_empty :
  Some (buildContentTopic "") <> Spec.deriveTopic ""
  /\ buildContentTopic "" = "/xmtp/0//proto".
Proof. split; [discriminate | reflexivity]. Qed.

(** C7, amended. [buildContentTopic] is a total function of the identifier
    alone, with value "/xmtp/0/<identifier>/proto"; it has no failure mode:
    on every non-empty identifier it gives what the specified deriver gives,
    and on the empty identifier it gives "/xmtp/0//proto". *)
Theorem buildContentTopic_total (name : string) :
  buildContentTopic name = "/xmtp/0/" +:+ name +:+ "/proto"
  /\ (name = "" \/ Spec.deriveTopic name = Some (buildContentTopic name))
  /\ (forall name', buildContentTopic name = buildContentTopic name' <-> name = name').
Proof.
  split; [reflexivity|]. split.
  - unfold Spec.deriveTopic. destruct (decide (name = "")); [by left | by right].
  - intros name'. split; [apply buildContentTopic_inj | by intros ->].
Qed.

End TopicFacts.

(** ** The observer registry and the stream promise *)

Section StreamFacts.
Context `{Externals}.

Lemma set_add_fresh (f : Fn) (s : list Fn) :
  Forall (fun g => fn_id g <> fn_id f) s -> set_add f s = s ++ [f].
Proof.
  intros Hs. unfold set_add.
  replace (existsb (same_fn f) s) with false; [done|].
  symmetry. induction Hs as [|g s Hg _ IH]; [done|].
  cbn. rewrite IH, orb_false_r. unfold same_fn.
  apply Nat.eqb_neq. congruence.
Qed.

Lemma set_delete_fresh (f : Fn) (s : list Fn) :
  Forall (fun g => fn_id g <> fn_id f) s -> set_delete f s = s.
Proof.
  unfold set_delete. induction 1 as [|g s Hg _ IH]; [done|].
  cbn. rewrite IH. unfold same_fn.
  destruct (Nat.eqb_spec (fn_id f) (fn_id g)); [congruence | done].
Qed.

(** The three ways [openEnvelope] ends. *)
Lemma openEnvelope_undecodable (r : PrivateKeyBundle.t) (pl : bytes) :
  Message_fromBytes pl = None -> openEnvelope r pl = Thrown MalformedEnvelope.
Proof. unfold openEnvelope. by intros ->. Qed.

Lemma openEnvelope_undecrypted (r : PrivateKeyBundle.t) (pl : bytes) (msg : Message.t) :
  Message_fromBytes pl = Some msg ->
  Message.ciphertext msg = None \/ Message.header msg ≫= Message.sender = None ->
  openEnvelope r pl = Returned msg.
Proof.
  unfold openEnvelope. intros -> [-> | ->]; [done|].
  by destruct (Message.ciphertext msg).
Qed.

Lemma openEnvelope_decrypted (r : PrivateKeyBundle.t) (pl : bytes) (msg : Message.t)
    (c : Ciphertext) (s : KeyBundle.t) :
  Message_fromBytes pl = Some msg ->
  Message.ciphertext msg = Some c ->
  Message.header msg ≫= Message.sender = Some s ->
  openEnvelope r pl
  = match decrypt r c s with
    | Some plain => Returned (Message.setDecrypted (TextDecoder_decode plain) msg)
    | None => Thrown DecryptionError
    end.
Proof. unfold openEnvelope. by intros -> -> ->. Qed.

(** A call leaves the registry, the allocator and the promise count alone. *)
Lemma call_frame (f : Fn) (m : WakuMessage) (w : World) :
  observers (call f m w) = observers w
  /\ next_fn (call f m w) = next_fn w
  /\ length (promises (call f m w)) = length (promises w)
  /\ calls (call f m w) = calls w
  /\ heap (call f m w) = heap w.
Proof.
  unfold call. repeat case_match; cbn; rewrite ?length_alter; done.
Qed.

Lemma call_all_frame (fs : list Fn) (m : WakuMessage) (w : World) :
  observers (call_all fs m w) = observers w
  /\ next_fn (call_all fs m w) = next_fn w
  /\ length (promises (call_all fs m w)) = length (promises w)
  /\ calls (call_all fs m w) = calls w
  /\ heap (call_all fs m w) = heap w.
Proof.
  unfold call_all. revert w. induction fs as [|f fs IH]; intros w; [done|].
  cbn [foldl]. destruct (IH (call f m w)) as (-> & -> & -> & -> & ->).
  apply call_frame.
Qed.

Lemma relay_deliver_frame (w : World) (m : WakuMessage) :
  observers (relay_deliver w m) = observers w
  /\ next_fn (relay_deliver w m) = next_fn w
  /\ length (promises (relay_deliver w m)) = length (promises w)
  /\ calls (relay_deliver w m) = calls w
  /\ heap (relay_deliver w m) = heap w.
Proof.
  unfold relay_deliver.
  set (w1 := call_all (default [] (observers w !! "")) m w).
  destruct (call_all_frame (default [] (observers w !! "")) m w)
    as (Ho & Hn & Hp & Hc & Hh). fold w1 in Ho, Hn, Hp, Hc, Hh.
  destruct (contentTopic m) as [t|]; [|done].
  destruct (decide (t = "")); [done|].
  destruct (call_all_frame (default [] (observers w1 !! t)) m w1)
    as (-> & -> & -> & -> & ->). done.
Qed.

(** A call settles no promise but the one its closure holds. *)
Lemma call_promise_other (f : Fn) (m : WakuMessage) (w : World) (p : nat) :
  refers p f = false -> promises (call f m w) !! p = promises w !! p.
Proof.
  unfold refers, call. destruct (fn_body f) as [r q|]; [|done].
  intros Hq%Nat.eqb_neq. repeat case_match; cbn; try done.
  by apply list_lookup_alter_ne.
Qed.

Lemma call_promise_own (f : Fn) (m : WakuMessage) (w : World)
    (r : PrivateKeyBundle.t) (p : nat) :
  fn_body f = StreamObserver r p ->
  promises (call f m w) !! p = observe r m <$> promises w !! p.
Proof.
  unfold call, observe. intros ->.
  destruct (payload m) as [pl|]; [|by destruct (promises w !! p)].
  destruct (openEnvelope r pl); cbn.
  - apply list_lookup_alter_eq.
  - by destruct (promises w !! p).
Qed.

Lemma call_all_promise_other (fs : list Fn) (m : WakuMessage) (w : World) (p : nat) :
  Forall (fun g => refers p g = false) fs ->
  promises (call_all fs m w) !! p = promises w !! p.
Proof.
  unfold call_all. intros Hfs. revert w.
  induction Hfs as [|f fs Hf _ IH]; intros w; [done|].
  cbn [foldl]. rewrite IH. by apply call_promise_other.
Qed.

(** One delivery, seen from a subscription. *)
Lemma relay_deliver_subscribed (r : PrivateKeyBundle.t) (t : string) (p : nat)
    (w : World) (m : WakuMessage) :
  subscribed r t p w ->
  subscribed r t p (relay_deliver w m)
  /\ promises (relay_deliver w m) !! p = (fun st => observeOn r t st m) <$> promises w !! p.
Proof.
  intros Hsub. split.
  { unfold subscribed. by destruct (relay_deliver_frame w m) as (-> & _). }
  destruct Hsub as (Ht & (fs & f & Hfs & Hf & Hother) & Hrest).
  assert (Hall : Forall (fun g => refers p g = false) (default [] (observers w !! ""))).
  { destruct (observers w !! "") as [gs|] eqn:E; [|by constructor].
    by apply (Hrest "" gs). }
  unfold relay_deliver.
  set (w1 := call_all (default [] (observers w !! "")) m w).
  assert (Hw1 : promises w1 !! p = promises w !! p)
    by by apply call_all_promise_other.
  assert (Ho1 : observers w1 = observers w) by apply call_all_frame.
  assert (Hskip : contentTopic m <> Some t ->
            promises w !! p = (fun st => observeOn r t st m) <$> promises w !! p).
  { intros Hne. destruct (promises w !! p) as [st|]; [|done]. cbn.
    unfold observeOn. by rewrite decide_False. }
  destruct (contentTopic m) as [t'|] eqn:Hct.
  - destruct (decide (t' = "")) as [->|Ht'].
    { rewrite Hw1. apply Hskip. congruence. }
    rewrite Ho1.
    destruct (decide (t' = t)) as [->|Hne].
    + rewrite Hfs. cbn [from_option id]. unfold call_all. rewrite foldl_snoc.
      rewrite (call_promise_own _ _ _ r p Hf).
      fold (call_all fs m w1). rewrite call_all_promise_other by done.
      rewrite Hw1. destruct (promises w !! p) as [st|]; [|done]. cbn.
      unfold observeOn. by rewrite Hct, decide_True.
    + rewrite call_all_promise_other, Hw1; [apply Hskip; congruence|].
      destruct (observers w !! t') as [gs|] eqn:E; [|by constructor].
      by apply (Hrest t' gs).
  - rewrite Hw1. by apply Hskip.
Qed.

(** Any number of deliveries, none of them overtaken. *)
Lemma deliveries_subscribed (r : PrivateKeyBundle.t) (t : string) (p : nat)
    (ms : list WakuMessage) (w : World) :
  subscribed r t p w ->
  subscribed r t p (foldl relay_deliver w ms)
  /\ promises (foldl relay_deliver w ms) !! p
     = (fun st => foldl (observeOn r t) st ms) <$> promises w !! p.
Proof.
  revert w. induction ms as [|m ms IH]; intros w Hsub.
  - split; [done|]. cbn. by destruct (promises w !! p).
  - cbn [foldl]. destruct (relay_deliver_subscribed r t p w m Hsub) as [Hsub' Hp].
    destruct (IH _ Hsub') as [Hsub'' Hp'].
    split; [done|]. rewrite Hp', Hp. by destruct (promises w !! p).
Qed.

(** Once fulfilled, the promise of a stream keeps its value. *)
Lemma observeOn_fulfilled (r : PrivateKeyBundle.t) (t : string)
    (l : list Message.t) (ms : list WakuMessage) :
  foldl (observeOn r t) (Fulfilled l) ms = Fulfilled l.
Proof.
  induction ms as [|m ms IH]; [done|]. cbn [foldl].
  replace (observeOn r t (Fulfilled l) m) with (Fulfilled l (A := list Message.t));
    [done|].
  unfold observeOn, observe. repeat case_match; done.
Qed.

End StreamFacts.

(** ** Subscribing and cancelling *)

Section SubscriptionFacts.
Context `{Externals}.

Lemma allocated_mono (w w' : World) (g : Fn) :
  next_fn w <= next_fn w' ->
  length (promises w) <= length (promises w') ->
  allocated w g -> allocated w' g.
Proof.
  unfold allocated. intros Hn Hp [Hid Hbody]. split; [lia|].
  destruct (fn_body g); [lia | done].
Qed.

(** Well-formedness looks at the registry, the allocator and the number of
    promises only. *)
Lemma wf_frame (w w' : World) :
  observers w' = observers w ->
  next_fn w <= next_fn w' ->
  length (promises w) <= length (promises w') ->
  wf w -> wf w'.
Proof.
  intros Ho Hn Hp Hwf. unfold wf. rewrite Ho.
  eapply map_Forall_impl; [exact Hwf|]. intros t gs Hgs. cbn in Hgs.
  eapply Forall_impl; [exact Hgs|]. intros g. by apply allocated_mono.
Qed.

Lemma wf_registered (w : World) (t : string) :
  wf w -> Forall (allocated w) (default [] (observers w !! t)).
Proof.
  intros Hwf. destruct (observers w !! t) as [fs|] eqn:E; [|by constructor].
  exact (Hwf t fs E).
Qed.

Lemma topicOf_nonempty (k : PrivateKey) : topicOf k <> "".
Proof. unfold topicOf, Topic.buildContentTopic. discriminate. Qed.

(** [streamMessages] on a bundle with an identity key: a pending promise, an
    observer appended under the topic of the key, one [AddObserver] call. *)
Lemma streamMessages_subscribes (r : PrivateKeyBundle.t) (k : PrivateKey) (w : World) :
  PrivateKeyBundle.identityKey r = Some k ->
  wf w ->
  exists s w1,
    streamMessages r w = (Returned s, w1)
    /\ stream s = length (promises w)
    /\ stream_close s = close (topicOf k)
    /\ promises w1 !! stream s = Some Pending
    /\ calls w1 = calls w ++ [AddObserver (next_fn w) [topicOf k]]
    /\ subscribed r (topicOf k) (stream s) w1
    /\ wf w1.
Proof.
  intros Hk Hwf. unfold streamMessages. rewrite Hk. cbn.
  fold (topicOf k). eexists _, _. split; [reflexivity|]. cbn.
  pose proof (wf_registered w (topicOf k) Hwf) as Hold.
  set (f := {| fn_id := next_fn w;
               fn_body := StreamObserver r (length (promises w)) |}).
  assert (Hadd : observers_add f (observers w) (topicOf k)
                 = <[topicOf k := default [] (observers w !! topicOf k) ++ [f]]>
                     (observers w)).
  { unfold observers_add. rewrite set_add_fresh; [done|].
    eapply Forall_impl; [exact Hold|]. intros g [Hg _]. cbn. lia. }
  set (w1 := relay_addObserver f [topicOf k] _).
  assert (Hobs : observers w1
                 = <[topicOf k := default [] (observers w !! topicOf k) ++ [f]]>
                     (observers w)) by exact Hadd.
  assert (Hmono : forall g, allocated w g -> allocated w1 g).
  { intros g. apply allocated_mono; cbn; rewrite ?length_app; lia. }
  assert (Hnot : forall g, allocated w g -> refers (length (promises w)) g = false).
  { intros g [_ Hg]. unfold refers. destruct (fn_body g); [|done].
    apply Nat.eqb_neq. lia. }
  split; [done|]. split; [done|]. split; [by rewrite list_lookup_middle|].
  split; [done|]. split.
  - unfold subscribed. rewrite Hobs. split; [apply topicOf_nonempty|]. split.
    + exists (default [] (observers w !! topicOf k)), f.
      rewrite lookup_insert_eq. repeat split.
      eapply Forall_impl; [exact Hold | exact Hnot].
    + intros t' gs Ht' Hgs. rewrite lookup_insert_ne in Hgs by done.
      eapply Forall_impl; [exact (Hwf t' gs Hgs) | exact Hnot].
  - unfold wf. rewrite Hobs. apply map_Forall_insert_2.
    + apply Forall_app. split.
      * eapply Forall_impl; [exact Hold | exact Hmono].
      * repeat constructor; cbn; rewrite ?length_app; cbn; lia.
    + eapply map_Forall_impl; [exact Hwf|]. intros t' gs Hgs. cbn in Hgs.
      eapply Forall_impl; [exact Hgs | exact Hmono].
Qed.

(** The handle hands [deleteObserver] a function object made on the spot,
    which the registry has never seen: the registry stays as it is, and the
    call returns normally. *)
Lemma close_keeps_registry (t : string) (w : World) :
  wf w ->
  (close t w).1 = Returned tt
  /\ observers (close t w).2 = observers w
  /\ promises (close t w).2 = promises w
  /\ calls (close t w).2 = calls w ++ [DeleteObserver (next_fn w) [t]]
  /\ wf (close t w).2.
Proof.
  intros Hwf. unfold close. cbn.
  assert (Hobs : observers_delete {| fn_id := next_fn w; fn_body := EmptyFn |}
                   (observers w) t = observers w).
  { unfold observers_delete. destruct (observers w !! t) as [s|] eqn:E; [|done].
    rewrite set_delete_fresh; [by apply insert_id|].
    eapply Forall_impl; [exact (Hwf t s E)|]. intros g [Hg _]. cbn. lia. }
  set (w2 := relay_deleteObserver _ [t] _).
  assert (Ho : observers w2 = observers w) by exact Hobs.
  split; [done|]. split; [exact Ho|]. split; [done|]. split; [done|].
  apply (wf_frame w); [exact Ho | cbn; lia | done | done].
Qed.

Lemma relay_deliver_wf (w : World) (m : WakuMessage) : wf w -> wf (relay_deliver w m).
Proof.
  intros Hwf. destruct (relay_deliver_frame w m) as (Ho & Hn & Hp & _).
  apply (wf_frame w); [done | lia | lia | done].
Qed.

(** A subscription outlives its cancellation handle: after [close], the
    observer is where it was and the next deliveries reach the promise. *)
Lemma close_keeps_subscription (r : PrivateKeyBundle.t) (t t' : string) (p : nat)
    (w : World) (ms : list WakuMessage) :
  wf w ->
  subscribed r t p w ->
  subscribed r t p (close t' w).2
  /\ promises (foldl relay_deliver (close t' w).2 ms) !! p
     = (fun st => foldl (observeOn r t) st ms) <$> promises w !! p.
Proof.
  intros Hwf Hsub.
  destruct (close_keeps_registry t' w Hwf) as (_ & Ho & Hp & _).
  assert (Hsub' : subscribed r t p (close t' w).2).
  { unfold subscribed. by rewrite Ho. }
  split; [done|].
  destruct (deliveries_subscribed r t p ms _ Hsub') as [_ ->]. by rewrite Hp.
Qed.

End SubscriptionFacts.

(** ** Streaming *)

Module StreamClaims.

Lemma wf_world0 : wf Demo.world0.
Proof. apply map_Forall_empty. Qed.

(** C1, as the specification states it, fails on the code.  An envelope
    that decodes but has no ciphertext is yielded (the specification drops
    it); of two valid messages only the first is ever yielded (the
    specification goes on to deliver the second); once a host that ends the
    process on an unhandled rejection has done so, a valid message that
    follows the undecodable payload is not yielded (the specification yields
    it); and a
    message that waits for its decryption is overtaken by a later one that
    needs none (the specification yields the earlier one first). *)
Lemma stream_yields_bare_envelope :
  exists s w1,
    streamMessages (H := Demo.externals) Demo.alice Demo.world0 = (Returned s, w1)
    /\ yielded (stream s) (foldl (relay_deliver (H := Demo.externals)) w1 [Demo.bare])
       = [Demo.envelope None]
    /\ Spec.stream (H := Demo.externals) Demo.alice [Demo.bare] = []
    /\ length (yielded (stream s)
         (foldl (relay_deliver (H := Demo.externals)) w1 [Demo.hello; Demo.again])) = 1
    /\ length (Spec.stream (H := Demo.externals) Demo.alice [Demo.hello; Demo.again]) = 2
    /\ yielded (stream s)
         (world (foldl (advance (H := Demo.externals) Throw) (started w1 [])
                   [Does (Deliver Demo.garbled); Ends;
                    Does (Deliver Demo.hello); Settles 0]))
       = []
    /\ Spec.stream (H := Demo.externals) Demo.alice [Demo.garbled; Demo.hello]
       = [Message.setDecrypted "hello" (Demo.envelope (Some "hello"))]
    /\ yielded (stream s)
         (world (foldl (advance (H := Demo.externals) Warn) (started w1 [])
                   [Does (Deliver Demo.hello); Does (Deliver Demo.bare); Settles 0]))
       = [Demo.envelope None]
    /\ Spec.stream (H := Demo.externals) Demo.alice [Demo.hello; Demo.bare]
       = [Message.setDecrypted "hello" (Demo.envelope (Some "hello"))].
Proof.
  eexists _, _. split; [reflexivity|]. repeat split; vm_compute; reflexivity.
Qed.

#[local] Existing Instance Demo.externals.

(** C2 on the code.  After [streamMessages], calling the cancellation handle
    once or twice returns normally, but it asks the relay to delete a
    function object made on the spot, so the registered observer stays: the
    registry after cancelling is the registry before, and a message delivered
    after the cancellation is still yielded. *)
Theorem close_leaves_observer_registered :
  exists s w1 w2 w3,
    streamMessages (H := Demo.externals) Demo.alice Demo.world0 = (Returned s, w1)
    /\ stream_close s w1 = (Returned tt, w2)
    /\ stream_close s w2 = (Returned tt, w3)
    /\ calls w3 = [AddObserver 0 [Demo.aliceTopic];
                   DeleteObserver 1 [Demo.aliceTopic];
                   DeleteObserver 2 [Demo.aliceTopic]]
    /\ observers w2 = observers w1
    /\ observers w3 = observers w1
    /\ observers w1 !! Demo.aliceTopic
       = Some [{| fn_id := 0; fn_body := StreamObserver Demo.alice (stream s) |}]
    /\ yielded (stream s) w3 = []
    /\ yielded (stream s) (relay_deliver (H := Demo.externals) w3 Demo.hello)
       = [Message.setDecrypted "hello" (Demo.envelope (Some "hello"))].
Proof.
  eexists _, _, _, _.
  split; [reflexivity|]. split; [reflexivity|]. split; [reflexivity|].
  repeat split; vm_compute; reflexivity.
Qed.

End StreamClaims.

(** ** Listing *)

Section ListFacts.
Context `{Externals}.

Lemma deref_lookup (o : nat) (x : ListMessagesOptions) (w : World) :
  heap w !! o = Some x -> deref o w = x.
Proof. unfold deref. by intros ->. Qed.

(** An assignment to a field of the object [o] points to. *)
Lemma assign_spec (f : ListMessagesOptions -> ListMessagesOptions) (o : nat)
    (x : ListMessagesOptions) (w : World) :
  heap w !! o = Some x ->
  heap (set_heap (alter f o) w) !! o = Some (f x)
  /\ forall o', o' <> o -> heap (set_heap (alter f o) w) !! o' = heap w !! o'.
Proof.
  intros Hx. cbn. split.
  - by rewrite list_lookup_alter_eq, Hx.
  - intros o' Ho'. by apply list_lookup_alter_ne.
Qed.

(** The defaults are written into the object [o] points to; nothing else in
    the world changes. *)
Lemma applyDefaults_spec (o : nat) (x : ListMessagesOptions) (w : World) :
  heap w !! o = Some x ->
  heap (applyDefaults o w) !! o = Some (withDefaults (clock w) x)
  /\ (forall o', o' <> o -> heap (applyDefaults o w) !! o' = heap w !! o')
  /\ calls (applyDefaults o w) = calls w
  /\ clock (applyDefaults o w) = clock w
  /\ observers (applyDefaults o w) = observers w
  /\ promises (applyDefaults o w) = promises w.
Proof.
  intros Hx. unfold applyDefaults.
  (* opts.startTime *)
  set (w1 := if falsyDate (startTime (deref o w)) then _ else w).
  assert (H1 : heap w1 !! o
               = Some {| pageSize := pageSize x;
                         startTime := startTime (withDefaults (clock w) x);
                         endTime := endTime x |}
               /\ (forall o', o' <> o -> heap w1 !! o' = heap w !! o')
               /\ calls w1 = calls w /\ clock w1 = clock w
               /\ observers w1 = observers w /\ promises w1 = promises w).
  { subst w1. rewrite (deref_lookup o x w Hx). cbn [withDefaults startTime].
    destruct (falsyDate (startTime x)) eqn:E.
    - destruct (assign_spec (fun y => {| pageSize := pageSize y;
          startTime := Some (clock w - sevenDays)%Z; endTime := endTime y |})
          o x w Hx) as [Ha Hb].
      unfold write_startTime. by rewrite Ha.
    - split; [|done]. rewrite Hx. by destruct x. }
  destruct H1 as (Hx1 & Hf1 & Hc1 & Hk1 & Ho1 & Hp1). clearbody w1.
  (* opts.endTime *)
  set (w2 := if falsyDate (endTime (deref o w1)) then _ else w1).
  assert (H2 : heap w2 !! o
               = Some {| pageSize := pageSize x;
                         startTime := startTime (withDefaults (clock w) x);
                         endTime := endTime (withDefaults (clock w) x) |}
               /\ (forall o', o' <> o -> heap w2 !! o' = heap w !! o')
               /\ calls w2 = calls w /\ clock w2 = clock w
               /\ observers w2 = observers w /\ promises w2 = promises w).
  { subst w2. rewrite (deref_lookup o _ w1 Hx1).
    cbn [withDefaults startTime endTime].
    destruct (falsyDate (endTime x)) eqn:E.
    - destruct (assign_spec (fun y => {| pageSize := pageSize y;
          startTime := startTime y;
          endTime := Some (Date_ofUTCString (clock w1)) |})
          o _ w1 Hx1) as [Ha Hb].
      unfold write_endTime.
      split; [by rewrite Ha, Hk1|].
      split; [intros o' Ho'; by rewrite Hb, Hf1 | done].
    - done. }
  destruct H2 as (Hx2 & Hf2 & Hc2 & Hk2 & Ho2 & Hp2). clearbody w2.
  (* opts.pageSize *)
  rewrite (deref_lookup o _ w2 Hx2). cbn [pageSize].
  destruct (falsyNumber (pageSize x)) eqn:E.
  - destruct (assign_spec (fun y => {| pageSize := Some 10%Z;
        startTime := startTime y; endTime := endTime y |})
        o _ w2 Hx2) as [Ha Hb].
    unfold write_pageSize.
    split; [rewrite Ha; unfold withDefaults; by rewrite E|].
    split; [intros o' Ho'; by rewrite Hb, Hf2 | done].
  - split; [|done]. rewrite Hx2. unfold withDefaults. by rewrite E.
Qed.

Lemma ensureOptions_fresh (w : World) :
  heap (ensureOptions None w).2 !! (ensureOptions None w).1 = Some emptyOptions
  /\ calls (ensureOptions None w).2 = calls w
  /\ clock (ensureOptions None w).2 = clock w.
Proof. cbn. by rewrite list_lookup_middle. Qed.

(** Whatever its outcome, [listMessages] leaves the heap as [applyDefaults]
    made it. *)
Lemma listMessages_heap (r : PrivateKeyBundle.t) (opts : option nat) (w : World) :
  heap (listMessages r opts w).2
  = heap (applyDefaults (ensureOptions opts w).1 (ensureOptions opts w).2).
Proof.
  unfold listMessages. destruct (ensureOptions opts w) as [o w0]. cbn [fst snd].
  destruct (PrivateKeyBundle.identityKey r); [|done].
  unfold store_queryHistory. by destruct (store_answers _).
Qed.

(** With an identity key, [listMessages] makes one transport call, the
    history query built from the options after the defaults. *)
Lemma listMessages_calls (r : PrivateKeyBundle.t) (k : PrivateKey)
    (opts : option nat) (w : World) :
  PrivateKeyBundle.identityKey r = Some k ->
  let o := (ensureOptions opts w).1 in
  let w0 := (ensureOptions opts w).2 in
  let q := historyQuery (topicOf k) (deref o (applyDefaults o w0)) in
  calls (listMessages r opts w).2 = calls (applyDefaults o w0) ++ [QueryHistory q]
  /\ (listMessages r opts w).1
     = match store_answers q with
       | Some wakuMsgs =>
           Promise_all (map (fun pl => async (openEnvelope r pl)) (payloads wakuMsgs))
       | None => Rejected TransportError
       end.
Proof.
  intros Hk. unfold listMessages. destruct (ensureOptions opts w) as [o w0].
  cbn [fst snd]. rewrite Hk. fold (topicOf k).
  unfold store_queryHistory. by destruct (store_answers _).
Qed.

(** The defaults touch no transport. *)
Lemma defaults_calls (opts : option nat) (w : World) :
  calls (applyDefaults (ensureOptions opts w).1 (ensureOptions opts w).2) = calls w.
Proof.
  destruct opts as [o|]; cbn [ensureOptions fst snd];
    unfold applyDefaults; by repeat case_match.
Qed.

Lemma Promise_all_rejected {A} (ps : list (Promise A)) (e : Error) :
  In (Rejected e) ps -> exists e', Promise_all ps = Rejected e'.
Proof.
  induction ps as [|p ps IH]; [done|]. intros [->|Hin]; cbn [Promise_all].
  - by exists e.
  - destruct (IH Hin) as [e' ->]. destruct p; by eexists.
Qed.

End ListFacts.

(** ** Every world a client reaches is well formed *)

Section RunFacts.
Context `{Externals}.

Lemma sendMessage_frame (sender : PrivateKeyBundle.t) (recipient : KeyBundle.t)
    (msgString : string) (w : World) :
  observers (sendMessage sender recipient msgString w).2 = observers w
  /\ next_fn (sendMessage sender recipient msgString w).2 = next_fn w
  /\ promises (sendMessage sender recipient msgString w).2 = promises w.
Proof.
  unfold sendMessage, relay_send. by repeat case_match.
Qed.

Lemma listMessages_frame (r : PrivateKeyBundle.t) (opts : option nat) (w : World) :
  observers (listMessages r opts w).2 = observers w
  /\ next_fn (listMessages r opts w).2 = next_fn w
  /\ promises (listMessages r opts w).2 = promises w.
Proof.
  assert (Hdefaults : forall o w0,
            observers (applyDefaults o w0) = observers w0
            /\ next_fn (applyDefaults o w0) = next_fn w0
            /\ promises (applyDefaults o w0) = promises w0).
  { intros o w0. unfold applyDefaults. by repeat case_match. }
  unfold listMessages. destruct (ensureOptions opts w) as [o w0] eqn:E.
  assert (Hw0 : observers w0 = observers w /\ next_fn w0 = next_fn w
                /\ promises w0 = promises w).
  { destruct opts; unfold ensureOptions, new_options in E; by simplify_eq. }
  destruct (Hdefaults o w0) as (Ho & Hn & Hp), Hw0 as (Ho' & Hn' & Hp').
  destruct (PrivateKeyBundle.identityKey r); cbn [snd]; [|by rewrite Ho, Hn, Hp].
  unfold store_queryHistory.
  destruct (store_answers _); cbn; by rewrite Ho, Hn, Hp.
Qed.

Lemma run_wf (w : World) (a : Action) : wf w -> wf (run w a).
Proof.
  intros Hwf. destruct a as [sender recipient msgString | r | t | r opts | x | m | now];
    cbn [run].
  - destruct (sendMessage_frame sender recipient msgString w) as (Ho & Hn & Hp).
    apply (wf_frame w); [done | lia | by rewrite Hp | done].
  - destruct (PrivateKeyBundle.identityKey r) as [k|] eqn:Hk.
    + destruct (streamMessages_subscribes r k w Hk Hwf)
        as (s & w1 & -> & _ & _ & _ & _ & _ & Hwf1). exact Hwf1.
    + unfold streamMessages. by rewrite Hk.
  - by apply close_keeps_registry.
  - destruct (listMessages_frame r opts w) as (Ho & Hn & Hp).
    apply (wf_frame w); [done | lia | by rewrite Hp | done].
  - by apply (wf_frame w).
  - by apply relay_deliver_wf.
  - by apply (wf_frame w).
Qed.

(** The hypothesis [wf] of the statements about subscriptions holds of every
    world a new client gets into. *)
Lemma runs_wf (now : Z) (actions : list Action) :
  wf (foldl run (newClient now) actions).
Proof.
  assert (Hstart : wf (newClient now)) by apply map_Forall_empty.
  revert Hstart. generalize (newClient now).
  induction actions as [|a actions IH]; intros w Hwf; [done|].
  cbn [foldl]. by apply IH, run_wf.
Qed.

End RunFacts.

(** ** Send, stream and list: the claims *)

Module ClientClaims.

Section Claims.
Context `{Externals}.

(** C3. The sender derives the topic from the identity key of the
    recipient's public bundle, the recipient from the public key of its own
    private identity key: for one and the same identity the message is
    published on the very topic that the stream observes and the list
    queries.  Keys with identical address identifiers have identical
    topics. *)
Theorem topics_agree (sender r : PrivateKeyBundle.t) (k : PrivateKey)
    (kb : KeyBundle.t) (msgString : string) (c : Ciphertext)
    (opts : option nat) (w : World) :
  PrivateKeyBundle.identityKey r = Some k ->
  KeyBundle.identityKey kb = Some (getPublicKey k) ->
  encrypt sender (TextEncoder_encode msgString) kb = Some c ->
  (exists wakuMsg,
     calls (sendMessage sender kb msgString w).2 = calls w ++ [RelaySend wakuMsg]
     /\ contentTopic wakuMsg = Some (topicOf k))
  /\ (exists s w1,
        streamMessages r w = (Returned s, w1)
        /\ calls w1 = calls w ++ [AddObserver (next_fn w) [topicOf k]])
  /\ (exists q,
        calls (listMessages r opts w).2 = calls w ++ [QueryHistory q]
        /\ contentTopics q = [topicOf k])
  /\ (forall k',
        getEthereumAddress (getPublicKey k') = getEthereumAddress (getPublicKey k) ->
        topicOf k' = topicOf k).
Proof.
  intros Hk Hkb Hc. split; [|split; [|split]].
  - unfold sendMessage. rewrite Hkb, Hc. unfold relay_send.
    eexists. split; [by destruct (relay_accepts _)|]. done.
  - unfold streamMessages. rewrite Hk. cbn. by eexists _, _.
  - destruct (listMessages_calls r k opts w Hk) as [Hcalls _].
    cbn zeta in Hcalls. rewrite defaults_calls in Hcalls.
    eexists. split; [exact Hcalls | reflexivity].
  - intros k' Hk'. unfold topicOf. by rewrite Hk'.
Qed.

(** C4. Without an identity key on the recipient, [sendMessage] rejects and
    [streamMessages] throws, both with the missing-recipient error, and the
    world is as before: nothing was published, nothing subscribed.  The
    failure of [streamMessages] is a synchronous completion, not a
    promise. *)
Theorem missing_recipient_fails_first (sender r : PrivateKeyBundle.t)
    (recipient : KeyBundle.t) (msgString : string) (w : World) :
  KeyBundle.identityKey recipient = None ->
  PrivateKeyBundle.identityKey r = None ->
  sendMessage sender recipient msgString w = (Rejected MissingRecipient, w)
  /\ streamMessages r w = (Thrown MissingRecipient, w).
Proof.
  intros Hrecipient Hr. unfold sendMessage, streamMessages.
  by rewrite Hrecipient, Hr.
Qed.

(** C5, amended.  With no options, [listMessages] queries the store once,
    in forward order, with page size 10, from seven days before now up to
    now rounded down to a whole second (less than a second before now); with
    an options object, each option left unset gets the same default and each
    option set is passed on as it is. *)
Theorem listMessages_defaults (r : PrivateKeyBundle.t) (k : PrivateKey) (w : World) :
  PrivateKeyBundle.identityKey r = Some k ->
  calls (listMessages r None w).2
  = calls w ++ [QueryHistory
      {| contentTopics := [topicOf k];
         q_pageSize := Some 10%Z;
         q_pageDirection := Some FORWARD;
         q_startTime := Some (clock w - 604800000)%Z;
         q_endTime := Some (1000 * (clock w / 1000))%Z |}]
  /\ (clock w - 1000 < 1000 * (clock w / 1000) <= clock w)%Z
  /\ forall o x,
       heap w !! o = Some x ->
       exists q,
         calls (listMessages r (Some o) w).2 = calls w ++ [QueryHistory q]
         /\ contentTopics q = [topicOf k]
         /\ q_pageDirection q = Some FORWARD
         /\ q_startTime q
            = Some (default (clock w - 604800000)%Z (startTime x))
         /\ q_endTime q
            = Some (default (1000 * (clock w / 1000))%Z (endTime x))
         /\ q_pageSize q
            = Some (match pageSize x with
                    | Some n => if Z.eqb n 0 then 10%Z else n
                    | None => 10%Z
                    end).
Proof.
  intros Hk. split; [|split].
  - destruct (listMessages_calls r k None w Hk) as [-> _].
    destruct (ensureOptions_fresh w) as (Hx & Hc & Hclock).
    destruct (applyDefaults_spec _ _ _ Hx) as (Hx' & _ & -> & _).
    rewrite (deref_lookup _ _ _ Hx'), Hc, Hclock. reflexivity.
  - pose proof (Z.div_mod (clock w) 1000 ltac:(lia)).
    pose proof (Z.mod_pos_bound (clock w) 1000 ltac:(lia)). lia.
  - intros o x Hx.
    destruct (listMessages_calls r k (Some o) w Hk) as [-> _].
    cbn [ensureOptions fst snd].
    destruct (applyDefaults_spec _ _ _ Hx) as (Hx' & _ & -> & _).
    rewrite (deref_lookup _ _ _ Hx').
    eexists. split; [reflexivity|]. split; [reflexivity|]. split; [reflexivity|].
    destruct x as [[n|] [st|] [et|]]; cbn; try destruct (Z.eqb n 0); done.
Qed.

(** C8. When the store answered the query of [listMessages] and one of the
    items it returned carries a payload that decodes, has ciphertext and
    sender, and does not decrypt, the whole call rejects: no list of
    messages, partial or not, is returned. *)
Theorem listMessages_rejects_on_decrypt_failure (r : PrivateKeyBundle.t)
    (k : PrivateKey) (opts : option nat) (w : World) (q : HistoryQuery)
    (wakuMsgs : list (option WakuMessage)) (wakuMsg : WakuMessage)
    (pl : bytes) (msg : Message.t) (c : Ciphertext) (s : KeyBundle.t) :
  PrivateKeyBundle.identityKey r = Some k ->
  calls (listMessages r opts w).2 = calls w ++ [QueryHistory q] ->
  store_answers q = Some wakuMsgs ->
  In (Some wakuMsg) wakuMsgs ->
  payload wakuMsg = Some pl ->
  Message_fromBytes pl = Some msg ->
  Message.ciphertext msg = Some c ->
  Message.header msg ≫= Message.sender = Some s ->
  decrypt r c s = None ->
  exists e, (listMessages r opts w).1 = Rejected e.
Proof.
  intros Hk Hcalls Hq Hin Hpl Hmsg Hc Hs Hdec.
  destruct (listMessages_calls r k opts w Hk) as [Hcalls' Hres].
  cbn zeta in Hcalls', Hres.
  rewrite Hcalls', defaults_calls in Hcalls.
  apply app_inv_head in Hcalls. injection Hcalls as Hq'.
  rewrite Hq', Hq in Hres. rewrite Hres.
  apply (Promise_all_rejected _ DecryptionError).
  apply in_map_iff. exists pl. split.
  - unfold openEnvelope. by rewrite Hmsg, Hc, Hs, Hdec.
  - unfold payloads. apply list_elem_of_In, list_elem_of_omap.
    exists (Some wakuMsg). split; [by apply list_elem_of_In | exact Hpl].
Qed.

(** C10. The defaults are assigned to the fields of the object the caller
    passed: after the call that object holds them, so an object that came
    with a field unset is not what it was; no other object is touched. *)
Theorem listMessages_mutates_options (r : PrivateKeyBundle.t) (o : nat)
    (x : ListMessagesOptions) (w : World) :
  heap w !! o = Some x ->
  heap (listMessages r (Some o) w).2 !! o = Some (withDefaults (clock w) x)
  /\ (startTime x = None \/ endTime x = None \/ pageSize x = None ->
      heap (listMessages r (Some o) w).2 !! o <> Some x)
  /\ (forall o', o' <> o -> heap (listMessages r (Some o) w).2 !! o' = heap w !! o').
Proof.
  intros Hx. rewrite listMessages_heap. cbn [ensureOptions fst snd].
  destruct (applyDefaults_spec o x w Hx) as (Hx' & Hframe & _).
  split; [done|]. split; [|done].
  rewrite Hx'. intros Hunset [= Heq].
  destruct x as [ps st et]. cbn in Hunset.
  destruct Hunset as [-> | [-> | ->] ]; discriminate.
Qed.

End Claims.

End ClientClaims.

(** ** The claims at concrete inputs *)

Module ClientExamples.
Import ClientClaims.

#[local] Existing Instance Demo.externals.

Lemma topics_agree_witness :
  (exists wakuMsg,
     calls (sendMessage Demo.bob (Demo.bundleOf Demo.alice) "hello" Demo.world0).2
     = calls Demo.world0 ++ [RelaySend wakuMsg]
     /\ contentTopic wakuMsg = Some (topicOf Demo.aliceKey))
  /\ (exists s w1,
        streamMessages Demo.alice Demo.world0 = (Returned s, w1)
        /\ calls w1
           = calls Demo.world0
             ++ [AddObserver (next_fn Demo.world0) [topicOf Demo.aliceKey]])
  /\ (exists q,
        calls (listMessages Demo.alice None Demo.world0).2
        = calls Demo.world0 ++ [QueryHistory q]
        /\ contentTopics q = [topicOf Demo.aliceKey])
  /\ (forall k',
        getEthereumAddress (getPublicKey k')
        = getEthereumAddress (getPublicKey Demo.aliceKey) ->
        topicOf k' = topicOf Demo.aliceKey).
Proof.
  apply (topics_agree Demo.bob Demo.alice Demo.aliceKey (Demo.bundleOf Demo.alice)
           "hello" {| ciphertextBytes := String.list_byte_of_string "hello" |}
           None Demo.world0); reflexivity.
Defined.

Lemma missing_recipient_fails_first_witness :
  KeyBundle.identityKey (Demo.bundleOf Demo.nobody) = None
  /\ PrivateKeyBundle.identityKey Demo.nobody = None
  /\ sendMessage Demo.bob (Demo.bundleOf Demo.nobody) "hello" Demo.world0
     = (Rejected MissingRecipient, Demo.world0)
  /\ streamMessages Demo.nobody Demo.world0 = (Thrown MissingRecipient, Demo.world0).
Proof.
  split; [reflexivity|]. split; [reflexivity|].
  apply (missing_recipient_fails_first Demo.bob Demo.nobody
           (Demo.bundleOf Demo.nobody) "hello" Demo.world0); reflexivity.
Defined.

(** C5, as the specification states it, fails on the code: at half past a
    second the end of the queried window is the whole second, not now. *)
Lemma listMessages_endTime_before_now :
  exists q,
    calls (listMessages Demo.alice None Demo.world0).2 = [QueryHistory q]
    /\ clock Demo.world0 = 1667389623500%Z
    /\ q_endTime q = Some 1667389623000%Z
    /\ q_endTime q <> Some (clock Demo.world0).
Proof.
  eexists. split; [vm_compute; reflexivity|].
  split; [reflexivity|]. split; [reflexivity|]. discriminate.
Qed.

Lemma listMessages_defaults_witness :
  PrivateKeyBundle.identityKey Demo.alice = Some Demo.aliceKey
  /\ calls (listMessages Demo.alice None Demo.world0).2
     = calls Demo.world0 ++ [QueryHistory
         {| contentTopics := [topicOf Demo.aliceKey];
            q_pageSize := Some 10%Z;
            q_pageDirection := Some FORWARD;
            q_startTime := Some (clock Demo.world0 - 604800000)%Z;
            q_endTime := Some (1000 * (clock Demo.world0 / 1000))%Z |}].
Proof.
  split; [reflexivity|].
  apply (listMessages_defaults Demo.alice Demo.aliceKey Demo.world0). reflexivity.
Defined.

Lemma listMessages_rejects_on_decrypt_failure_witness :
  exists e, (listMessages Demo.bob None Demo.world0).1 = Rejected e.
Proof.
  apply (listMessages_rejects_on_decrypt_failure Demo.bob Demo.bobKey None
           Demo.world0 Demo.bobQuery
           [Some (published Demo.bobTopic
                    (Message.toBytes (Demo.envelope (Some "hi"))));
            Some Demo.sealed]
           Demo.sealed
           (Message.toBytes (Demo.envelope (Some "")))
           (Demo.envelope (Some ""))
           {| ciphertextBytes := [] |}
           (Demo.bundleOf Demo.bob)).
  - reflexivity.
  - vm_compute. reflexivity.
  - vm_compute. reflexivity.
  - right. left. reflexivity.
  - reflexivity.
  - vm_compute. reflexivity.
  - reflexivity.
  - reflexivity.
  - reflexivity.
Defined.

Lemma listMessages_mutates_options_witness :
  heap Demo.world1 !! 0 = Some Demo.callerOptions
  /\ heap (listMessages Demo.alice (Some 0) Demo.world1).2 !! 0
     = Some {| pageSize := Some 25%Z;
               startTime := Some 1666784823500%Z;
               endTime := Some 1667389623000%Z |}.
Proof.
  split; [reflexivity|].
  apply (listMessages_mutates_options Demo.alice 0 Demo.callerOptions Demo.world1).
  reflexivity.
Defined.

End ClientExamples.

(** ** Keystore provider *)

Module KeystoreClaims.
Import Keystore.

Lemma invocations_app (callback : nat) (l1 l2 : list Event) :
  invocations callback (l1 ++ l2) = invocations callback l1 + invocations callback l2.
Proof. unfold invocations. by rewrite List.filter_app, length_app. Qed.

(** C9. The generator-style provider: without a wallet [newKeystore]
    rejects as unavailable and invokes nothing; with a wallet it resolves to
    a keystore, and a supplied [preCreateIdentityNotifier] is invoked exactly
    once, before the identity is created. *)
Theorem newKeystore_contract (provider : KeyGeneratorKeystoreProvider)
    (opts : KeystoreProviderOptions) (apiClient : ApiClient) (log : list Event) :
  newKeystore provider opts apiClient None log
  = (Rejected KeystoreProviderUnavailableError, log)
  /\ forall wallet,
       exists keystore log',
         newKeystore provider opts apiClient (Some wallet) log
         = (Fulfilled keystore, log')
         /\ forall callback,
              preCreateIdentityNotifier opts = Some callback ->
              invocations callback log' = S (invocations callback log)
              /\ log' = log ++ [Notified callback; IdentityCreated wallet].
Proof.
  split; [reflexivity|]. intros wallet. cbn. unfold generate.
  eexists _, _. split; [reflexivity|]. intros callback ->.
  split; [|by rewrite <- app_assoc].
  rewrite !invocations_app. unfold invocations at 2 3. cbn.
  rewrite Nat.eqb_refl. cbn. lia.
Qed.

End KeystoreClaims.

(** ** A subscription through a whole run *)

Section RunOfStream.
Context `{Externals}.

(** The world [streamMessages] leaves, written out. *)
Lemma streamMessages_world (r : PrivateKeyBundle.t) (k : PrivateKey) (w : World) :
  PrivateKeyBundle.identityKey r = Some k ->
  wf w ->
  exists s w1,
    streamMessages r w = (Returned s, w1)
    /\ stream s = length (promises w)
    /\ observers w1
       = <[topicOf k := default [] (observers w !! topicOf k)
                        ++ [{| fn_id := next_fn w;
                               fn_body := StreamObserver r (length (promises w)) |}]]>
           (observers w)
    /\ promises w1 = promises w ++ [Pending]
    /\ unhandled w1 = unhandled w
    /\ heap w1 = heap w.
Proof.
  intros Hk Hwf. unfold streamMessages. rewrite Hk. cbn. fold (topicOf k).
  eexists _, _. split; [reflexivity|]. cbn. split; [done|].
  split; [|done]. unfold observers_add. rewrite set_add_fresh; [done|].
  eapply Forall_impl; [exact (wf_registered w (topicOf k) Hwf)|].
  intros g [Hg _]. cbn. lia.
Qed.

(** One delivery, seen from a subscription that other subscriptions may
    have followed. *)
Lemma relay_deliver_listens (r : PrivateKeyBundle.t) (t : string) (p : nat)
    (w : World) (m : WakuMessage) :
  listens r t p w ->
  listens r t p (relay_deliver w m)
  /\ promises (relay_deliver w m) !! p
     = (fun st => observeOn r t st m) <$> promises w !! p.
Proof.
  intros Hl. split.
  { unfold listens. destruct (relay_deliver_frame w m) as (-> & _ & -> & _).
    exact Hl. }
  destruct Hl as (Ht & _ & (fs & f & gs & Hfs & Hf & Hbefore & Hafter) & Hrest).
  assert (Hall : Forall (fun g => refers p g = false) (default [] (observers w !! ""))).
  { destruct (observers w !! "") as [hs|] eqn:E; [|by constructor].
    by apply (Hrest "" hs). }
  unfold relay_deliver.
  set (w1 := call_all (default [] (observers w !! "")) m w).
  assert (Hw1 : promises w1 !! p = promises w !! p)
    by by apply call_all_promise_other.
  assert (Ho1 : observers w1 = observers w) by apply call_all_frame.
  assert (Hskip : contentTopic m <> Some t ->
            promises w !! p = (fun st => observeOn r t st m) <$> promises w !! p).
  { intros Hne. destruct (promises w !! p) as [st|]; [|done]. cbn.
    unfold observeOn. by rewrite decide_False. }
  destruct (contentTopic m) as [t'|] eqn:Hct.
  - destruct (decide (t' = "")) as [->|Ht'].
    { rewrite Hw1. apply Hskip. congruence. }
    rewrite Ho1.
    destruct (decide (t' = t)) as [->|Hne].
    + rewrite Hfs. cbn [from_option id]. unfold call_all.
      rewrite foldl_app. cbn [foldl].
      fold (call_all fs m w1).
      fold (call_all gs m (call f m (call_all fs m w1))).
      rewrite call_all_promise_other by done.
      rewrite (call_promise_own _ _ _ r p Hf).
      rewrite call_all_promise_other by done.
      rewrite Hw1. destruct (promises w !! p) as [st|]; [|done]. cbn.
      unfold observeOn. by rewrite Hct, decide_True.
    + rewrite call_all_promise_other, Hw1; [apply Hskip; congruence|].
      destruct (observers w !! t') as [hs|] eqn:E; [|by constructor].
      by apply (Hrest t' hs).
  - rewrite Hw1. by apply Hskip.
Qed.

(** What leaves the registry and the promise alone leaves the subscription
    alone. *)
Lemma listens_frame (r : PrivateKeyBundle.t) (t : string) (p : nat) (w w' : World) :
  observers w' = observers w ->
  length (promises w) <= length (promises w') ->
  listens r t p w -> listens r t p w'.
Proof.
  intros Ho Hp (Ht & Hlt & Hown & Hrest). unfold listens. rewrite Ho.
  repeat split; [done | lia | done | done].
Qed.

(** A later subscription leaves an earlier one alone. *)
Lemma streamMessages_listens (r r' : PrivateKeyBundle.t) (t : string) (p : nat)
    (w : World) :
  wf w ->
  listens r t p w ->
  listens r t p (streamMessages r' w).2
  /\ promises (streamMessages r' w).2 !! p = promises w !! p.
Proof.
  intros Hwf Hl.
  destruct (PrivateKeyBundle.identityKey r') as [k'|] eqn:Hk';
    [|unfold streamMessages; by rewrite Hk'].
  destruct (streamMessages_world r' k' w Hk' Hwf)
    as (s & w1 & -> & _ & Ho & Hp & _). cbn [snd].
  destruct Hl as (Ht & Hlt & (fs & f & gs & Hfs & Hf & Hbefore & Hafter) & Hrest).
  assert (Hnew : refers p {| fn_id := next_fn w;
                             fn_body := StreamObserver r' (length (promises w)) |}
                 = false).
  { unfold refers. cbn. apply Nat.eqb_neq. lia. }
  split; [|rewrite Hp; by apply lookup_app_l].
  unfold listens. rewrite Ho, Hp, length_app. cbn [length].
  split; [done|]. split; [lia|]. split.
  - destruct (decide (topicOf k' = t)) as [->|Hne].
    + exists fs, f, (gs ++ [{| fn_id := next_fn w;
                              fn_body := StreamObserver r' (length (promises w)) |}]).
      rewrite lookup_insert_eq, Hfs. cbn [from_option id].
      rewrite <- app_assoc. split; [done|]. split; [done|]. split; [done|].
      apply Forall_app. split; [done | by constructor].
    + exists fs, f, gs. by rewrite lookup_insert_ne.
  - intros t' hs Ht' Hhs.
    destruct (decide (topicOf k' = t')) as [<-|Hne].
    + rewrite lookup_insert_eq in Hhs. injection Hhs as <-.
      apply Forall_app. split; [|by constructor].
      destruct (observers w !! topicOf k') as [old|] eqn:E; [|by constructor].
      by apply (Hrest (topicOf k') old).
    + rewrite lookup_insert_ne in Hhs by done. by apply (Hrest t' hs).
Qed.

(** Every action but a delivery leaves the promise of a subscription as it
    is, and a delivery makes the one step of its observer. *)
Lemma run_listens (r : PrivateKeyBundle.t) (t : string) (p : nat)
    (w : World) (a : Action) :
  wf w ->
  listens r t p w ->
  listens r t p (run w a)
  /\ promises (run w a) !! p
     = (fun st => foldl (observeOn r t) st (delivered [a])) <$> promises w !! p.
Proof.
  intros Hwf Hl.
  assert (Hid : forall o : option (Promise (list Message.t)), o = (fun st => st) <$> o)
    by by intros [].
  destruct a as [sender recipient msgString | r' | t' | r' opts | x | m | now];
    cbn [run delivered omap foldl].
  - destruct (sendMessage_frame sender recipient msgString w) as (Ho & _ & Hp).
    split; [apply (listens_frame r t p w); by rewrite ?Hp | rewrite Hp; apply Hid].
  - destruct (streamMessages_listens r r' t p w Hwf Hl) as [Hl' ->].
    split; [done | apply Hid].
  - destruct (close_keeps_registry t' w Hwf) as (_ & Ho & Hp & _).
    split; [apply (listens_frame r t p w); by rewrite ?Hp | rewrite Hp; apply Hid].
  - destruct (listMessages_frame r' opts w) as (Ho & _ & Hp).
    split; [apply (listens_frame r t p w); by rewrite ?Hp | rewrite Hp; apply Hid].
  - split; [by apply (listens_frame r t p w) | apply Hid].
  - destruct (relay_deliver_listens r t p w m Hl) as [Hl' ->].
    split; [done|]. by destruct (promises w !! p).
  - split; [by apply (listens_frame r t p w) | apply Hid].
Qed.

Lemma delivered_cons (a : Action) (actions : list Action) :
  delivered (a :: actions) = delivered [a] ++ delivered actions.
Proof. unfold delivered. by destruct a. Qed.

Lemma runs_listen (r : PrivateKeyBundle.t) (t : string) (p : nat)
    (actions : list Action) (w : World) :
  wf w ->
  listens r t p w ->
  promises (foldl run w actions) !! p
  = (fun st => foldl (observeOn r t) st (delivered actions)) <$> promises w !! p.
Proof.
  revert w. induction actions as [|a actions IH]; intros w Hwf Hl.
  - cbn. by destruct (promises w !! p).
  - cbn [foldl]. destruct (run_listens r t p w a Hwf Hl) as [Hl' Hp].
    rewrite (IH _ (run_wf w a Hwf) Hl'), Hp, (delivered_cons a actions).
    destruct (promises w !! p) as [st|]; [|done].
    cbn [fmap option_fmap option_map]. by rewrite foldl_app.
Qed.

(** The promise of a stream after deliveries none of which was overtaken:
    fulfilled with the first message that opened on the topic, pending when
    none did. *)
Lemma observeOn_first (r : PrivateKeyBundle.t) (t : string) (ms : list WakuMessage) :
  foldl (observeOn r t) Pending ms
  = match omap (openedOn r t) ms with
    | [] => Pending
    | msg :: _ => Fulfilled [msg]
    end.
Proof.
  induction ms as [|m ms IH]; [done|]. cbn [foldl].
  assert (Hstep : observeOn r t Pending m
                  = match openedOn r t m with
                    | Some msg => Fulfilled [msg]
                    | None => Pending
                    end).
  { unfold observeOn, openedOn, observe. by repeat case_match. }
  rewrite Hstep.
  replace (omap (openedOn r t) (m :: ms))
    with (match openedOn r t m with
          | Some msg => msg :: omap (openedOn r t) ms
          | None => omap (openedOn r t) ms
          end) by reflexivity.
  destruct (openedOn r t m); [apply observeOn_fulfilled | exact IH].
Qed.

Lemma subscribed_listens (r : PrivateKeyBundle.t) (t : string) (p : nat) (w : World) :
  subscribed r t p w -> p < length (promises w) -> listens r t p w.
Proof.
  intros (Ht & (fs & f & Hfs & Hf & Hbefore) & Hrest) Hp.
  split; [done|]. split; [done|]. split; [|done].
  exists fs, f, []. by repeat split.
Qed.

(** What a new subscription yields after any run in which no delivery is
    overtaken. *)
Lemma stream_after_run (r : PrivateKeyBundle.t) (k : PrivateKey) (w : World) :
  wf w ->
  PrivateKeyBundle.identityKey r = Some k ->
  exists s w1,
    streamMessages r w = (Returned s, w1)
    /\ stream s = length (promises w)
    /\ wf w1
    /\ listens r (topicOf k) (stream s) w1
    /\ promises w1 !! stream s = Some Pending
    /\ forall actions,
         yielded (stream s) (foldl run w1 actions)
         = take 1 (omap (openedOn r (topicOf k)) (delivered actions)).
Proof.
  intros Hwf Hk.
  destruct (streamMessages_subscribes r k w Hk Hwf)
    as (s & w1 & Hs & Hid & _ & Hp & _ & Hsub & Hwf1).
  exists s, w1. split; [done|]. split; [done|]. split; [done|].
  assert (Hl : listens r (topicOf k) (stream s) w1).
  { apply subscribed_listens; [done|]. by apply lookup_lt_Some in Hp. }
  split; [done|]. split; [done|].
  intros actions. unfold yielded.
  rewrite (runs_listen r (topicOf k) (stream s) actions w1 Hwf1 Hl), Hp. cbn.
  rewrite observeOn_first.
  by destruct (omap (openedOn r (topicOf k)) (delivered actions)).
Qed.

End RunOfStream.

(** ** More on streaming *)

Module StreamExtras.

Section Extras.
Context `{Externals}.

(** X6. A message sent to a recipient with another address is published on
    another topic, and its delivery leaves the stream as it was: pending. *)
Theorem stream_ignores_other_recipients (r sender : PrivateKeyBundle.t)
    (k : PrivateKey) (other : KeyBundle.t) (ik : PublicKey) (msgString : string)
    (c : Ciphertext) (w : World) :
  wf w ->
  PrivateKeyBundle.identityKey r = Some k ->
  KeyBundle.identityKey other = Some ik ->
  getEthereumAddress ik <> getEthereumAddress (getPublicKey k) ->
  encrypt sender (TextEncoder_encode msgString) other = Some c ->
  exists s w1,
    streamMessages r w = (Returned s, w1)
    /\ calls (sendMessage sender other msgString w1).2
       = calls w1 ++ [RelaySend (outgoing sender other ik c msgString (clock w1))]
    /\ promises
         (relay_deliver (sendMessage sender other msgString w1).2
            (outgoing sender other ik c msgString (clock w1))) !! stream s
       = Some Pending.
Proof.
  intros Hwf Hk Hik Hne Hc.
  destruct (stream_after_run r k w Hwf Hk)
    as (s & w1 & Hs & _ & Hwf1 & Hl & Hp & _).
  exists s, w1. split; [done|]. split.
  - unfold sendMessage, relay_send. rewrite Hik, Hc.
    by destruct (relay_accepts _).
  - pose proof (runs_listen r (topicOf k) (stream s)
                  [DoSend sender other msgString;
                   Deliver (outgoing sender other ik c msgString (clock w1))]
                  w1 Hwf1 Hl) as Hrun.
    cbn [foldl run] in Hrun. rewrite Hrun, Hp. cbn. f_equal.
    unfold observeOn. rewrite decide_False; [done|].
    unfold outgoing, topicOf. cbn [contentTopic]. intros Heq.
    apply (inj Some), TopicFacts.buildContentTopic_inj in Heq. done.
Qed.

Lemma call_all_unhandled (fs : list Fn) (m : WakuMessage) (w : World) :
  exists l, unhandled (call_all fs m w) = unhandled w ++ l.
Proof.
  unfold call_all. revert w. induction fs as [|f fs IH]; intros w.
  - exists []. by rewrite app_nil_r.
  - cbn [foldl]. destruct (IH (call f m w)) as [l ->].
    assert (exists l0, unhandled (call f m w) = unhandled w ++ l0) as [l0 ->].
    { unfold call. repeat case_match; cbn;
        (by eexists) || (exists []; by rewrite app_nil_r). }
    exists (l0 ++ l). by rewrite app_assoc.
Qed.

(** X7. A delivery on the topic whose payload does not open (it fails to
    decode, or its ciphertext fails to decrypt) makes the observer's promise
    reject with that failure; nobody handles the rejection, and the stream
    stays pending. *)
Theorem failed_delivery_is_unhandled (r : PrivateKeyBundle.t) (k : PrivateKey)
    (w : World) (m : WakuMessage) (pl : bytes) (e : Error) :
  wf w ->
  PrivateKeyBundle.identityKey r = Some k ->
  contentTopic m = Some (topicOf k) ->
  payload m = Some pl ->
  openEnvelope r pl = Thrown e ->
  exists s w1 others,
    streamMessages r w = (Returned s, w1)
    /\ unhandled (relay_deliver w1 m) = unhandled w ++ others ++ [e]
    /\ promises (relay_deliver w1 m) !! stream s = Some Pending.
Proof.
  intros Hwf Hk Hm Hpl He.
  destruct (stream_after_run r k w Hwf Hk)
    as (s & w1 & Hs & Hid & Hwf1 & Hl & Hp & _).
  destruct (streamMessages_world r k w Hk Hwf)
    as (s' & w1' & Hs' & _ & Ho & _ & Hu & _).
  rewrite Hs in Hs'. simplify_eq.
  assert (Hpending : promises (relay_deliver w1' m) !! stream s' = Some Pending).
  { destruct (relay_deliver_listens r (topicOf k) (stream s') w1' m Hl) as [_ ->].
    rewrite Hp. cbn. f_equal. unfold observeOn, observe.
    by rewrite decide_True, Hpl, He. }
  destruct (call_all_unhandled (default [] (observers w1' !! "")) m w1') as [l0 Hl0].
  set (w0 := call_all (default [] (observers w1' !! "")) m w1') in *.
  assert (Ho0 : observers w0 !! topicOf k
                = Some (default [] (observers w !! topicOf k)
                        ++ [{| fn_id := next_fn w;
                               fn_body := StreamObserver r (length (promises w)) |}])).
  { subst w0. destruct (call_all_frame (default [] (observers w1' !! "")) m w1')
      as (-> & _). by rewrite Ho, lookup_insert_eq. }
  destruct (call_all_unhandled (default [] (observers w !! topicOf k)) m w0)
    as [l1 Hl1].
  exists s', w1', (l0 ++ l1). split; [done|]. split; [|done].
  unfold relay_deliver. fold w0. rewrite Hm.
  rewrite decide_False by apply topicOf_nonempty.
  rewrite Ho0. cbn [from_option id]. unfold call_all. rewrite foldl_snoc.
  fold (call_all (default [] (observers w !! topicOf k)) m w0).
  unfold call at 1. cbn [fn_body]. rewrite Hpl, He. cbn.
  by rewrite Hl1, Hl0, Hu, <- !app_assoc.
Qed.

Lemma run_observerCount (t : string) (w : World) (a : Action) :
  wf w -> observerCount t w <= observerCount t (run w a).
Proof.
  intros Hwf. unfold observerCount.
  destruct a as [sender recipient msgString | r | t' | r opts | x | m | now];
    cbn [run].
  - by destruct (sendMessage_frame sender recipient msgString w) as (-> & _).
  - destruct (PrivateKeyBundle.identityKey r) as [k|] eqn:Hk;
      [|unfold streamMessages; by rewrite Hk].
    destruct (streamMessages_world r k w Hk Hwf) as (s & w1 & Hs & _ & Ho & _).
    rewrite Hs. cbn [snd]. rewrite Ho.
    destruct (decide (topicOf k = t)) as [->|Hne].
    + rewrite lookup_insert_eq. cbn [from_option id]. rewrite length_app. lia.
    + by rewrite lookup_insert_ne.
  - by destruct (close_keeps_registry t' w Hwf) as (_ & -> & _).
  - by destruct (listMessages_frame r opts w) as (-> & _).
  - done.
  - by destruct (relay_deliver_frame w m) as (-> & _).
  - done.
Qed.

(** X8. The client never takes a callback out of the relay: along every run
    of a new client, the number of observers under any topic only grows. *)
Theorem observers_never_removed (now : Z) (actions more : list Action) (t : string) :
  observerCount t (foldl run (newClient now) actions)
  <= observerCount t (foldl run (newClient now) (actions ++ more)).
Proof.
  rewrite foldl_app. pose proof (runs_wf now actions) as Hwf.
  revert Hwf. generalize (foldl run (newClient now) actions). intros w Hwf.
  revert w Hwf. induction more as [|a more IH]; intros w Hwf; [done|].
  cbn [foldl]. etrans; [exact (run_observerCount t w a Hwf)|].
  apply IH. by apply run_wf.
Qed.

(** X9. Each round of subscribing and cancelling leaves one more observer
    under the recipient's topic: after [n] rounds there are [n] more. *)
Theorem cancelled_streams_accumulate (r : PrivateKeyBundle.t) (k : PrivateKey)
    (n : nat) (w : World) :
  wf w ->
  PrivateKeyBundle.identityKey r = Some k ->
  observerCount (topicOf k)
    (foldl run w (concat (replicate n [DoStream r; DoClose (topicOf k)])))
  = observerCount (topicOf k) w + n.
Proof.
  intros Hwf Hk. revert w Hwf. induction n as [|n IH]; intros w Hwf.
  - cbn. lia.
  - cbn [replicate concat app foldl].
    assert (Hwf1 : wf (run w (DoStream r))) by by apply run_wf.
    assert (Hwf2 : wf (run (run w (DoStream r)) (DoClose (topicOf k))))
      by by apply run_wf.
    rewrite (IH _ Hwf2). cbn [run].
    destruct (close_keeps_registry (topicOf k) (streamMessages r w).2 Hwf1)
      as (_ & Ho & _).
    destruct (streamMessages_world r k w Hk Hwf) as (s & w1 & Hs & _ & Ho1 & _).
    unfold observerCount. rewrite Ho, Hs. cbn [snd].
    rewrite Ho1, lookup_insert_eq. cbn [from_option id]. rewrite length_app.
    cbn. lia.
Qed.

End Extras.

#[local] Existing Instance Demo.externals.

Lemma stream_ignores_other_recipients_witness :
  exists s w1,
    streamMessages Demo.alice Demo.world0 = (Returned s, w1)
    /\ calls (sendMessage Demo.alice (Demo.bundleOf Demo.bob) "hi bob" w1).2
       = calls w1
         ++ [RelaySend (outgoing Demo.alice (Demo.bundleOf Demo.bob)
                          (Demo.publicOf Demo.bobKey)
                          {| ciphertextBytes := String.list_byte_of_string "hi bob" |}
                          "hi bob" (clock w1))]
    /\ promises
         (relay_deliver (sendMessage Demo.alice (Demo.bundleOf Demo.bob) "hi bob" w1).2
            (outgoing Demo.alice (Demo.bundleOf Demo.bob)
               (Demo.publicOf Demo.bobKey)
               {| ciphertextBytes := String.list_byte_of_string "hi bob" |}
               "hi bob" (clock w1))) !! stream s
       = Some Pending.
Proof.
  apply (stream_ignores_other_recipients Demo.alice Demo.alice Demo.aliceKey
           (Demo.bundleOf Demo.bob) (Demo.publicOf Demo.bobKey) "hi bob"
           {| ciphertextBytes := String.list_byte_of_string "hi bob" |} Demo.world0).
  - exact StreamClaims.wf_world0.
  - reflexivity.
  - reflexivity.
  - vm_compute. discriminate.
  - reflexivity.
Defined.

Lemma failed_delivery_is_unhandled_witness :
  exists s w1 others,
    streamMessages Demo.alice Demo.world0 = (Returned s, w1)
    /\ unhandled (relay_deliver w1 Demo.garbled)
       = unhandled Demo.world0 ++ others ++ [MalformedEnvelope]
    /\ promises (relay_deliver w1 Demo.garbled) !! stream s = Some Pending.
Proof.
  apply (failed_delivery_is_unhandled Demo.alice Demo.aliceKey Demo.world0
           Demo.garbled [x01; x05; x00] MalformedEnvelope).
  - exact StreamClaims.wf_world0.
  - reflexivity.
  - reflexivity.
  - reflexivity.
  - vm_compute. reflexivity.
Defined.

Lemma cancelled_streams_accumulate_witness :
  observerCount (topicOf Demo.aliceKey)
    (foldl run Demo.world0
       (concat (replicate 3 [DoStream Demo.alice; DoClose (topicOf Demo.aliceKey)])))
  = observerCount (topicOf Demo.aliceKey) Demo.world0 + 3.
Proof.
  apply (cancelled_streams_accumulate Demo.alice Demo.aliceKey 3 Demo.world0).
  - exact StreamClaims.wf_world0.
  - reflexivity.
Defined.

End StreamExtras.

(** ** Observer calls in flight *)

Section InFlightFacts.
Context `{Externals}.

Lemma beginCall_frame (f : Fn) (m : WakuMessage) (st : World * list Suspended) :
  observers (beginCall f m st).1 = observers st.1
  /\ next_fn (beginCall f m st).1 = next_fn st.1
  /\ length (promises (beginCall f m st).1) = length (promises st.1).
Proof. unfold beginCall. repeat case_match; cbn; rewrite ?length_alter; done. Qed.

Lemma beginAll_frame (fs : list Fn) (m : WakuMessage) (st : World * list Suspended) :
  observers (beginAll fs m st).1 = observers st.1
  /\ next_fn (beginAll fs m st).1 = next_fn st.1
  /\ length (promises (beginAll fs m st).1) = length (promises st.1).
Proof.
  unfold beginAll. revert st. induction fs as [|f fs IH]; intros st; [done|].
  cbn [foldl]. destruct (IH (beginCall f m st)) as (-> & -> & ->).
  apply beginCall_frame.
Qed.

Lemma relay_dispatch_frame (st : World * list Suspended) (m : WakuMessage) :
  observers (relay_dispatch st m).1 = observers st.1
  /\ next_fn (relay_dispatch st m).1 = next_fn st.1
  /\ length (promises (relay_dispatch st m).1) = length (promises st.1).
Proof.
  unfold relay_dispatch.
  set (st1 := beginAll (default [] (observers st.1 !! "")) m st).
  destruct (beginAll_frame (default [] (observers st.1 !! "")) m st) as (Ho & Hn & Hp).
  fold st1 in Ho, Hn, Hp.
  destruct (contentTopic m) as [t|]; [|done].
  destruct (decide (t = "")); [done|].
  destruct (beginAll_frame (default [] (observers st1.1 !! t)) m st1) as (-> & -> & ->).
  done.
Qed.

Lemma resumeCall_frame (s : Suspended) (w : World) :
  observers (resumeCall s w) = observers w
  /\ next_fn (resumeCall s w) = next_fn w
  /\ length (promises (resumeCall s w)) = length (promises w).
Proof. unfold resumeCall. case_match; cbn; rewrite ?length_alter; done. Qed.

Lemma awaits_Some (m : WakuMessage) (msg : Message.t) (c : Ciphertext) (s : KeyBundle.t) :
  awaits m = Some (msg, c, s) <->
  exists pl, payload m = Some pl /\ Message_fromBytes pl = Some msg
             /\ Message.ciphertext msg = Some c
             /\ Message.header msg ≫= Message.sender = Some s.
Proof.
  unfold awaits. split.
  - intros Ha. destruct (payload m) as [pl|]; [|done]. cbn in Ha.
    destruct (Message_fromBytes pl) as [msg'|] eqn:Hd; [|done]. cbn in Ha.
    destruct (Message.ciphertext msg') as [c'|] eqn:Hc; [|done]. cbn in Ha.
    destruct (Message.header msg' ≫= Message.sender) as [s'|] eqn:Hs; [|done].
    cbn in Ha. simplify_eq. by exists pl.
  - intros (pl & -> & Hd & Hc & Hs). cbn. rewrite Hd. cbn. rewrite Hc. cbn.
    rewrite Hs. done.
Qed.

(** A call that meets no [await] is over when it returns. *)
Lemma beginCall_no_await (f : Fn) (m : WakuMessage) (w : World) (sus : list Suspended) :
  awaits m = None -> beginCall f m (w, sus) = (call f m w, sus).
Proof.
  unfold awaits, beginCall, call, openEnvelope. intros Ha.
  destruct (fn_body f) as [r p|]; [|done].
  destruct (payload m) as [pl|]; [|done]. cbn in *.
  destruct (Message_fromBytes pl) as [msg|]; [|done]. cbn in *.
  destruct (Message.ciphertext msg) as [c|]; [|done]. cbn in *.
  destruct (Message.header msg ≫= Message.sender) as [s|]; [|done]. done.
Qed.

Lemma beginAll_no_await (fs : list Fn) (m : WakuMessage) (w : World)
    (sus : list Suspended) :
  awaits m = None -> beginAll fs m (w, sus) = (call_all fs m w, sus).
Proof.
  intros Ha. unfold beginAll, call_all. revert w.
  induction fs as [|f fs IH]; intros w; [done|].
  cbn [foldl]. by rewrite beginCall_no_await, IH.
Qed.

Lemma beginAll_awaits (fs : list Fn) (m : WakuMessage) (w : World)
    (sus : list Suspended) (msg : Message.t) (c : Ciphertext) (s : KeyBundle.t) :
  awaits m = Some (msg, c, s) ->
  beginAll fs m (w, sus) = (w, sus ++ suspensions msg c s fs).
Proof.
  intros (pl & Hpl & Hd & Hc & Hs)%awaits_Some. unfold beginAll, suspensions.
  revert sus. induction fs as [|f fs IH]; intros sus; [by rewrite app_nil_r|].
  cbn [foldl omap list_omap]. unfold beginCall at 2.
  destruct (fn_body f) as [r p|]; [|apply IH].
  rewrite Hpl, Hd, Hc, Hs. cbn [fst snd]. rewrite IH. by rewrite <- app_assoc.
Qed.

Lemma resumeCall_suspensions (fs : list Fn) (m : WakuMessage) (w : World)
    (msg : Message.t) (c : Ciphertext) (s : KeyBundle.t) :
  awaits m = Some (msg, c, s) ->
  foldl (fun w s => resumeCall s w) w (suspensions msg c s fs) = call_all fs m w.
Proof.
  intros (pl & Hpl & Hd & Hc & Hs)%awaits_Some. unfold call_all, suspensions.
  revert w. induction fs as [|f fs IH]; intros w; [done|].
  cbn [foldl omap list_omap]. unfold call at 2.
  destruct (fn_body f) as [r p|]; [|apply IH].
  cbn [foldl]. rewrite IH. f_equal.
  unfold resumeCall. cbn. rewrite Hpl, (openEnvelope_decrypted r pl msg c s Hd Hc Hs).
  by destruct (decrypt r c s).
Qed.

(** [relay_deliver] is a delivery whose observer calls are not overtaken:
    the relay hands the message over, and the calls it suspended go on, in
    the order they were made, before anything else happens. *)
Lemma relay_deliver_dispatch (w : World) (sus : list Suspended) (m : WakuMessage) :
  exists new,
    (relay_dispatch (w, sus) m).2 = sus ++ new
    /\ foldl (fun w s => resumeCall s w) (relay_dispatch (w, sus) m).1 new
       = relay_deliver w m.
Proof.
  unfold relay_dispatch, relay_deliver. cbn [fst].
  destruct (awaits m) as [[[msg c] s]|] eqn:Ha.
  - rewrite (beginAll_awaits _ m w sus msg c s Ha). cbn [fst].
    destruct (contentTopic m) as [t|].
    + destruct (decide (t = "")) as [->|Ht].
      * eexists. split; [reflexivity|]. cbn [fst]. by apply resumeCall_suspensions.
      * rewrite (beginAll_awaits _ m w _ msg c s Ha). cbn [fst snd].
        rewrite <- app_assoc. eexists. split; [reflexivity|].
        rewrite foldl_app, !(resumeCall_suspensions _ m) by done.
        by destruct (call_all_frame (default [] (observers w !! "")) m w) as (-> & _).
    + eexists. split; [reflexivity|]. cbn [fst]. by apply resumeCall_suspensions.
  - rewrite (beginAll_no_await _ m w sus Ha). cbn [fst].
    destruct (contentTopic m) as [t|].
    + destruct (decide (t = "")) as [->|Ht].
      * exists []. by rewrite app_nil_r.
      * rewrite (beginAll_no_await _ m _ sus Ha). exists []. by rewrite app_nil_r.
    + exists []. by rewrite app_nil_r.
Qed.

Lemma openedOn_bare (r : PrivateKeyBundle.t) (t : string) (m : WakuMessage)
    (pl : bytes) (msg : Message.t) :
  contentTopic m = Some t ->
  payload m = Some pl ->
  Message_fromBytes pl = Some msg ->
  Message.ciphertext msg = None \/ Message.header msg ≫= Message.sender = None ->
  openedOn r t m = Some msg.
Proof.
  intros Ht Hpl Hd Hg. unfold openedOn.
  by rewrite decide_True, Hpl, (openEnvelope_undecrypted r pl msg Hd Hg).
Qed.

Lemma openedOn_awaited (r : PrivateKeyBundle.t) (t : string) (m : WakuMessage)
    (msg : Message.t) (c : Ciphertext) (s : KeyBundle.t) (plain : bytes) :
  contentTopic m = Some t ->
  awaits m = Some (msg, c, s) ->
  decrypt r c s = Some plain ->
  openedOn r t m = Some (Message.setDecrypted (TextDecoder_decode plain) msg).
Proof.
  intros Ht (pl & Hpl & Hd & Hc & Hs)%awaits_Some Hplain. unfold openedOn.
  by rewrite decide_True, Hpl, (openEnvelope_decrypted r pl msg c s Hd Hc Hs), Hplain.
Qed.

(** A promise that holds a value keeps it. *)
Lemma resolve_keeps (q p : nat) (v l : list Message.t) (w : World) :
  promises w !! p = Some (Fulfilled l) ->
  promises (resolve q v w) !! p = Some (Fulfilled l).
Proof.
  intros Hp. cbn. destruct (decide (q = p)) as [->|Hne].
  - by rewrite list_lookup_alter_eq, Hp.
  - by rewrite list_lookup_alter_ne.
Qed.

Lemma beginCall_keeps (f : Fn) (m : WakuMessage) (st : World * list Suspended)
    (p : nat) (l : list Message.t) :
  promises st.1 !! p = Some (Fulfilled l) ->
  promises (beginCall f m st).1 !! p = Some (Fulfilled l).
Proof.
  intros Hp. unfold beginCall. repeat case_match; cbn [fst]; try done;
    by apply resolve_keeps.
Qed.

Lemma beginAll_keeps (fs : list Fn) (m : WakuMessage) (st : World * list Suspended)
    (p : nat) (l : list Message.t) :
  promises st.1 !! p = Some (Fulfilled l) ->
  promises (beginAll fs m st).1 !! p = Some (Fulfilled l).
Proof.
  unfold beginAll. revert st. induction fs as [|f fs IH]; intros st Hp; [done|].
  cbn [foldl]. by apply IH, beginCall_keeps.
Qed.

Lemma resumeCall_keeps (s : Suspended) (w : World) (p : nat) (l : list Message.t) :
  promises w !! p = Some (Fulfilled l) ->
  promises (resumeCall s w) !! p = Some (Fulfilled l).
Proof.
  intros Hp. unfold resumeCall. case_match; [by apply resolve_keeps | done].
Qed.

(** What the caller does adds promises and changes none. *)
Lemma run_promises (w : World) (a : Action) :
  (forall m, a <> Deliver m) ->
  exists more, promises (run w a) = promises w ++ more.
Proof.
  intros Ha.
  destruct a as [sender recipient msgString | r' | t' | r' opts | x | m | now];
    cbn [run].
  - destruct (sendMessage_frame sender recipient msgString w) as (_ & _ & ->).
    exists []. by rewrite app_nil_r.
  - unfold streamMessages. destruct (PrivateKeyBundle.identityKey r').
    + by exists [Pending].
    + exists []. by rewrite app_nil_r.
  - exists []. by rewrite app_nil_r.
  - destruct (listMessages_frame r' opts w) as (_ & _ & ->).
    exists []. by rewrite app_nil_r.
  - exists []. by rewrite app_nil_r.
  - by destruct (Ha m).
  - exists []. by rewrite app_nil_r.
Qed.

Lemma turn_keeps (st : World * list Suspended) (e : Turn) (p : nat)
    (l : list Message.t) :
  promises st.1 !! p = Some (Fulfilled l) ->
  promises (turn st e).1 !! p = Some (Fulfilled l).
Proof.
  intros Hp.
  assert (Hrun : forall a, (forall m, a <> Deliver m) ->
            promises (run st.1 a) !! p = Some (Fulfilled l)).
  { intros a Ha. destruct (run_promises st.1 a Ha) as [more ->].
    by apply lookup_app_l_Some. }
  destruct e as [a|i|]; cbn [turn].
  - destruct a; try (cbn [fst]; by apply Hrun).
    unfold relay_dispatch. destruct (contentTopic wakuMsg) as [t|].
    + destruct (decide (t = "")); repeat apply beginAll_keeps; done.
    + by apply beginAll_keeps.
  - destruct (st.2 !! i); [|done]. by apply resumeCall_keeps.
  - done.
Qed.

Lemma tracks_mono (r : PrivateKeyBundle.t) (t : string) (p : nat)
    (D D' : list WakuMessage) (st : World * list Suspended) :
  D ⊆ D' -> tracks r t p D st -> tracks r t p D' st.
Proof.
  intros Hsub (Hl & Hp & Hsus). split; [done|]. split.
  - destruct Hp as [Hp | (msg & Hp & (m & Hm & Ho)%list_elem_of_omap)]; [by left|].
    right. exists msg. split; [done|]. apply list_elem_of_omap. exists m.
    split; [by apply Hsub | done].
  - eapply Forall_impl; [exact Hsus|]. intros s Hs Hres.
    destruct (Hs Hres) as (Hr & m & Hm & Hrest). split; [done|].
    exists m. split; [by apply Hsub | done].
Qed.

(** One observer called with a message of [D]: the observer of the
    subscription, or one that settles another promise. *)
Lemma beginCall_tracks (r : PrivateKeyBundle.t) (t : string) (p : nat)
    (D : list WakuMessage) (f : Fn) (m : WakuMessage) (st : World * list Suspended) :
  m ∈ D ->
  wf_calls st ->
  tracks r t p D st ->
  allocated st.1 f ->
  refers p f = false \/ (fn_body f = StreamObserver r p /\ contentTopic m = Some t) ->
  wf_calls (beginCall f m st) /\ tracks r t p D (beginCall f m st).
Proof.
  destruct st as [w sus]. intros Hm [Hwf Hrefs] (Hl & Hp & Hsus) [_ Halloc] Hf.
  cbn [fst snd] in *. unfold beginCall.
  destruct (fn_body f) as [r' q|] eqn:Hbody; [|done].
  assert (Hown : q = p -> r' = r /\ contentTopic m = Some t).
  { intros ->. destruct Hf as [Hf | [Hf Ht] ].
    - unfold refers in Hf. rewrite Hbody in Hf. by apply Nat.eqb_neq in Hf.
    - by simplify_eq. }
  destruct (payload m) as [pl|] eqn:Hpl; [|done].
  destruct (Message_fromBytes pl) as [msg|] eqn:Hd.
  2:{ cbn [fst snd]. split; [split|split; [|split] ]; cbn [fst snd]; done. }
  assert (Hbare : Message.ciphertext msg = None
                  \/ Message.header msg ≫= Message.sender = None ->
            wf_calls (resolve q [msg] w, sus)
            /\ tracks r t p D (resolve q [msg] w, sus)).
  { intros Hg. split; [split|split; [|split] ]; cbn [fst snd].
    - apply (wf_frame w); cbn; rewrite ?length_alter; done.
    - cbn. by rewrite length_alter.
    - apply (listens_frame r t p w); cbn; rewrite ?length_alter; done.
    - change (promises (resolve q [msg] w)) with (alter (settle [msg]) q (promises w)).
      destruct (decide (q = p)) as [->|Hne];
        [|by rewrite list_lookup_alter_ne].
      destruct (Hown eq_refl) as [-> Ht].
      rewrite list_lookup_alter_eq.
      destruct Hp as [-> | (msg0 & -> & Hin)]; cbn.
      + right. exists msg. split; [done|]. apply list_elem_of_omap.
        exists m. split; [done|]. by apply (openedOn_bare r t m pl msg).
      + right. by exists msg0.
    - done. }
  destruct (Message.ciphertext msg) as [c|] eqn:Hc; [|apply Hbare; by left].
  destruct (Message.header msg ≫= Message.sender) as [s|] eqn:Hs;
    [|apply Hbare; by right].
  cbn [fst snd]. split; [split|split; [|split] ]; cbn [fst snd]; try done.
  - apply Forall_app. split; [done|]. by repeat constructor.
  - apply Forall_app. split; [done|]. apply Forall_singleton. cbn. intros Hq.
    destruct (Hown Hq) as [-> Ht]. split; [done|]. exists m.
    split; [done|]. split; [done|]. apply awaits_Some. by exists pl.
Qed.

Lemma beginAll_tracks (r : PrivateKeyBundle.t) (t : string) (p : nat)
    (D : list WakuMessage) (fs : list Fn) (m : WakuMessage)
    (st : World * list Suspended) :
  m ∈ D ->
  wf_calls st ->
  tracks r t p D st ->
  Forall (allocated st.1) fs ->
  Forall (fun f => refers p f = false
                   \/ (fn_body f = StreamObserver r p /\ contentTopic m = Some t)) fs ->
  wf_calls (beginAll fs m st) /\ tracks r t p D (beginAll fs m st).
Proof.
  intros Hm. unfold beginAll. revert st.
  induction fs as [|f fs IH]; intros st Hst Htr Halloc Hfs; [done|].
  cbn [foldl]. apply Forall_cons in Halloc as [Hf Halloc].
  apply Forall_cons in Hfs as [Hf' Hfs].
  destruct (beginCall_tracks r t p D f m st Hm Hst Htr Hf Hf') as [Hst' Htr'].
  apply IH; [done | done | | done].
  eapply Forall_impl; [exact Halloc|]. intros g.
  destruct (beginCall_frame f m st) as (_ & Hn & Hlen).
  apply allocated_mono; lia.
Qed.

(** A delivery, seen from a subscription. *)
Lemma relay_dispatch_tracks (r : PrivateKeyBundle.t) (t : string) (p : nat)
    (D : list WakuMessage) (m : WakuMessage) (st : World * list Suspended) :
  wf_calls st ->
  tracks r t p D st ->
  wf_calls (relay_dispatch st m) /\ tracks r t p (D ++ [m]) (relay_dispatch st m).
Proof.
  intros Hst Htr.
  assert (Hm : m ∈ D ++ [m]) by (apply elem_of_app; right; by apply list_elem_of_singleton).
  apply (tracks_mono r t p D (D ++ [m])) in Htr; [|by apply list_subseteq_app_l].
  pose proof Htr as (Hl & _).
  destruct Hl as (Ht & _ & (fs & f & gs & Hfs & Hf & Hbefore & Hafter) & Hrest).
  assert (Hothers : forall (Q : Fn -> Prop) t' (st' : World * list Suspended),
            observers st'.1 = observers st.1 -> t' <> t ->
            Forall (fun g => refers p g = false \/ Q g)
              (default [] (observers st'.1 !! t'))).
  { intros Q t' st' -> Hne. destruct (observers st.1 !! t') as [hs|] eqn:E;
      [|by constructor].
    eapply Forall_impl; [exact (Hrest t' hs Hne E)|]. intros g Hg. by left. }
  unfold relay_dispatch.
  set (st1 := beginAll (default [] (observers st.1 !! "")) m st).
  assert (H1 : wf_calls st1 /\ tracks r t p (D ++ [m]) st1).
  { apply beginAll_tracks; [done | done | done | |].
    - apply wf_registered, Hst.
    - by apply Hothers. }
  destruct H1 as [Hst1 Htr1].
  assert (Ho1 : observers st1.1 = observers st.1) by apply beginAll_frame.
  destruct (contentTopic m) as [t'|] eqn:Hct; [|done].
  destruct (decide (t' = "")) as [->|Ht']; [done|].
  apply beginAll_tracks; [done | done | done | |].
  - apply wf_registered, Hst1.
  - destruct (decide (t' = t)) as [->|Hne]; [|by apply Hothers].
    rewrite Ho1, Hfs. cbn [from_option id].
    apply Forall_app. split; [|apply Forall_cons; split].
    + eapply Forall_impl; [exact Hbefore|]. intros g Hg. by left.
    + by right.
    + eapply Forall_impl; [exact Hafter|]. intros g Hg. by left.
Qed.

(** A suspended call going on, seen from a subscription. *)
Lemma resumeCall_tracks (r : PrivateKeyBundle.t) (t : string) (p : nat)
    (D : list WakuMessage) (i : nat) (s : Suspended) (st : World * list Suspended) :
  st.2 !! i = Some s ->
  wf_calls st ->
  tracks r t p D st ->
  wf_calls (resumeCall s st.1, delete i st.2)
  /\ tracks r t p D (resumeCall s st.1, delete i st.2).
Proof.
  destruct st as [w sus]. cbn [fst snd].
  intros Hi [Hwf Hrefs] (Hl & Hp & Hsus).  cbn [fst snd] in *.
  destruct (resumeCall_frame s w) as (Ho & Hn & Hlen).
  split; [split|split; [|split] ]; cbn [fst snd].
  - apply (wf_frame w); [done | lia | lia | done].
  - rewrite Hlen. by apply Forall_delete.
  - apply (listens_frame r t p w); [done | lia | done].
  - unfold resumeCall.
    destruct (decrypt (sus_recipient s) (sus_ciphertext s) (sus_sender s))
      as [plain|] eqn:Hplain; [|done].
    cbn. destruct (decide (sus_resolve s = p)) as [Hq|Hne];
      [|by rewrite list_lookup_alter_ne].
    rewrite Hq, list_lookup_alter_eq.
    destruct (Forall_lookup_1 _ _ _ _ Hsus Hi Hq) as (Hr & m & Hm & Ht & Ha).
    destruct Hp as [-> | (msg0 & -> & Hin)]; cbn.
    + right. eexists. split; [done|]. apply list_elem_of_omap.
      exists m. split; [done|]. rewrite Hr in Hplain.
      by apply (openedOn_awaited r t m _ (sus_ciphertext s) (sus_sender s) plain).
    + right. by exists msg0.
  - by apply Forall_delete.
Qed.

(** What the caller does, seen from a subscription. *)
Lemma run_tracks (r : PrivateKeyBundle.t) (t : string) (p : nat)
    (D : list WakuMessage) (a : Action) (st : World * list Suspended) :
  (forall m, a <> Deliver m) ->
  wf_calls st ->
  tracks r t p D st ->
  wf_calls (run st.1 a, st.2) /\ tracks r t p D (run st.1 a, st.2).
Proof.
  destruct st as [w sus]. cbn [fst snd].
  intros Ha [Hwf Hrefs] (Hl & Hp & Hsus). cbn [fst snd] in *.
  destruct (run_promises w a Ha) as [more Hmore].
  destruct (run_listens r t p w a Hwf Hl) as [Hl' Hp'].
  assert (Hsame : promises (run w a) !! p = promises w !! p).
  { rewrite Hp'. replace (delivered [a]) with (@nil WakuMessage).
    - by destruct (promises w !! p).
    - destruct a; try done. by destruct (Ha wakuMsg). }
  split; [split|split; [|split] ]; cbn [fst snd].
  - by apply run_wf.
  - eapply Forall_impl; [exact Hrefs|]. intros s Hs. cbn in Hs.
    rewrite Hmore, length_app. lia.
  - done.
  - by rewrite Hsame.
  - done.
Qed.

Lemma dispatched_snoc (es : list Turn) (e : Turn) :
  dispatched (es ++ [e]) = dispatched es ++ dispatched [e].
Proof. unfold dispatched. by rewrite omap_app. Qed.

(** Any turn, seen from a subscription. *)
Lemma turn_tracks (r : PrivateKeyBundle.t) (t : string) (p : nat)
    (D : list WakuMessage) (e : Turn) (st : World * list Suspended) :
  wf_calls st ->
  tracks r t p D st ->
  wf_calls (turn st e) /\ tracks r t p (D ++ dispatched [e]) (turn st e).
Proof.
  intros Hst Htr.
  assert (Hrun : forall a, (forall m, a <> Deliver m) ->
            wf_calls (run st.1 a, st.2)
            /\ tracks r t p (D ++ []) (run st.1 a, st.2)).
  { intros a Ha. rewrite app_nil_r. by apply run_tracks. }
  destruct e as [a|i|]; cbn [turn].
  - destruct a; try (by apply Hrun). by apply relay_dispatch_tracks.
  - cbn [dispatched omap list_omap]. rewrite app_nil_r.
    destruct (st.2 !! i) as [s|] eqn:Hi; [|done].
    by apply (resumeCall_tracks r t p D i s st).
  - cbn [dispatched omap list_omap]. by rewrite app_nil_r.
Qed.

(** The process *)

Lemma advance_exited (mode : UnhandledRejections) (P : Process) (e : Turn) :
  exited P = true -> advance mode P e = P.
Proof. unfold advance. by intros ->. Qed.

Lemma advances_exited (mode : UnhandledRejections) (P : Process) (es : list Turn) :
  exited P = true -> foldl (advance mode) P es = P.
Proof.
  intros HP. induction es as [|e es IH]; [done|].
  cbn [foldl]. by rewrite advance_exited.
Qed.

Lemma advance_Warn (w : World) (sus : list Suspended) (e : Turn) :
  advance Warn (started w sus) e = started (turn (w, sus) e).1 (turn (w, sus) e).2.
Proof. by destruct e. Qed.

(** Under [Throw] too, a turn that is not the end of the process is the
    turn of the event loop. *)
Lemma advance_Does (mode : UnhandledRejections) (w : World) (sus : list Suspended)
    (a : Action) :
  advance mode (started w sus) (Does a)
  = started (turn (w, sus) (Does a)).1 (turn (w, sus) (Does a)).2.
Proof. done. Qed.

(** Any turns, seen from a subscription. *)
Lemma advance_tracks (mode : UnhandledRejections) (r : PrivateKeyBundle.t)
    (t : string) (p : nat) (D : list WakuMessage) (e : Turn) (P : Process) :
  wf_calls (world P, inFlight P) ->
  tracks r t p D (world P, inFlight P) ->
  wf_calls (world (advance mode P e), inFlight (advance mode P e))
  /\ tracks r t p (D ++ dispatched [e])
       (world (advance mode P e), inFlight (advance mode P e)).
Proof.
  intros Hwf Htr.
  assert (Hsame : wf_calls (world P, inFlight P)
                  /\ tracks r t p (D ++ dispatched [e]) (world P, inFlight P)).
  { split; [done|]. eapply tracks_mono; [|exact Htr]. by apply list_subseteq_app_l. }
  assert (Hturn : wf_calls (turn (world P, inFlight P) e)
                  /\ tracks r t p (D ++ dispatched [e]) (turn (world P, inFlight P) e))
    by by apply turn_tracks.
  unfold advance. destruct (exited P); [done|].
  destruct e as [a|i|]; cbn [world inFlight]; rewrite <- ?surjective_pairing;
    try done.
  destruct mode, (unhandled (world P)); done.
Qed.

Lemma advances_track (mode : UnhandledRejections) (r : PrivateKeyBundle.t)
    (t : string) (p : nat) (es : list Turn) (D : list WakuMessage) (P : Process) :
  wf_calls (world P, inFlight P) ->
  tracks r t p D (world P, inFlight P) ->
  tracks r t p (D ++ dispatched es)
    (world (foldl (advance mode) P es), inFlight (foldl (advance mode) P es)).
Proof.
  revert D P. induction es as [|e es IH]; intros D P Hwf Htr.
  - cbn. by rewrite app_nil_r.
  - cbn [foldl]. destruct (advance_tracks mode r t p D e P Hwf Htr) as [Hwf' Htr'].
    specialize (IH _ _ Hwf' Htr').
    replace (D ++ dispatched (e :: es)) with ((D ++ dispatched [e]) ++ dispatched es);
      [done|].
    rewrite <- app_assoc. f_equal. unfold dispatched.
    by rewrite <- omap_app.
Qed.

Lemma advances_keep (mode : UnhandledRejections) (es : list Turn) (P : Process)
    (p : nat) (l : list Message.t) :
  promises (world P) !! p = Some (Fulfilled l) ->
  promises (world (foldl (advance mode) P es)) !! p = Some (Fulfilled l).
Proof.
  revert P. induction es as [|e es IH]; intros P Hp; [done|].
  cbn [foldl]. apply IH. unfold advance. destruct (exited P); [done|].
  pose proof (turn_keeps (world P, inFlight P) e p l Hp) as Hturn.
  destruct e as [a|i|]; cbn [world]; try done.
  destruct mode, (unhandled (world P)); done.
Qed.

(** What a stream has yielded, it keeps. *)
Lemma yielded_kept (mode : UnhandledRejections) (es : list Turn) (P : Process)
    (p : nat) :
  yielded p (world P) <> [] ->
  yielded p (world (foldl (advance mode) P es)) = yielded p (world P).
Proof.
  unfold yielded. intros Hy.
  destruct (promises (world P) !! p) as [ [ | l | ] | ] eqn:Hp; try done.
  by rewrite (advances_keep mode es P p l Hp).
Qed.

(** The calls a delivery suspended, going on oldest first. *)
Lemma settle_in_order (new sus : list Suspended) (w : World) :
  foldl (advance Warn) (started w (sus ++ new))
    (replicate (length new) (Settles (length sus)))
  = started (foldl (fun w s => resumeCall s w) w new) sus.
Proof.
  revert w. induction new as [|s new IH]; intros w; [by rewrite app_nil_r|].
  cbn [length replicate foldl]. rewrite advance_Warn. cbn [turn fst snd].
  rewrite list_lookup_middle by done. cbn [fst snd].
  assert (Hdel : delete (length sus) (sus ++ s :: new) = sus ++ new).
  { clear. induction sus as [|x sus IHs]; [done|]. cbn. f_equal. exact IHs. }
  rewrite Hdel. apply IH.
Qed.

(** [run] is what happens when nothing is overtaken. *)
Lemma unhurried_run (w : World) (sus : list Suspended) (a : Action) :
  unhurried Warn (started w sus) a = started (run w a) sus.
Proof.
  unfold unhurried. rewrite advance_Warn. cbn [inFlight started].
  destruct a; cbn [turn fst snd]; rewrite ?Nat.sub_diag; try done.
  destruct (relay_deliver_dispatch w sus wakuMsg) as (new & Hnew & Hw).
  rewrite Hnew, length_app, Nat.add_comm, Nat.add_sub, settle_in_order.
  cbn [run]. by rewrite Hw.
Qed.

Lemma unhurried_runs (actions : list Action) (w : World) (sus : list Suspended) :
  foldl (unhurried Warn) (started w sus) actions = started (foldl run w actions) sus.
Proof.
  revert w. induction actions as [|a actions IH]; intros w; [done|].
  cbn [foldl]. by rewrite unhurried_run, IH.
Qed.

(** A delivery that suspends no call is over when the relay is done. *)
Lemma relay_dispatch_no_await (w : World) (sus : list Suspended) (m : WakuMessage) :
  awaits m = None -> relay_dispatch (w, sus) m = (relay_deliver w m, sus).
Proof.
  intros Ha. unfold relay_dispatch, relay_deliver. cbn [fst].
  rewrite (beginAll_no_await _ m w sus Ha). cbn [fst].
  destruct (contentTopic m) as [t|]; [|done].
  destruct (decide (t = "")); [done|]. by rewrite beginAll_no_await.
Qed.

(** A delivery whose calls are all suspended changes nothing yet. *)
Lemma relay_dispatch_awaits (w : World) (sus : list Suspended) (m : WakuMessage) :
  is_Some (awaits m) -> (relay_dispatch (w, sus) m).1 = w.
Proof.
  intros [ [ [msg c] s] Ha]. unfold relay_dispatch. cbn [fst].
  rewrite (beginAll_awaits _ m w sus msg c s Ha). cbn [fst].
  destruct (contentTopic m) as [t|]; [|done].
  destruct (decide (t = "")); [done|]. by rewrite (beginAll_awaits _ m w _ msg c s Ha).
Qed.

Lemma observeOn_openedOn (r : PrivateKeyBundle.t) (t : string)
    (st : Promise (list Message.t)) (m : WakuMessage) :
  observeOn r t st m
  = match openedOn r t m with
    | Some msg => settle [msg] st
    | None => st
    end.
Proof. unfold observeOn, openedOn, observe. by repeat case_match. Qed.

Lemma openedOn_decrypts (r : PrivateKeyBundle.t) (t : string) (m : WakuMessage)
    (msg msg0 : Message.t) (c : Ciphertext) (s : KeyBundle.t) :
  openedOn r t m = Some msg ->
  awaits m = Some (msg0, c, s) ->
  is_Some (decrypt r c s).
Proof.
  intros Ho (pl & Hpl & Hd & Hc & Hs)%awaits_Some. unfold openedOn in Ho.
  case_decide; [|done]. rewrite Hpl in Ho.
  rewrite (openEnvelope_decrypted r pl msg0 c s Hd Hc Hs) in Ho.
  by destruct (decrypt r c s).
Qed.

(** The calls a message that waits for its decryption leaves in flight. *)
Lemma relay_dispatch_suspensions (w : World) (sus : list Suspended) (m : WakuMessage)
    (msg : Message.t) (c : Ciphertext) (s : KeyBundle.t) (t : string) :
  awaits m = Some (msg, c, s) ->
  contentTopic m = Some t ->
  t <> "" ->
  relay_dispatch (w, sus) m
  = (w, sus ++ suspensions msg c s (default [] (observers w !! ""))
            ++ suspensions msg c s (default [] (observers w !! t))).
Proof.
  intros Ha Hct Ht. unfold relay_dispatch. cbn [fst].
  rewrite (beginAll_awaits _ m w sus msg c s Ha), Hct. cbn [fst].
  rewrite decide_False by done.
  by rewrite (beginAll_awaits _ m w _ msg c s Ha), <- app_assoc.
Qed.

(** A promise that is pending after a turn was pending before it. *)
Lemma pending_before (r : PrivateKeyBundle.t) (t : string) (p : nat)
    (D : list WakuMessage) (st : World * list Suspended) (e : Turn) :
  tracks r t p D st ->
  promises (turn st e).1 !! p = Some Pending ->
  promises st.1 !! p = Some Pending.
Proof.
  intros (_ & [Hp | (msg & Hp & _)] & _) Hafter; [done|].
  by rewrite (turn_keeps st e p [msg] Hp) in Hafter.
Qed.

(** Any turn keeps what a pending subscription is owed. *)
Lemma turn_owes (r : PrivateKeyBundle.t) (t : string) (p : nat)
    (D : list WakuMessage) (e : Turn) (st : World * list Suspended) :
  tracks r t p D st ->
  owes r t p D st ->
  owes r t p (D ++ dispatched [e]) (turn st e).
Proof.
  intros Htr Howes Hafter.
  pose proof (pending_before r t p D st e Htr Hafter) as Hbefore.
  specialize (Howes Hbefore).
  destruct st as [w sus]. cbn [fst snd] in *.
  destruct Htr as (Hl & _ & _). cbn [fst] in Hl.
  destruct e as [a|i|].
  - destruct a as [sender recipient msgString | r' | t' | r' opts | x | m | now];
      try (cbn [turn dispatched omap list_omap fst snd]; rewrite app_nil_r;
           exact Howes).
    cbn [turn dispatched omap list_omap] in *.
    intros m' msg [Hin | ->%list_elem_of_singleton]%elem_of_app Ho.
    + destruct (Howes m' msg Hin Ho) as (c & Hc & Hrest).
      destruct (relay_deliver_dispatch w sus m) as (new & -> & _).
      exists c. split; [apply elem_of_app; by left | done].
    + destruct (awaits m) as [ [ [msg0 c0] s0]|] eqn:Ha.
      * assert (Hct : contentTopic m = Some t).
        { unfold openedOn in Ho. by case_decide. }
        destruct Hl as (Ht & _ & (fs & f & gs & Hfs & Hf & _) & _).
        rewrite (relay_dispatch_suspensions w sus m msg0 c0 s0 t Ha Hct Ht).
        cbn [snd]. rewrite Hfs. cbn [from_option id].
        eexists. split.
        { apply elem_of_app. right. apply elem_of_app. right.
          unfold suspensions. apply list_elem_of_omap. exists f.
          split; [apply elem_of_app; right; by left|]. by rewrite Hf. }
        done.
      * rewrite (relay_dispatch_no_await w sus m Ha) in Hafter. cbn [fst] in Hafter.
        destruct (relay_deliver_listens r t p w m Hl) as [_ Hp].
        rewrite Hp, Hbefore in Hafter. cbn in Hafter.
        by rewrite observeOn_openedOn, Ho in Hafter.
  - cbn [turn dispatched omap list_omap fst snd] in *. rewrite app_nil_r.
    destruct (sus !! i) as [s0|] eqn:Hi; [|exact Howes].
    cbn [fst snd] in *. intros m msg Hin Ho.
    destruct (Howes m msg Hin Ho) as (c & Hc & Hres & Hrec & Ha).
    exists c. split; [|done].
    assert (Hne : c <> s0).
    { intros ->. destruct (openedOn_decrypts r t m msg _ _ _ Ho Ha) as [plain Hplain].
      unfold resumeCall in Hafter. rewrite Hrec, Hplain, Hres in Hafter.
      change (promises (resolve p ?v w)) with (alter (settle v) p (promises w))
        in Hafter.
      by rewrite list_lookup_alter_eq, Hbefore in Hafter. }
    pose proof (delete_Permutation sus i s0 Hi) as Hperm.
    rewrite Hperm in Hc. apply elem_of_cons in Hc as [Hc | Hc]; done.
  - cbn [turn dispatched omap list_omap]. rewrite app_nil_r. exact Howes.
Qed.

Lemma advances_owe (r : PrivateKeyBundle.t) (t : string) (p : nat)
    (es : list Turn) (D : list WakuMessage) (w : World) (sus : list Suspended) :
  wf_calls (w, sus) ->
  tracks r t p D (w, sus) ->
  owes r t p D (w, sus) ->
  owes r t p (D ++ dispatched es)
    (world (foldl (advance Warn) (started w sus) es),
     inFlight (foldl (advance Warn) (started w sus) es)).
Proof.
  revert D w sus. induction es as [|e es IH]; intros D w sus Hwf Htr Howes.
  - cbn. by rewrite app_nil_r.
  - cbn [foldl]. rewrite advance_Warn.
    destruct (turn_tracks r t p D e (w, sus) Hwf Htr) as [Hwf' Htr'].
    pose proof (turn_owes r t p D e (w, sus) Htr Howes) as Howes'.
    rewrite (surjective_pairing (turn (w, sus) e)) in Hwf', Htr', Howes'.
    specialize (IH _ _ _ Hwf' Htr' Howes').
    replace (D ++ dispatched (e :: es)) with ((D ++ dispatched [e]) ++ dispatched es);
      [done|].
    rewrite <- app_assoc. f_equal. unfold dispatched. by rewrite <- omap_app.
Qed.

(** On a host that goes on, a subscription none of whose calls is in flight
    has yielded when a message delivered on its topic opened. *)
Lemma settled_stream (r : PrivateKeyBundle.t) (t : string) (p : nat) (w : World)
    (sus : list Suspended) (es : list Turn) :
  wf_calls (w, sus) ->
  tracks r t p [] (w, sus) ->
  Forall (fun c => sus_resolve c <> p)
    (inFlight (foldl (advance Warn) (started w sus) es)) ->
  omap (openedOn r t) (dispatched es) <> [] ->
  yielded p (world (foldl (advance Warn) (started w sus) es)) <> [].
Proof.
  intros Hwf Htr Hnone Hopened.
  assert (Howes : owes r t p [] (w, sus)).
  { intros _ m msg Hin. by apply elem_of_nil in Hin. }
  pose proof (advances_owe r t p es [] w sus Hwf Htr Howes) as Hafter.
  pose proof (advances_track Warn r t p es [] (started w sus) Hwf Htr)
    as (_ & [Hp | (msg & Hp & _)] & _); cbn [fst snd app] in *;
    unfold yielded; rewrite Hp; [|done].
  destruct (omap (openedOn r t) (dispatched es)) as [|msg l] eqn:Hl; [done|].
  assert (Hin : msg ∈ omap (openedOn r t) (dispatched es))
    by (rewrite Hl; by left).
  apply list_elem_of_omap in Hin as (m & Hm & Ho).
  destruct (Hafter Hp m msg Hm Ho) as (c & Hc & Hres & _).
  by destruct (proj1 (Forall_forall _ _) Hnone c Hc).
Qed.

Lemma tracks_yielded (r : PrivateKeyBundle.t) (t : string) (p : nat)
    (D : list WakuMessage) (st : World * list Suspended) :
  tracks r t p D st ->
  yielded p st.1 = []
  \/ exists msg, yielded p st.1 = [msg] /\ msg ∈ omap (openedOn r t) D.
Proof.
  intros (_ & [Hp | (msg & Hp & Hin)] & _); unfold yielded; rewrite Hp.
  - by left.
  - right. by exists msg.
Qed.

(** A new subscription among calls in flight. *)
Lemma streamMessages_tracks (r : PrivateKeyBundle.t) (k : PrivateKey) (w : World)
    (sus : list Suspended) :
  wf_calls (w, sus) ->
  PrivateKeyBundle.identityKey r = Some k ->
  exists s w1,
    streamMessages r w = (Returned s, w1)
    /\ stream s = length (promises w)
    /\ promises w1 !! stream s = Some Pending
    /\ wf_calls (w1, sus)
    /\ tracks r (topicOf k) (stream s) [] (w1, sus).
Proof.
  intros [Hwf Hrefs] Hk. cbn [fst snd] in *.
  destruct (stream_after_run r k w Hwf Hk)
    as (s & w1 & Hs & Hid & Hwf1 & Hl & Hp & _).
  destruct (streamMessages_world r k w Hk Hwf)
    as (s' & w1' & Hs' & _ & _ & Hps & _).
  rewrite Hs in Hs'. simplify_eq.
  exists s', w1'. split; [done|]. split; [done|]. split; [done|]. split; [split|].
  - done.
  - cbn [fst snd]. eapply Forall_impl; [exact Hrefs|]. intros x Hx. cbn in Hx.
    rewrite Hps, length_app. lia.
  - split; [done|]. split; [by left|]. cbn [snd].
    eapply Forall_impl; [exact Hrefs|]. intros x Hx Hres. cbn in Hx. lia.
Qed.

(** What a subscription has yielded after any turns, on any host. *)
Lemma tracked_stream (mode : UnhandledRejections) (r : PrivateKeyBundle.t)
    (t : string) (p : nat) (w : World) (sus : list Suspended) (es : list Turn) :
  wf_calls (w, sus) ->
  tracks r t p [] (w, sus) ->
  (yielded p (world (foldl (advance mode) (started w sus) es)) = []
   \/ exists msg,
        yielded p (world (foldl (advance mode) (started w sus) es)) = [msg]
        /\ msg ∈ omap (openedOn r t) (dispatched es)).
Proof.
  intros Hwf Htr.
  exact (tracks_yielded r t p _ _
           (advances_track mode r t p es [] (started w sus) Hwf Htr)).
Qed.

(** A delivery on the topic of a subscription that does not open leaves a
    rejection that nothing handles. *)
Lemma failed_call_unhandled (r : PrivateKeyBundle.t) (t : string) (p : nat)
    (w : World) (m : WakuMessage) (pl : bytes) (e : Error) :
  listens r t p w ->
  contentTopic m = Some t ->
  payload m = Some pl ->
  openEnvelope r pl = Thrown e ->
  length (unhandled w) < length (unhandled (relay_deliver w m)).
Proof.
  intros (Ht & _ & (fs & f & gs & Hfs & Hf & _) & _) Hm Hpl He.
  unfold relay_deliver. rewrite Hm, decide_False by done.
  set (w0 := call_all (default [] (observers w !! "")) m w).
  destruct (StreamExtras.call_all_unhandled (default [] (observers w !! "")) m w) as [l0 Hl0].
  fold w0 in Hl0.
  assert (Ho0 : observers w0 = observers w) by apply call_all_frame.
  rewrite Ho0, Hfs. cbn [from_option id]. unfold call_all at 1.
  rewrite foldl_app. cbn [foldl].
  fold (call_all fs m w0). fold (call_all gs m (call f m (call_all fs m w0))).
  destruct (StreamExtras.call_all_unhandled gs m (call f m (call_all fs m w0))) as [l2 ->].
  unfold call at 1. rewrite Hf, Hpl, He. cbn [unhandled add_unhandled].
  destruct (StreamExtras.call_all_unhandled fs m w0) as [l1 ->]. rewrite Hl0.
  rewrite !length_app. cbn. lia.
Qed.

End InFlightFacts.

Module TimingClaims.

Section Timing.
Context `{Externals}.

(** C1, amended.  For every stream subscription, a delivered payload that
    fails to decode is not yielded and leaves the stream pending, the
    observer registered and no call in flight; but it is not dropped
    silently: the observer call rejects and nothing handles the rejection.
    A host that ends the process on an unhandled rejection (Node's default)
    can end it from then on, and once it has, the stream yields nothing,
    whatever follows.  On a host that goes on, a valid payload that follows
    is yielded: at once and as it is when its envelope lacks ciphertext or
    sender, and not before its decryption has settled when it has both.
    After the undecodable and the valid payload, whatever else happens in
    between and whenever the decryption settles, exactly one message has
    been yielded once no call of the subscription is in flight.  The stream
    is a single promise: under any timing, on any host, it yields at most
    one message and keeps it. *)
Theorem undecodable_payload_is_not_yielded (r : PrivateKeyBundle.t) (k : PrivateKey)
    (w : World) (sus : list Suspended) (bad good : WakuMessage) (plb plg : bytes)
    (msg : Message.t) :
  wf_calls (w, sus) ->
  PrivateKeyBundle.identityKey r = Some k ->
  contentTopic bad = Some (topicOf k) ->
  payload bad = Some plb ->
  Message_fromBytes plb = None ->
  contentTopic good = Some (topicOf k) ->
  payload good = Some plg ->
  openEnvelope r plg = Returned msg ->
  exists s w1,
    streamMessages r w = (Returned s, w1)
    /\ promises (world (advance Warn (started w1 sus) (Does (Deliver bad)))) !! stream s
       = Some Pending
    /\ yielded (stream s) (world (advance Warn (started w1 sus) (Does (Deliver bad)))) = []
    /\ observers (world (advance Warn (started w1 sus) (Does (Deliver bad))))
       = observers w1
    /\ inFlight (advance Warn (started w1 sus) (Does (Deliver bad))) = sus
    /\ length (unhandled w1)
       < length (unhandled (world (advance Warn (started w1 sus) (Does (Deliver bad)))))
    /\ exited (foldl (advance Throw) (started w1 sus) [Does (Deliver bad); Ends])
       = true
    /\ (forall es,
          yielded (stream s)
            (world (foldl (advance Throw) (started w1 sus)
                      (Does (Deliver bad) :: Ends :: es)))
          = [])
    /\ (awaits good = None ->
        yielded (stream s)
          (world (foldl (advance Warn) (started w1 sus)
                    [Does (Deliver bad); Does (Deliver good)]))
        = [msg])
    /\ (is_Some (awaits good) ->
        yielded (stream s)
          (world (foldl (advance Warn) (started w1 sus)
                    [Does (Deliver bad); Does (Deliver good)]))
        = [])
    /\ yielded (stream s)
         (world (foldl (unhurried Warn) (started w1 sus) [Deliver bad; Deliver good]))
       = [msg]
    /\ (forall es,
          dispatched es = [bad; good] ->
          Forall (fun c => sus_resolve c <> stream s)
            (inFlight (foldl (advance Warn) (started w1 sus) es)) ->
          yielded (stream s) (world (foldl (advance Warn) (started w1 sus) es))
          = [msg])
    /\ forall mode es more,
         length (yielded (stream s) (world (foldl (advance mode) (started w1 sus) es)))
         <= 1
         /\ (yielded (stream s) (world (foldl (advance mode) (started w1 sus) es)) <> [] ->
             yielded (stream s)
               (world (foldl (advance mode) (started w1 sus) (es ++ more)))
             = yielded (stream s) (world (foldl (advance mode) (started w1 sus) es))).
Proof.
  intros Hwf Hk Htb Hplb Hbad Htg Hplg Hgood.
  destruct (streamMessages_tracks r k w sus Hwf Hk)
    as (s & w1 & Hs & Hid & Hp & Hwf1 & Htr).
  exists s, w1. split; [done|].
  pose proof Htr as (Hl & _).  cbn [fst] in Hl.
  assert (Hab : awaits bad = None) by (unfold awaits; by rewrite Hplb; cbn; rewrite Hbad).
  assert (Hdrop : forall st, observeOn r (topicOf k) st bad = st).
  { intros st. unfold observeOn, observe, openEnvelope.
    rewrite Hplb, Hbad. by case_decide. }
  assert (Htake : observeOn r (topicOf k) Pending good = Fulfilled [msg]).
  { unfold observeOn, observe. by rewrite decide_True, Hplg, Hgood. }
  assert (Hw1 : turn (w1, sus) (Does (Deliver bad)) = (relay_deliver w1 bad, sus))
    by by apply relay_dispatch_no_await.
  assert (Hone : promises (relay_deliver w1 bad) !! stream s = Some Pending).
  { destruct (relay_deliver_listens r (topicOf k) (stream s) w1 bad Hl) as [_ ->].
    rewrite Hp. cbn. by rewrite Hdrop. }
  assert (Hgrow : length (unhandled w1) < length (unhandled (relay_deliver w1 bad))).
  { apply (failed_call_unhandled r (topicOf k) (stream s) w1 bad plb MalformedEnvelope);
      try done. by apply openEnvelope_undecodable. }
  rewrite advance_Warn, Hw1. cbn [fst snd world inFlight started].
  split; [done|]. split; [unfold yielded; by rewrite Hone|].
  split; [apply relay_deliver_frame|]. split; [done|]. split; [done|].
  assert (Hexit : foldl (advance Throw) (started w1 sus) [Does (Deliver bad); Ends]
                  = {| world := relay_deliver w1 bad; inFlight := sus; exited := true |}).
  { cbn [foldl]. rewrite advance_Does, Hw1. unfold advance. cbn.
    destruct (unhandled (relay_deliver w1 bad)); [cbn in Hgrow; lia | done]. }
  split; [by rewrite Hexit|]. split.
  { intros es. change (Does (Deliver bad) :: Ends :: es)
      with ([Does (Deliver bad); Ends] ++ es).
    rewrite foldl_app, Hexit, advances_exited by done. cbn [world].
    unfold yielded. by rewrite Hone. }
  assert (Hl1 : listens r (topicOf k) (stream s) (relay_deliver w1 bad))
    by by apply relay_deliver_listens.
  assert (Hboth : promises (relay_deliver (relay_deliver w1 bad) good) !! stream s
                  = Some (Fulfilled [msg])).
  { destruct (relay_deliver_listens r (topicOf k) (stream s) _ good Hl1) as [_ ->].
    rewrite Hone. cbn. by rewrite Htake. }
  split; [|split; [|split; [|split] ] ].
  - intros Hag. cbn [foldl]. rewrite !advance_Warn, Hw1. cbn [fst snd turn].
    rewrite (relay_dispatch_no_await _ _ _ Hag). cbn [fst snd started world].
    unfold yielded. by rewrite Hboth.
  - intros Hag. cbn [foldl]. rewrite !advance_Warn, Hw1. cbn [fst snd turn].
    cbn [started world].
    rewrite (relay_dispatch_awaits _ _ _ Hag). unfold yielded. by rewrite Hone.
  - rewrite unhurried_runs. cbn [foldl run started world].
    unfold yielded. by rewrite Hboth.
  - intros es Hes Hnone.
    assert (Hopened : omap (openedOn r (topicOf k)) (dispatched es) = [msg]).
    { rewrite Hes. cbn [omap list_omap]. unfold openedOn.
      rewrite !decide_True by done.
      by rewrite Hplb, Hplg, Hgood, (openEnvelope_undecodable r plb Hbad). }
    destruct (tracked_stream Warn r (topicOf k) (stream s) w1 sus es Hwf1 Htr)
      as [Hy | (m & -> & Hm)].
    + destruct (settled_stream r (topicOf k) (stream s) w1 sus es Hwf1 Htr Hnone);
        [by rewrite Hopened | done].
    + rewrite Hopened in Hm. by apply list_elem_of_singleton in Hm as ->.
  - intros mode es more. split.
    + destruct (tracked_stream mode r (topicOf k) (stream s) w1 sus es Hwf1 Htr)
        as [-> | (m & -> & _)]; cbn; lia.
    + intros Hy. rewrite foldl_app. by apply yielded_kept.
Qed.

End Timing.

#[local] Existing Instance Demo.externals.

Lemma wf_calls_world0 : wf_calls (Demo.world0, []).
Proof. split; [exact StreamClaims.wf_world0 | constructor]. Qed.

Lemma undecodable_payload_is_not_yielded_witness :
  exists s w1,
    streamMessages Demo.alice Demo.world0 = (Returned s, w1)
    /\ promises (world (advance Warn (started w1 []) (Does (Deliver Demo.garbled))))
         !! stream s
       = Some Pending
    /\ yielded (stream s)
         (world (advance Warn (started w1 []) (Does (Deliver Demo.garbled)))) = []
    /\ observers (world (advance Warn (started w1 []) (Does (Deliver Demo.garbled))))
       = observers w1
    /\ inFlight (advance Warn (started w1 []) (Does (Deliver Demo.garbled))) = []
    /\ length (unhandled w1)
       < length (unhandled
                   (world (advance Warn (started w1 []) (Does (Deliver Demo.garbled)))))
    /\ exited (foldl (advance Throw) (started w1 [])
                 [Does (Deliver Demo.garbled); Ends])
       = true
    /\ (forall es,
          yielded (stream s)
            (world (foldl (advance Throw) (started w1 [])
                      (Does (Deliver Demo.garbled) :: Ends :: es)))
          = [])
    /\ (awaits Demo.hello = None ->
        yielded (stream s)
          (world (foldl (advance Warn) (started w1 [])
                    [Does (Deliver Demo.garbled); Does (Deliver Demo.hello)]))
        = [Message.setDecrypted "hello" (Demo.envelope (Some "hello"))])
    /\ (is_Some (awaits Demo.hello) ->
        yielded (stream s)
          (world (foldl (advance Warn) (started w1 [])
                    [Does (Deliver Demo.garbled); Does (Deliver Demo.hello)]))
        = [])
    /\ yielded (stream s)
         (world (foldl (unhurried Warn) (started w1 [])
                   [Deliver Demo.garbled; Deliver Demo.hello]))
       = [Message.setDecrypted "hello" (Demo.envelope (Some "hello"))]
    /\ (forall es,
          dispatched es = [Demo.garbled; Demo.hello] ->
          Forall (fun c => sus_resolve c <> stream s)
            (inFlight (foldl (advance Warn) (started w1 []) es)) ->
          yielded (stream s) (world (foldl (advance Warn) (started w1 []) es))
          = [Message.setDecrypted "hello" (Demo.envelope (Some "hello"))])
    /\ forall mode es more,
         length (yielded (stream s) (world (foldl (advance mode) (started w1 []) es)))
         <= 1
         /\ (yielded (stream s) (world (foldl (advance mode) (started w1 []) es)) <> [] ->
             yielded (stream s)
               (world (foldl (advance mode) (started w1 []) (es ++ more)))
             = yielded (stream s) (world (foldl (advance mode) (started w1 []) es))).
Proof.
  apply (undecodable_payload_is_not_yielded (H := Demo.externals) Demo.alice
           Demo.aliceKey Demo.world0 [] Demo.garbled Demo.hello
           [x01; x05; x00]
           (Message.toBytes (Demo.envelope (Some "hello")))).
  - exact wf_calls_world0.
  - reflexivity.
  - reflexivity.
  - reflexivity.
  - vm_compute. reflexivity.
  - reflexivity.
  - reflexivity.
  - vm_compute. reflexivity.
Defined.

End TimingClaims.

Module TimingExtras.

Section Extras.
Context `{Externals}.

(** X4. Whatever happens after a subscription (further subscriptions,
    cancellations, sends, lists, deliveries on any topic, decryptions
    settling in any order, on any host), its stream has yielded nothing or
    one message, which a message delivered on its topic opened to, and what
    it has yielded it keeps.  On a host that goes on after an unhandled
    rejection, it has yielded once a message delivered on its topic opened
    and none of its calls is in flight; and when no delivery is overtaken,
    the message is the first delivered on the topic that opened. *)
Theorem stream_yields_one_opened (r : PrivateKeyBundle.t) (k : PrivateKey)
    (w : World) (sus : list Suspended) :
  wf_calls (w, sus) ->
  PrivateKeyBundle.identityKey r = Some k ->
  exists s w1,
    streamMessages r w = (Returned s, w1)
    /\ (forall mode es,
          (yielded (stream s) (world (foldl (advance mode) (started w1 sus) es)) = []
           \/ exists msg,
                yielded (stream s) (world (foldl (advance mode) (started w1 sus) es))
                = [msg]
                /\ msg ∈ omap (openedOn r (topicOf k)) (dispatched es))
          /\ forall more,
               yielded (stream s) (world (foldl (advance mode) (started w1 sus) es))
               <> [] ->
               yielded (stream s)
                 (world (foldl (advance mode) (started w1 sus) (es ++ more)))
               = yielded (stream s)
                   (world (foldl (advance mode) (started w1 sus) es)))
    /\ (forall es,
          Forall (fun c => sus_resolve c <> stream s)
            (inFlight (foldl (advance Warn) (started w1 sus) es)) ->
          omap (openedOn r (topicOf k)) (dispatched es) <> [] ->
          yielded (stream s) (world (foldl (advance Warn) (started w1 sus) es)) <> [])
    /\ (forall actions,
          yielded (stream s)
            (world (foldl (unhurried Warn) (started w1 sus) actions))
          = take 1 (omap (openedOn r (topicOf k)) (delivered actions))).
Proof.
  intros Hwf Hk.
  destruct (streamMessages_tracks r k w sus Hwf Hk)
    as (s & w1 & Hs & Hid & Hp & Hwf1 & Htr).
  exists s, w1. split; [done|]. split; [|split].
  - intros mode es. split.
    + by apply tracked_stream.
    + intros more Hy. rewrite foldl_app. by apply yielded_kept.
  - intros es. by apply settled_stream.
  - intros actions. rewrite unhurried_runs. cbn [started world].
    destruct (stream_after_run r k w (proj1 Hwf) Hk)
      as (s' & w1' & Hs' & _ & _ & _ & _ & Hrun).
    rewrite Hs in Hs'. simplify_eq. apply Hrun.
Qed.

(** X5. Two subscriptions of one recipient have promises of their own and
    an observer each.  When no delivery is overtaken, on a host that goes on
    after an unhandled rejection, both have yielded the same: the first
    message delivered on the topic that opened.  Under any timing, on any
    host, each has yielded nothing or one message that a message delivered
    on the topic opened to. *)
Theorem two_streams_agree_unhurried (r : PrivateKeyBundle.t) (k : PrivateKey)
    (w : World) (sus : list Suspended) :
  wf_calls (w, sus) ->
  PrivateKeyBundle.identityKey r = Some k ->
  exists s1 w1 s2 w2,
    streamMessages r w = (Returned s1, w1)
    /\ streamMessages r w1 = (Returned s2, w2)
    /\ stream s1 <> stream s2
    /\ observerCount (topicOf k) w2 = 2 + observerCount (topicOf k) w
    /\ (forall actions,
          yielded (stream s1) (world (foldl (unhurried Warn) (started w2 sus) actions))
          = take 1 (omap (openedOn r (topicOf k)) (delivered actions))
          /\ yielded (stream s2)
               (world (foldl (unhurried Warn) (started w2 sus) actions))
             = take 1 (omap (openedOn r (topicOf k)) (delivered actions)))
    /\ (forall mode es,
          (yielded (stream s1) (world (foldl (advance mode) (started w2 sus) es)) = []
           \/ exists msg,
                yielded (stream s1) (world (foldl (advance mode) (started w2 sus) es))
                = [msg]
                /\ msg ∈ omap (openedOn r (topicOf k)) (dispatched es))
          /\ (yielded (stream s2) (world (foldl (advance mode) (started w2 sus) es)) = []
              \/ exists msg,
                   yielded (stream s2)
                     (world (foldl (advance mode) (started w2 sus) es))
                   = [msg]
                   /\ msg ∈ omap (openedOn r (topicOf k)) (dispatched es))).
Proof.
  intros Hwf Hk.
  destruct (streamMessages_tracks r k w sus Hwf Hk)
    as (s1 & w1 & Hs1 & Hid1 & Hp1 & Hwf1 & Htr1).
  destruct (streamMessages_tracks r k w1 sus Hwf1 Hk)
    as (s2 & w2 & Hs2 & Hid2 & Hp2 & Hwf2 & Htr2).
  exists s1, w1, s2, w2. split; [done|]. split; [done|].
  split; [apply lookup_lt_Some in Hp1; lia|]. split; [|split].
  - destruct (streamMessages_world r k w Hk (proj1 Hwf))
      as (s1' & w1' & Hs1' & _ & Ho1 & _).
    destruct (streamMessages_world r k w1 Hk (proj1 Hwf1))
      as (s2' & w2' & Hs2' & _ & Ho2 & _).
    rewrite Hs1 in Hs1'. rewrite Hs2 in Hs2'. simplify_eq.
    unfold observerCount. rewrite Ho2, lookup_insert_eq, Ho1, lookup_insert_eq.
    cbn [from_option id]. rewrite !length_app. cbn. lia.
  - intros actions. rewrite unhurried_runs. cbn [started world].
    destruct (stream_after_run r k w (proj1 Hwf) Hk)
      as (s1' & w1' & Hs1' & _ & _ & _ & _ & Hrun1).
    destruct (stream_after_run r k w1 (proj1 Hwf1) Hk)
      as (s2' & w2' & Hs2' & _ & _ & _ & _ & Hrun2).
    rewrite Hs1 in Hs1'. rewrite Hs2 in Hs2'. simplify_eq.
    split; [|apply Hrun2].
    specialize (Hrun1 (DoStream r :: actions)). cbn [foldl run] in Hrun1.
    rewrite Hs2 in Hrun1. exact Hrun1.
  - intros mode es.
    assert (Htr1' : tracks r (topicOf k) (stream s1) [] (w2, sus)).
    { destruct (turn_tracks r (topicOf k) (stream s1) [] (Does (DoStream r))
                  (w1, sus) Hwf1 Htr1) as [_ Htr].
      cbn [turn run fst snd dispatched omap list_omap app] in Htr.
      by rewrite Hs2 in Htr. }
    split; by apply tracked_stream.
Qed.

End Extras.

#[local] Existing Instance Demo.externals.

Lemma stream_yields_one_opened_witness :
  exists s w1,
    streamMessages Demo.alice Demo.world0 = (Returned s, w1)
    /\ (forall mode es,
          (yielded (stream s) (world (foldl (advance mode) (started w1 []) es)) = []
           \/ exists msg,
                yielded (stream s) (world (foldl (advance mode) (started w1 []) es))
                = [msg]
                /\ msg ∈ omap (openedOn Demo.alice (topicOf Demo.aliceKey))
                         (dispatched es))
          /\ forall more,
               yielded (stream s) (world (foldl (advance mode) (started w1 []) es))
               <> [] ->
               yielded (stream s)
                 (world (foldl (advance mode) (started w1 []) (es ++ more)))
               = yielded (stream s)
                   (world (foldl (advance mode) (started w1 []) es)))
    /\ (forall es,
          Forall (fun c => sus_resolve c <> stream s)
            (inFlight (foldl (advance Warn) (started w1 []) es)) ->
          omap (openedOn Demo.alice (topicOf Demo.aliceKey)) (dispatched es) <> [] ->
          yielded (stream s) (world (foldl (advance Warn) (started w1 []) es)) <> [])
    /\ (forall actions,
          yielded (stream s)
            (world (foldl (unhurried Warn) (started w1 []) actions))
          = take 1 (omap (openedOn Demo.alice (topicOf Demo.aliceKey))
                      (delivered actions))).
Proof.
  apply (stream_yields_one_opened Demo.alice Demo.aliceKey Demo.world0 []).
  - exact TimingClaims.wf_calls_world0.
  - reflexivity.
Defined.

Lemma two_streams_agree_unhurried_witness :
  exists s1 w1 s2 w2,
    streamMessages Demo.alice Demo.world0 = (Returned s1, w1)
    /\ streamMessages Demo.alice w1 = (Returned s2, w2)
    /\ stream s1 <> stream s2
    /\ observerCount (topicOf Demo.aliceKey) w2
       = 2 + observerCount (topicOf Demo.aliceKey) Demo.world0
    /\ (forall actions,
          yielded (stream s1) (world (foldl (unhurried Warn) (started w2 []) actions))
          = take 1 (omap (openedOn Demo.alice (topicOf Demo.aliceKey))
                      (delivered actions))
          /\ yielded (stream s2)
               (world (foldl (unhurried Warn) (started w2 []) actions))
             = take 1 (omap (openedOn Demo.alice (topicOf Demo.aliceKey))
                         (delivered actions)))
    /\ (forall mode es,
          (yielded (stream s1) (world (foldl (advance mode) (started w2 []) es)) = []
           \/ exists msg,
                yielded (stream s1) (world (foldl (advance mode) (started w2 []) es))
                = [msg]
                /\ msg ∈ omap (openedOn Demo.alice (topicOf Demo.aliceKey))
                         (dispatched es))
          /\ (yielded (stream s2) (world (foldl (advance mode) (started w2 []) es)) = []
              \/ exists msg,
                   yielded (stream s2)
                     (world (foldl (advance mode) (started w2 []) es))
                   = [msg]
                   /\ msg ∈ omap (openedOn Demo.alice (topicOf Demo.aliceKey))
                            (dispatched es))).
Proof.
  apply (two_streams_agree_unhurried Demo.alice Demo.aliceKey Demo.world0 []).
  - exact TimingClaims.wf_calls_world0.
  - reflexivity.
Defined.

(** Deliveries back to back.  The call for [hello] is suspended at its
    decryption when [bare], which has none, arrives and resolves the stream;
    spaced apart, [hello] is the message yielded. *)
Lemma overtaken_delivery :
  exists s w1,
    streamMessages Demo.alice Demo.world0 = (Returned s, w1)
    /\ yielded (stream s)
         (world (foldl (advance Warn) (started w1 [])
                   [Does (Deliver Demo.hello); Does (Deliver Demo.bare); Settles 0]))
       = [Demo.envelope None]
    /\ yielded (stream s)
         (world (foldl (unhurried Warn) (started w1 [])
                   [Deliver Demo.hello; Deliver Demo.bare]))
       = [Message.setDecrypted "hello" (Demo.envelope (Some "hello"))].
Proof.
  eexists _, _. split; [reflexivity|]. split; vm_compute; reflexivity.
Qed.

(** Two subscriptions whose decryptions of [hello] settle at different
    times, one before [bare] arrives and one after it, yield different
    messages. *)
Lemma overtaken_streams_differ :
  exists s1 w1 s2 w2,
    streamMessages Demo.alice Demo.world0 = (Returned s1, w1)
    /\ streamMessages Demo.alice w1 = (Returned s2, w2)
    /\ yielded (stream s1)
         (world (foldl (advance Warn) (started w2 [])
                   [Does (Deliver Demo.hello); Settles 0;
                    Does (Deliver Demo.bare); Settles 0]))
       = [Message.setDecrypted "hello" (Demo.envelope (Some "hello"))]
    /\ yielded (stream s2)
         (world (foldl (advance Warn) (started w2 [])
                   [Does (Deliver Demo.hello); Settles 0;
                    Does (Deliver Demo.bare); Settles 0]))
       = [Demo.envelope None].
Proof.
  eexists _, _, _, _. split; [reflexivity|]. split; [reflexivity|].
  split; vm_compute; reflexivity.
Qed.

End TimingExtras.

(** ** More on sending and listing *)

Module ClientExtras.

Section Extras.
Context `{Externals}.

(** X1. [sendMessage] keeps no state in the client and asks the transport
    for at most one thing, the publication of one message on the recipient's
    topic, stamped with the current time: nothing is published when the
    recipient has no identity key or the encryption fails, and when the relay
    refuses the message the call rejects. *)
Theorem sendMessage_publishes_at_most_once (sender : PrivateKeyBundle.t)
    (recipient : KeyBundle.t) (msgString : string) (w : World) :
  observers (sendMessage sender recipient msgString w).2 = observers w
  /\ promises (sendMessage sender recipient msgString w).2 = promises w
  /\ heap (sendMessage sender recipient msgString w).2 = heap w
  /\ unhandled (sendMessage sender recipient msgString w).2 = unhandled w
  /\ (((KeyBundle.identityKey recipient = None
        \/ encrypt sender (TextEncoder_encode msgString) recipient = None)
       /\ calls (sendMessage sender recipient msgString w).2 = calls w
       /\ exists e, (sendMessage sender recipient msgString w).1 = Rejected e)
      \/ exists ik c,
           KeyBundle.identityKey recipient = Some ik
           /\ encrypt sender (TextEncoder_encode msgString) recipient = Some c
           /\ calls (sendMessage sender recipient msgString w).2
              = calls w ++ [RelaySend (outgoing sender recipient ik c msgString (clock w))]
           /\ (sendMessage sender recipient msgString w).1
              = if relay_accepts (outgoing sender recipient ik c msgString (clock w))
                then Fulfilled tt else Rejected TransportError).
Proof.
  unfold sendMessage, relay_send.
  destruct (KeyBundle.identityKey recipient) as [ik|] eqn:Hik.
  - destruct (encrypt sender (TextEncoder_encode msgString) recipient) as [c|] eqn:Hc.
    + unfold outgoing, Message.setDecrypted.
      cbn [Message.header Message.ciphertext].
      destruct (relay_accepts _) eqn:Hrelay; cbn;
        (repeat (split; [done|])); right; exists ik, c; by rewrite Hrelay.
    + cbn. repeat (split; [done|]). left. split; [by right|]. split; [done|].
      by eexists.
  - cbn. repeat (split; [done|]). left. split; [by left|]. split; [done|].
    by eexists.
Qed.

(** X2. A message sent to a recipient reaches that recipient's stream: when
    the relay delivers what [sendMessage] handed to it, the stream yields one
    message, with the sender's and the recipient's bundle in its header, the
    ciphertext, and the text that was sent as its plaintext; provided the
    codec reads back what it wrote, the recipient decrypts what the sender
    encrypted, and the text decoder inverts the encoder. *)
Theorem sent_message_is_streamed (r sender : PrivateKeyBundle.t) (k : PrivateKey)
    (kb : KeyBundle.t) (msgString : string) (c : Ciphertext) (w : World) :
  wf w ->
  PrivateKeyBundle.identityKey r = Some k ->
  KeyBundle.identityKey kb = Some (getPublicKey k) ->
  encrypt sender (TextEncoder_encode msgString) kb = Some c ->
  decrypt r c (getKeyBundle sender) = Some (TextEncoder_encode msgString) ->
  TextDecoder_decode (TextEncoder_encode msgString) = msgString ->
  (forall m, Message_fromBytes (Message_toBytes m) = Some (Message.strip m)) ->
  exists s w1,
    streamMessages r w = (Returned s, w1)
    /\ calls (sendMessage sender kb msgString w1).2
       = calls w1
         ++ [RelaySend (outgoing sender kb (getPublicKey k) c msgString (clock w1))]
    /\ yielded (stream s)
         (relay_deliver (sendMessage sender kb msgString w1).2
            (outgoing sender kb (getPublicKey k) c msgString (clock w1)))
       = [{| Message.header :=
               Some {| Message.sender := Some (getKeyBundle sender);
                       Message.recipient := Some kb |};
             Message.ciphertext := Some c;
             Message.decrypted := Some msgString |}].
Proof.
  intros Hwf Hk Hkb Hc Hd Htext Hcodec.
  destruct (stream_after_run r k w Hwf Hk)
    as (s & w1 & Hs & _ & _ & _ & _ & Hrun).
  exists s, w1. split; [done|]. split.
  - unfold sendMessage, relay_send. rewrite Hkb, Hc.
    by destruct (relay_accepts _).
  - specialize (Hrun [DoSend sender kb msgString;
                      Deliver (outgoing sender kb (getPublicKey k) c msgString
                                 (clock w1))]).
    cbn [foldl run] in Hrun. rewrite Hrun.
    assert (Hopen : openedOn r (topicOf k)
                      (outgoing sender kb (getPublicKey k) c msgString (clock w1))
                    = Some {| Message.header :=
                                Some {| Message.sender := Some (getKeyBundle sender);
                                        Message.recipient := Some kb |};
                              Message.ciphertext := Some c;
                              Message.decrypted := Some msgString |}).
    { unfold openedOn, outgoing. cbn [contentTopic payload].
      fold (topicOf k). rewrite decide_True by done.
      unfold openEnvelope. rewrite Hcodec. cbn. by rewrite Hd, Htext. }
    unfold delivered. cbn. by rewrite Hopen.
Qed.

(** The outcome of [listMessages] once the store has answered. *)
Lemma listMessages_result (r : PrivateKeyBundle.t) (k : PrivateKey)
    (opts : option nat) (w : World) (q : HistoryQuery) :
  PrivateKeyBundle.identityKey r = Some k ->
  calls (listMessages r opts w).2 = calls w ++ [QueryHistory q] ->
  (listMessages r opts w).1
  = match store_answers q with
    | Some wakuMsgs =>
        Promise_all (map (fun pl => async (openEnvelope r pl)) (payloads wakuMsgs))
    | None => Rejected TransportError
    end.
Proof.
  intros Hk Hcalls.
  destruct (listMessages_calls r k opts w Hk) as [Hcalls' Hres].
  cbn zeta in Hcalls', Hres. rewrite Hcalls', defaults_calls in Hcalls.
  apply app_inv_head in Hcalls. injection Hcalls as Hq. by rewrite Hq in Hres.
Qed.

Lemma Promise_all_fulfilled {A B} (f : A -> Completion B) (l : list A) (ys : list B) :
  Promise_all (map (fun x => async (f x)) l) = Fulfilled ys
  <-> Forall2 (fun x y => f x = Returned y) l ys.
Proof.
  revert ys. induction l as [|x l IH]; intros ys; cbn [map Promise_all].
  - split.
    + intros [= <-]. constructor.
    + intros Hys. by apply Forall2_nil_inv_l in Hys as ->.
  - destruct (f x) as [y|e] eqn:Hx; cbn [async].
    + destruct (Promise_all (map (fun x => async (f x)) l)) as [|zs|e] eqn:Hl.
      * split; [done|]. intros Hys.
        apply Forall2_cons_inv_l in Hys as (y' & ys' & _ & Hys & ->).
        by apply IH in Hys.
      * split.
        -- intros [= <-]. constructor; [done | by apply IH].
        -- intros Hys.
           apply Forall2_cons_inv_l in Hys as (y' & ys' & Hy & Hys & ->).
           apply IH in Hys. rewrite Hx in Hy. by simplify_eq.
      * split; [done|]. intros Hys.
        apply Forall2_cons_inv_l in Hys as (y' & ys' & _ & Hys & ->).
        by apply IH in Hys.
    + split; [done|]. intros Hys.
      apply Forall2_cons_inv_l in Hys as (y' & ys' & Hy & _ & ->). congruence.
Qed.

(** X10. What [listMessages] returns.  Once the store has answered, the call
    fulfils with a list exactly when every item that has a payload opens,
    and the list then holds one message per such item, in the store's order:
    decrypted when the envelope has ciphertext and sender, as decoded when
    it has not; undefined items and items without payload are left out. *)
Theorem listMessages_fulfils_iff (r : PrivateKeyBundle.t) (k : PrivateKey)
    (opts : option nat) (w : World) (q : HistoryQuery)
    (wakuMsgs : list (option WakuMessage)) (msgs : list Message.t) :
  PrivateKeyBundle.identityKey r = Some k ->
  calls (listMessages r opts w).2 = calls w ++ [QueryHistory q] ->
  store_answers q = Some wakuMsgs ->
  (listMessages r opts w).1 = Fulfilled msgs
  <-> Forall2 (fun pl msg => openEnvelope r pl = Returned msg)
        (omap (fun wakuMsg => wakuMsg ≫= payload) wakuMsgs) msgs.
Proof.
  intros Hk Hcalls Hq.
  rewrite (listMessages_result r k opts w q Hk Hcalls), Hq.
  apply Promise_all_fulfilled.
Qed.

(** X11. A single item whose payload fails to decode rejects the whole
    call, as a failing decryption does. *)
Theorem listMessages_rejects_on_undecodable (r : PrivateKeyBundle.t)
    (k : PrivateKey) (opts : option nat) (w : World) (q : HistoryQuery)
    (wakuMsgs : list (option WakuMessage)) (wakuMsg : WakuMessage) (pl : bytes) :
  PrivateKeyBundle.identityKey r = Some k ->
  calls (listMessages r opts w).2 = calls w ++ [QueryHistory q] ->
  store_answers q = Some wakuMsgs ->
  In (Some wakuMsg) wakuMsgs ->
  payload wakuMsg = Some pl ->
  Message_fromBytes pl = None ->
  exists e, (listMessages r opts w).1 = Rejected e.
Proof.
  intros Hk Hcalls Hq Hin Hpl Hbad.
  rewrite (listMessages_result r k opts w q Hk Hcalls), Hq.
  apply (Promise_all_rejected _ MalformedEnvelope).
  apply in_map_iff. exists pl. split.
  - by rewrite (openEnvelope_undecodable r pl Hbad).
  - unfold payloads. apply list_elem_of_In, list_elem_of_omap.
    exists (Some wakuMsg). split; [by apply list_elem_of_In | exact Hpl].
Qed.

(** X12. The recipient is checked after the defaults are assigned: without
    an identity key [listMessages] rejects and asks nothing of the store,
    but the caller's options object already holds the defaults; and with no
    options an object was made all the same. *)
Theorem listMessages_without_recipient (r : PrivateKeyBundle.t) (o : nat)
    (x : ListMessagesOptions) (w : World) :
  PrivateKeyBundle.identityKey r = None ->
  heap w !! o = Some x ->
  (listMessages r (Some o) w).1 = Rejected MissingRecipient
  /\ calls (listMessages r (Some o) w).2 = calls w
  /\ heap (listMessages r (Some o) w).2 !! o = Some (withDefaults (clock w) x)
  /\ (listMessages r None w).1 = Rejected MissingRecipient
  /\ calls (listMessages r None w).2 = calls w
  /\ heap (listMessages r None w).2
     = heap w ++ [withDefaults (clock w) emptyOptions].
Proof.
  intros Hr Hx.
  assert (Hres : forall opts,
            listMessages r opts w
            = (Rejected MissingRecipient,
               applyDefaults (ensureOptions opts w).1 (ensureOptions opts w).2)).
  { intros opts. unfold listMessages.
    destruct (ensureOptions opts w) as [o' w0]. by rewrite Hr. }
  rewrite !Hres. cbn [fst snd].
  rewrite (defaults_calls (Some o) w), (defaults_calls None w).
  destruct (applyDefaults_spec o x w Hx) as (Hx' & _).
  split; [done|]. split; [done|]. split; [exact Hx'|]. split; [done|].
  split; [done|].
  destruct (ensureOptions_fresh w) as (Hfresh & _ & Hclock).
  destruct (applyDefaults_spec _ _ _ Hfresh) as (Hnew & Hold & _).
  rewrite Hclock in Hnew. cbn [ensureOptions new_options fst snd] in *.
  apply list_eq. intros i.
  destruct (decide (i = length (heap w))) as [->|Hi].
  - by rewrite Hnew, list_lookup_middle.
  - rewrite (Hold i Hi). cbn [heap set_heap].
    destruct (decide (i < length (heap w))).
    + by rewrite !lookup_app_l.
    + rewrite !lookup_ge_None_2; [done | rewrite length_app; cbn; lia
                                 | rewrite length_app; cbn; lia].
Qed.

Lemma withDefaults_idempotent (now now' : Z) (x : ListMessagesOptions) :
  withDefaults now' (withDefaults now x) = withDefaults now x.
Proof.
  destruct x as [[n|] [st|] [et|]]; unfold withDefaults; cbn;
    try destruct (Z.eqb n 0) eqn:E; cbn; rewrite ?E; done.
Qed.

(** X13. An options object that went through [listMessages] keeps the
    window it was given then: a later call with the same object, at whatever
    later time, makes the query of the first call again. *)
Theorem reused_options_repeat_the_query (r : PrivateKeyBundle.t) (k : PrivateKey)
    (o : nat) (x : ListMessagesOptions) (w : World) (later : Z) :
  PrivateKeyBundle.identityKey r = Some k ->
  heap w !! o = Some x ->
  calls (listMessages r (Some o)
           (run (listMessages r (Some o) w).2 (Tick later))).2
  = calls w
    ++ [QueryHistory (historyQuery (topicOf k) (withDefaults (clock w) x));
        QueryHistory (historyQuery (topicOf k) (withDefaults (clock w) x))].
Proof.
  intros Hk Hx.
  set (w1 := (listMessages r (Some o) w).2).
  assert (Hheap1 : heap w1 !! o = Some (withDefaults (clock w) x)).
  { subst w1. rewrite listMessages_heap. cbn [ensureOptions fst snd].
    by destruct (applyDefaults_spec o x w Hx) as (-> & _). }
  assert (Hcalls1 : calls w1
            = calls w ++ [QueryHistory (historyQuery (topicOf k)
                                          (withDefaults (clock w) x))]).
  { subst w1. destruct (listMessages_calls r k (Some o) w Hk) as [-> _].
    cbn [ensureOptions fst snd].
    destruct (applyDefaults_spec o x w Hx) as (Hx' & _ & -> & _).
    by rewrite (deref_lookup _ _ _ Hx'). }
  set (w2 := run w1 (Tick later)).
  assert (Hheap2 : heap w2 !! o = Some (withDefaults (clock w) x)) by exact Hheap1.
  destruct (listMessages_calls r k (Some o) w2 Hk) as [-> _].
  cbn [ensureOptions fst snd].
  destruct (applyDefaults_spec o _ w2 Hheap2) as (Hx2 & _ & -> & _).
  rewrite (deref_lookup _ _ _ Hx2), withDefaults_idempotent.
  change (calls w2) with (calls w1). rewrite Hcalls1. by rewrite <- app_assoc.
Qed.

(** X3. A message that was sent and that the store has kept is listed: when
    the store answers the recipient's query with the message [sendMessage]
    handed to the relay, [listMessages] fulfils with that one message,
    carrying the text that was sent as its plaintext; under the provisos of
    the stream. *)
Theorem sent_message_is_listed (r sender : PrivateKeyBundle.t) (k : PrivateKey)
    (kb : KeyBundle.t) (msgString : string) (c : Ciphertext) (sentAt : Z)
    (opts : option nat) (w : World) (q : HistoryQuery)
    (wakuMsgs : list (option WakuMessage)) :
  PrivateKeyBundle.identityKey r = Some k ->
  KeyBundle.identityKey kb = Some (getPublicKey k) ->
  encrypt sender (TextEncoder_encode msgString) kb = Some c ->
  decrypt r c (getKeyBundle sender) = Some (TextEncoder_encode msgString) ->
  TextDecoder_decode (TextEncoder_encode msgString) = msgString ->
  (forall m, Message_fromBytes (Message_toBytes m) = Some (Message.strip m)) ->
  calls (listMessages r opts w).2 = calls w ++ [QueryHistory q] ->
  store_answers q = Some wakuMsgs ->
  omap (fun wakuMsg => wakuMsg ≫= payload) wakuMsgs
  = [default [] (payload (outgoing sender kb (getPublicKey k) c msgString sentAt))] ->
  (listMessages r opts w).1
  = Fulfilled
      [{| Message.header :=
            Some {| Message.sender := Some (getKeyBundle sender);
                    Message.recipient := Some kb |};
          Message.ciphertext := Some c;
          Message.decrypted := Some msgString |}].
Proof.
  intros Hk Hkb Hc Hd Htext Hcodec Hcalls Hq Hstored.
  rewrite (listMessages_result r k opts w q Hk Hcalls), Hq.
  unfold payloads. rewrite Hstored. cbn [map Promise_all outgoing payload from_option id].
  unfold openEnvelope. rewrite Hcodec. cbn. by rewrite Hd, Htext.
Qed.

End Extras.

End ClientExtras.

Module ClientExtrasExamples.
Import ClientExtras.

Lemma sent_message_is_streamed_witness :
  exists s w1,
    streamMessages (H := Demo.externals) Demo.alice Demo.world0 = (Returned s, w1)
    /\ calls (sendMessage (H := Demo.externals) Demo.bob (Demo.bundleOf Demo.alice)
                "hello" w1).2
       = calls w1
         ++ [RelaySend
               (outgoing (H := Demo.externals) Demo.bob (Demo.bundleOf Demo.alice)
                  (Demo.publicOf Demo.aliceKey)
                  {| ciphertextBytes := String.list_byte_of_string "hello" |}
                  "hello" (clock w1))]
    /\ yielded (stream s)
         (relay_deliver (H := Demo.externals)
            (sendMessage (H := Demo.externals) Demo.bob (Demo.bundleOf Demo.alice)
               "hello" w1).2
            (outgoing (H := Demo.externals) Demo.bob (Demo.bundleOf Demo.alice)
               (Demo.publicOf Demo.aliceKey)
               {| ciphertextBytes := String.list_byte_of_string "hello" |}
               "hello" (clock w1)))
       = [Message.setDecrypted "hello" (Demo.envelope (Some "hello"))].
Proof.
  apply (sent_message_is_streamed (H := Demo.externals) Demo.alice Demo.bob
           Demo.aliceKey (Demo.bundleOf Demo.alice) "hello"
           {| ciphertextBytes := String.list_byte_of_string "hello" |} Demo.world0).
  - exact StreamClaims.wf_world0.
  - reflexivity.
  - reflexivity.
  - reflexivity.
  - reflexivity.
  - reflexivity.
  - exact CodecFacts.parse_toBytes.
Defined.

Lemma sent_message_is_listed_witness :
  (listMessages (H := Stored.externals) Demo.alice None Demo.world0).1
  = Fulfilled [Message.setDecrypted "hello" (Demo.envelope (Some "hello"))].
Proof.
  apply (sent_message_is_listed (H := Stored.externals) Demo.alice Demo.bob
           Demo.aliceKey (Demo.bundleOf Demo.alice) "hello"
           {| ciphertextBytes := String.list_byte_of_string "hello" |}
           (clock Demo.world0) None Demo.world0 Stored.aliceQuery
           [None; Some Stored.sent]).
  - reflexivity.
  - reflexivity.
  - reflexivity.
  - reflexivity.
  - reflexivity.
  - exact CodecFacts.parse_toBytes.
  - vm_compute. reflexivity.
  - vm_compute. reflexivity.
  - reflexivity.
Defined.

Lemma listMessages_fulfils_iff_witness :
  (listMessages (H := Demo.externals) Demo.alice None Demo.world0).1
  = Fulfilled [Message.setDecrypted "hello" (Demo.envelope (Some "hello"));
               Message.setDecrypted "again" (Demo.envelope (Some "again"))]
  <-> Forall2 (fun pl msg => openEnvelope (H := Demo.externals) Demo.alice pl = Returned msg)
        (omap (fun wakuMsg => wakuMsg ≫= payload)
           [Some Demo.hello; None; Some Demo.again])
        [Message.setDecrypted "hello" (Demo.envelope (Some "hello"));
         Message.setDecrypted "again" (Demo.envelope (Some "again"))].
Proof.
  apply (listMessages_fulfils_iff (H := Demo.externals) Demo.alice Demo.aliceKey
           None Demo.world0 Stored.aliceQuery).
  - reflexivity.
  - vm_compute. reflexivity.
  - vm_compute. reflexivity.
Defined.

Lemma listMessages_rejects_on_undecodable_witness :
  exists e,
    (listMessages (H := Stored.externalsWith Stored.garbledHistory)
       Demo.alice None Demo.world0).1 = Rejected e.
Proof.
  apply (listMessages_rejects_on_undecodable
           (H := Stored.externalsWith Stored.garbledHistory)
           Demo.alice Demo.aliceKey None Demo.world0 Stored.aliceQuery
           [Some Demo.hello; Some Demo.garbled] Demo.garbled [x01; x05; x00]).
  - reflexivity.
  - vm_compute. reflexivity.
  - vm_compute. reflexivity.
  - right. left. reflexivity.
  - reflexivity.
  - vm_compute. reflexivity.
Defined.

Lemma listMessages_without_recipient_witness :
  (listMessages (H := Demo.externals) Demo.nobody (Some 0) Demo.world1).1
  = Rejected MissingRecipient
  /\ calls (listMessages (H := Demo.externals) Demo.nobody (Some 0) Demo.world1).2
     = calls Demo.world1
  /\ heap (listMessages (H := Demo.externals) Demo.nobody (Some 0) Demo.world1).2 !! 0
     = Some (withDefaults (clock Demo.world1) Demo.callerOptions)
  /\ (listMessages (H := Demo.externals) Demo.nobody None Demo.world1).1
     = Rejected MissingRecipient
  /\ calls (listMessages (H := Demo.externals) Demo.nobody None Demo.world1).2
     = calls Demo.world1
  /\ heap (listMessages (H := Demo.externals) Demo.nobody None Demo.world1).2
     = heap Demo.world1 ++ [withDefaults (clock Demo.world1) emptyOptions].
Proof.
  apply (listMessages_without_recipient (H := Demo.externals) Demo.nobody 0
           Demo.callerOptions Demo.world1); reflexivity.
Defined.

Lemma reused_options_repeat_the_query_witness :
  calls (listMessages (H := Demo.externals) Demo.alice (Some 0)
           (run (H := Demo.externals)
              (listMessages (H := Demo.externals) Demo.alice (Some 0) Demo.world1).2
              (Tick 1667393223500))).2
  = calls Demo.world1
    ++ [QueryHistory (historyQuery (topicOf (H := Demo.externals) Demo.aliceKey)
                        (withDefaults (clock Demo.world1) Demo.callerOptions));
        QueryHistory (historyQuery (topicOf (H := Demo.externals) Demo.aliceKey)
                        (withDefaults (clock Demo.world1) Demo.callerOptions))].
Proof.
  apply (reused_options_repeat_the_query (H := Demo.externals) Demo.alice
           Demo.aliceKey 0 Demo.callerOptions Demo.world1 1667393223500);
    reflexivity.
Defined.

End ClientExtrasExamples.

(** ** Creating and closing clients *)

Module LifecycleFacts.
Import Lifecycle.

Lemma filter_and {A} (f g : A -> bool) (l : list A) :
  List.filter (fun x => g x && f x) l = List.filter g (List.filter f l).
Proof.
  induction l as [|x l IH]; [done|]. cbn.
  destruct (f x) eqn:Ef, (g x) eqn:Eg; cbn; rewrite ?Eg; by rewrite IH.
Qed.

Lemma filter_map_comm {A B} (f : A -> B) (g : B -> bool) (l : list A) :
  List.filter g (map f l) = map f (List.filter (fun x => g (f x)) l).
Proof.
  induction l as [|x l IH]; [done|]. cbn. destruct (g (f x)); cbn; by rewrite IH.
Qed.

Lemma running_below (h : Host) : Forall (fun n => n < length (nodes h)) (running h).
Proof.
  unfold running. apply Forall_forall. intros n Hn.
  apply list_elem_of_In, List.filter_In in Hn as [Hn _].
  apply in_seq in Hn. lia.
Qed.

(** A node that has just been made runs, after all the others. *)
Lemma running_started (ns : list bool) (cs cs' : list HostCall) :
  running {| nodes := ns ++ [true]; hostCalls := cs |}
  = running {| nodes := ns; hostCalls := cs' |} ++ [length ns].
Proof.
  unfold running. cbn [nodes]. rewrite length_app. cbn [length].
  rewrite Nat.add_1_r, seq_S, List.filter_app. cbn [List.filter Nat.add].
  rewrite list_lookup_middle by done. cbn. f_equal.
  apply List.filter_ext_in. intros n Hn. apply in_seq in Hn.
  by rewrite lookup_app_l by lia.
Qed.

(** Stopping a node takes it, and only it, out of the running ones. *)
Lemma running_stopped (ns : list bool) (n : nat) (cs cs' : list HostCall) :
  running {| nodes := <[n := false]> ns; hostCalls := cs |}
  = List.filter (fun m => negb (Nat.eqb m n))
      (running {| nodes := ns; hostCalls := cs' |}).
Proof.
  unfold running. cbn [nodes]. rewrite length_insert, <- filter_and.
  apply List.filter_ext_in. intros m Hm. apply in_seq in Hm.
  destruct (Nat.eqb_spec m n) as [->|Hne]; cbn.
  - by rewrite list_lookup_insert_eq by lia.
  - by rewrite list_lookup_insert_ne.
Qed.

Section Facts.
Context `{Network}.

(** What [create] does to the running nodes when nodes stop as asked. *)
Lemma create_running (opts : option CreateOptions) (h : Host) :
  (forall n, waku_stops n = true) ->
  running (create opts h).2
  = running h ++ match (create opts h).1 with
                 | Resolved c => [waku c]
                 | Failed _ => []
                 end.
Proof.
  intros Hstops. unfold create, stop. rewrite Hstops.
  destruct (waku_creates _); cbn [fst snd log_host nodes hostCalls].
  - destruct (peer_connects _ _); cbn [fst snd log_host nodes hostCalls].
    + destruct h as [ns cs]. apply running_started.
    + destruct h as [ns cs]. cbn [nodes hostCalls].
      rewrite (running_stopped _ _ _ cs), (running_started _ _ cs).
      rewrite List.filter_app. cbn [List.filter]. rewrite Nat.eqb_refl.
      cbn [negb]. rewrite !app_nil_r.
      apply forallb_filter_id, forallb_forall. intros n Hn.
      pose proof (running_below {| nodes := ns; hostCalls := cs |}) as Hlt.
      rewrite Forall_forall in Hlt. apply list_elem_of_In, Hlt in Hn. cbn in Hn.
      apply negb_true_iff, Nat.eqb_neq. lia.
  - destruct h as [ns cs]. by rewrite app_nil_r.
Qed.

Lemma close_running (c : Client) (h : Host) :
  (forall n, waku_stops n = true) ->
  running (close c h).2
  = List.filter (fun m => negb (Nat.eqb m (waku c))) (running h).
Proof.
  intros Hstops. unfold close, stop. rewrite Hstops. cbn [snd log_host nodes].
  destruct h as [ns cs]. apply running_stopped.
Qed.

(** X14. No node is left behind: when nodes stop as asked, after any
    sequence of creations and closings the nodes that run are exactly the
    nodes of the clients the caller holds; a creation that rejects because no
    peer was found has stopped the node it had made. *)
Theorem running_nodes_are_held (steps : list Step) :
  (forall n, waku_stops n = true) ->
  running (foldl step (emptyHost, []) steps).1
  = map waku (foldl step (emptyHost, []) steps).2.
Proof.
  intros Hstops.
  assert (Hstart : running (emptyHost, @nil Client).1 = map waku (emptyHost, @nil Client).2)
    by reflexivity.
  revert Hstart. generalize (emptyHost, @nil Client).
  induction steps as [|a steps IH]; intros st Hst; [done|].
  cbn [foldl]. apply IH. destruct st as [h held]. cbn [fst snd] in Hst.
  destruct a as [opts|c]; cbn [step fst snd].
  - pose proof (create_running opts h Hstops) as Hrun.
    destruct (create opts h) as [[c|e] h']; cbn [fst snd] in *.
    + by rewrite Hrun, Hst, map_app.
    + by rewrite Hrun, Hst, app_nil_r.
  - rewrite (close_running c h Hstops), Hst.
    apply (filter_map_comm waku (fun m => negb (Nat.eqb m (waku c)))).
Qed.

End Facts.

Lemma running_nodes_are_held_witness :
  running (foldl (step (H := slowNetwork)) (emptyHost, []) session).1 = [2]
  /\ map waku (foldl (step (H := slowNetwork)) (emptyHost, []) session).2 = [2].
Proof.
  pose proof (running_nodes_are_held (H := slowNetwork) session (fun _ => eq_refl))
    as Hheld.
  split; [|rewrite <- Hheld]; reflexivity.
Defined.

End LifecycleFacts.
